(** * mtg-sim: the single-trial mana simulator and its aggregator

    A shallow embedding of [mana_value_sim.py]: the card model, the deck
    builder, the mulligan resolver, the turn engine and the reduction of many
    trials into two averages, followed by the properties of these functions.

    Python integers are [Z]; counters that start at 0 or 1 and are only
    incremented ([mulligan_count], [turn]) and list lengths are [nat].
    An exception is a value of [exn]; a function that may raise returns
    [res A].  The two sources of randomness ([uuid4] and the process-wide
    generator [RNG]) are read from an explicit [World] that is threaded
    through the functions that use them.  The three [while True] loops take
    fuel; running out of fuel is [None].  Arguments are well typed, so the
    [isinstance] checks, which can only raise [TypeError], have no
    counterpart; a card of the wrong kind still raises [KeyError]. *)

From Stdlib Require Import ZArith List Bool Lia PeanoNat.
From Stdlib Require QArith Lqa.
From stdpp Require Import base list strings.

Import ListNotations.
Local Open Scope string_scope.
Local Open Scope list_scope.
Local Open Scope nat_scope.

(** ** Exceptions and results *)

Inductive exn : Type :=
| TypeError (msg : string)
| ValueError (msg : string)
| KeyError (key : string)
| IndexError (msg : string)
| OverflowError (msg : string)
| StopIteration.

Inductive res (A : Type) : Type :=
| Ok (a : A)
| Raise (e : exn).

Arguments Ok {A} a.
Arguments Raise {A} e.

Definition res_bind {A B : Type} (r : res A) (k : A -> res B) : res B :=
  match r with
  | Ok a => k a
  | Raise e => Raise e
  end.

Notation "'try' x <- r ; k" := (res_bind r (fun x => k))
  (at level 10, x pattern, r at level 100, k at level 200, only parsing).

(** ** The world: identifiers and the random generator *)

(** [uuid4] is modelled by a counter of fresh identifiers, the generator
    [RNG] by the list of raw numbers it is still to produce (0 once the list
    is used up). *)
Record World : Type := mkWorld {
  next_uuid : nat;
  rng : list nat
}.

(** A computation that reads the world and may raise.  As in Python, what
    was consumed before an exception stays consumed. *)
Definition M (A : Type) : Type := World -> res A * World.

Definition ret {A : Type} (a : A) : M A := fun w => (Ok a, w).

Definition throw {A : Type} (e : exn) : M A := fun w => (Raise e, w).

Definition bind {A B : Type} (m : M A) (k : A -> M B) : M B :=
  fun w =>
    match m w with
    | (Ok a, w') => k a w'
    | (Raise e, w') => (Raise e, w')
    end.

Definition lift {A : Type} (r : res A) : M A := fun w => (r, w).

Notation "'run' x <- m ; k" := (bind m (fun x => k))
  (at level 10, x pattern, m at level 100, k at level 200, only parsing).

Definition uuid4 : M nat :=
  fun w => (Ok (next_uuid w), mkWorld (S (next_uuid w)) (rng w)).

(** [random_interval(bitgen, i)]: a number in [0..i]. *)
Definition random_interval (i : nat) : M nat :=
  fun w =>
    match rng w with
    | [] => (Ok 0, w)
    | r :: rs => (Ok (r mod (S i)), mkWorld (next_uuid w) rs)
    end.

(** ** Constants *)

Definition DECK_SIZE : Z := 40.
Definition LAND_COUNT : Z := 17.

(** ** Card model *)

(** A card is a dict with a ["card_type"] tag; the tag decides which other
    keys are present. *)
Inductive card : Type :=
| TargetCard (id : nat) (mana_value on_color_pips off_color_pips generic : Z)
| Land (id : nat) (is_on_color : bool)
| OtherCard (id : nat).

#[global] Instance card_eq_dec : EqDecision card.
Proof. solve_decision. Defined.

Definition card_type (c : card) : string :=
  match c with
  | TargetCard _ _ _ _ _ => "target_card"
  | Land _ _ => "land"
  | OtherCard _ => "other_card"
  end.

(** [card["on_color_pips"]], [card["off_color_pips"]], ... *)
Definition get_on_color_pips (c : card) : res Z :=
  match c with
  | TargetCard _ _ on _ _ => Ok on
  | _ => Raise (KeyError "on_color_pips")
  end.

Definition get_off_color_pips (c : card) : res Z :=
  match c with
  | TargetCard _ _ _ off _ => Ok off
  | _ => Raise (KeyError "off_color_pips")
  end.

Definition get_mana_value (c : card) : res Z :=
  match c with
  | TargetCard _ mv _ _ _ => Ok mv
  | _ => Raise (KeyError "mana_value")
  end.

Definition get_generic (c : card) : res Z :=
  match c with
  | TargetCard _ _ _ _ g => Ok g
  | _ => Raise (KeyError "generic")
  end.

(** [card["card_type"] == "land"] *)
Definition is_land (c : card) : bool :=
  match c with Land _ _ => true | _ => false end.

(** [card["card_type"] == "land" and card["is_on_color"]] *)
Definition is_on_color_land (c : card) : bool :=
  match c with Land _ b => b | _ => false end.

(** [card["card_type"] == "land" and not card["is_on_color"]] *)
Definition is_off_color_land (c : card) : bool :=
  match c with Land _ b => negb b | _ => false end.

(** [card["card_type"] == "other_card"] *)
Definition is_other_card (c : card) : bool :=
  match c with OtherCard _ => true | _ => false end.

Definition is_target_card (c : card) : bool :=
  match c with TargetCard _ _ _ _ _ => true | _ => false end.

(** [card.get("is_on_color", False)] *)
Definition dict_get_is_on_color (c : card) : bool :=
  match c with Land _ b => b | _ => false end.

(** [sum(1 for card in l if p(card))] *)
Definition count_if (p : card -> bool) (l : list card) : nat :=
  length (List.filter p l).

Definition get_target_card (mana_value on_color_pips off_color_pips generic : Z)
  : M card :=
  if (mana_value <? 1)%Z then
    throw (ValueError "get_target_card(): mana_value must be at least 1.")
  else if (on_color_pips <? 1)%Z then
    throw (ValueError "get_target_card(): on_color_pips must be a positive integer.")
  else if (off_color_pips <? 0)%Z then
    throw (ValueError "get_target_card(): off_color_pips must be a non-negative integer.")
  else if (generic <? 0)%Z then
    throw (ValueError "get_target_card(): generic must be a non-negative integer.")
  else if negb (on_color_pips + off_color_pips + generic =? mana_value)%Z then
    throw (ValueError "get_target_card(): The sum of on_color_pips, off_color_pips, and generic must equal mana_value.")
  else
    run id <- uuid4 ;
    ret (TargetCard id mana_value on_color_pips off_color_pips generic).

Definition get_land (is_on_color : bool) : M card :=
  run id <- uuid4 ;
  ret (Land id is_on_color).

Definition get_other_card : M card :=
  run id <- uuid4 ;
  ret (OtherCard id).

(** The split is the pair [(on_color, off_color)]. *)
Definition get_land_split (on_color_count : Z) : res (Z * Z) :=
  if (on_color_count <? 1)%Z then
    Raise (ValueError "get_land_split(): on_color_count must be a positive integer.")
  else
    Ok (on_color_count, (LAND_COUNT - on_color_count)%Z).

(** ** Deck builder *)

(** [for _ in range(n): deck.append(mk())] *)
Fixpoint append_n (n : nat) (mk : M card) (deck : list card) : M (list card) :=
  match n with
  | O => ret deck
  | S n' =>
      run c <- mk ;
      append_n n' mk (deck ++ [c])
  end.

(** [x[i], x[j] = x[j], x[i]] *)
Definition swap (i j : nat) (x : list card) : list card :=
  match x !! i, x !! j with
  | Some a, Some b => <[j:=a]> (<[i:=b]> x)
  | _, _ => x
  end.

(** The loop of [Generator.shuffle] on a Python list:
    [for i in reversed(range(1, n)): j = random_interval(i); swap]. *)
Fixpoint shuffle_from (i : nat) (x : list card) : M (list card) :=
  match i with
  | O => ret x
  | S i' =>
      run j <- random_interval i ;
      shuffle_from i' (swap i j x)
  end.

Definition shuffle (x : list card) : M (list card) :=
  shuffle_from (Nat.pred (length x)) x.

Definition get_deck (target_card : card) (on_color_land_count : Z)
  : M (list card) :=
  run on_color_pips <- lift (get_on_color_pips target_card) ;
  run off_color_pips <- lift (get_off_color_pips target_card) ;
  if (on_color_land_count <? on_color_pips)%Z then
    throw (ValueError "Invalid deck configuration: Not enough on-color lands")
  else if (LAND_COUNT - on_color_land_count <? off_color_pips)%Z then
    throw (ValueError "Invalid deck configuration: Not enough off-color lands")
  else
    run split <- lift (get_land_split on_color_land_count) ;
    run deck <- append_n (Z.to_nat (fst split)) (get_land true) [] ;
    run deck <- append_n (Z.to_nat (snd split)) (get_land false) deck ;
    run deck <- append_n (Z.to_nat (DECK_SIZE - LAND_COUNT - 1)) get_other_card deck ;
    if negb (Z.of_nat (length deck) =? DECK_SIZE - 1)%Z then
      throw (ValueError "Deck size mismatch")
    else
      shuffle deck.

(** [draw_n(deck, n)]: the first [n] cards and the rest. *)
Definition draw_n (deck : list card) (n : Z) : res (list card * list card) :=
  if (n <? 1)%Z then
    Raise (ValueError "Cannot draw less than 1 card.")
  else if (n >? Z.of_nat (length deck))%Z then
    Raise (ValueError "Cannot draw n cards from a deck of this size.")
  else
    Ok (take (Z.to_nat n) deck, drop (Z.to_nat n) deck).

(** ** List operations of Python used by [simulate] *)

(** [l.remove(x)]: drop the first element equal to [x]. *)
Fixpoint list_remove (x : card) (l : list card) : res (list card) :=
  match l with
  | [] => Raise (ValueError "list.remove(x): x not in list")
  | y :: l' =>
      if decide (y = x) then Ok l'
      else try r <- list_remove x l' ; Ok (y :: r)
  end.

(** [next(card for card in l if p(card))] *)
Definition next_card (p : card -> bool) (l : list card) : res card :=
  match List.find p l with
  | Some c => Ok c
  | None => Raise StopIteration
  end.

(** [l[0]] *)
Definition index0 (l : list card) : res card :=
  match l with
  | c :: _ => Ok c
  | [] => Raise (IndexError "list index out of range")
  end.

(** ** Mulligan resolver *)

(** The body shared by the two mulligan branches: the target card leaves the
    hand, the rest goes under the deck, six cards are drawn, the target card
    comes back. *)
Definition mulligan (target_card : card) (hand deck : list card)
  : res (list card * list card) :=
  try hand <- list_remove target_card hand ;
  let deck := deck ++ hand in
  try (hand, deck) <- draw_n deck 6 ;
  Ok (hand ++ [target_card], deck).

Fixpoint mulligan_loop (fuel : nat) (target_card : card)
    (mulligan_count : nat) (hand deck : list card)
  : option (res (list card * list card * nat)) :=
  match fuel with
  | O => None
  | S fuel' =>
      let on_color_land_count := count_if is_on_color_land hand in
      let off_color_land_count := count_if is_off_color_land hand in
      if ((mulligan_count =? 0) || (mulligan_count =? 1))
         && (on_color_land_count =? 0) then
        match mulligan target_card hand deck with
        | Raise e => Some (Raise e)
        | Ok (hand, deck) =>
            mulligan_loop fuel' target_card (S mulligan_count) hand deck
        end
      else if (mulligan_count =? 2)
              && (on_color_land_count + off_color_land_count =? 0) then
        match mulligan target_card hand deck with
        | Raise e => Some (Raise e)
        | Ok (hand, deck) =>
            mulligan_loop fuel' target_card (S mulligan_count) hand deck
        end
      else if mulligan_count =? 3 then
        Some (Ok (hand, deck, mulligan_count))
      else
        Some (Ok (hand, deck, mulligan_count))
  end.

(** One pass of the trim loop that finds a card matching [p]. *)
Definition return_one (p : card -> bool) (to_return hand : list card)
  : res (list card * list card) :=
  try return_card <- next_card p hand ;
  let to_return := to_return ++ [return_card] in
  try hand <- list_remove return_card hand ;
  Ok (to_return, hand).

(** The trim loop.  When no branch applies the Python loop starts over with
    nothing changed; here that pass only burns fuel. *)
Fixpoint trim_loop (fuel : nat) (mulligan_count : nat)
    (to_return hand : list card)
  : option (res (list card * list card)) :=
  match fuel with
  | O => None
  | S fuel' =>
      if mulligan_count =? 0 then Some (Ok (to_return, hand))
      else if length to_return =? mulligan_count then
        Some (Ok (to_return, hand))
      else if existsb is_other_card hand then
        match return_one is_other_card to_return hand with
        | Raise e => Some (Raise e)
        | Ok (to_return, hand) => trim_loop fuel' mulligan_count to_return hand
        end
      else if existsb is_off_color_land hand then
        match return_one is_off_color_land to_return hand with
        | Raise e => Some (Raise e)
        | Ok (to_return, hand) => trim_loop fuel' mulligan_count to_return hand
        end
      else if existsb is_on_color_land hand then
        match return_one is_on_color_land to_return hand with
        | Raise e => Some (Raise e)
        | Ok (to_return, hand) => trim_loop fuel' mulligan_count to_return hand
        end
      else trim_loop fuel' mulligan_count to_return hand
  end.

(** ** Turn engine *)

Record game : Type := mkGame {
  g_hand : list card;
  g_deck : list card;
  g_board : list card;
  g_turn : nat
}.

(** The draw step.  [None] is the [break] of the turn loop. *)
Definition draw_step (g : game) : res (option game) :=
  if (0 <? length (g_deck g)) && (1 <? g_turn g) then
    try (drawn_card, deck) <- draw_n (g_deck g) 1 ;
    try c <- index0 drawn_card ;
    Ok (Some (mkGame (g_hand g ++ [c]) deck (g_board g) (g_turn g)))
  else if length (g_deck g) =? 0 then Ok None
  else Ok (Some g).

(** [land = next(...); board.append(land); hand.remove(land)] *)
Definition play_land (p : card -> bool) (g : game) : res game :=
  try land <- next_card p (g_hand g) ;
  let board := g_board g ++ [land] in
  try hand <- list_remove land (g_hand g) ;
  Ok (mkGame hand (g_deck g) board (g_turn g)).

(** The land drop of one turn; the second component is [land_drop]. *)
Definition land_drop_step (target_card : card) (g : game)
  : res (game * bool) :=
  let land_drop := false in
  let hand := g_hand g in
  let board := g_board g in
  let have_lands := existsb is_land hand in
  let hand_has_on_color_land := existsb is_on_color_land hand in
  let hand_has_off_color_land := existsb is_off_color_land hand in
  let board_on_color_count := count_if dict_get_is_on_color board in
  let board_off_color_count :=
    count_if (fun c => negb (dict_get_is_on_color c)) board in
  try on_color_req <- get_on_color_pips target_card ;
  try off_color_req <- get_off_color_pips target_card ;
  if have_lands then
    if hand_has_on_color_land
       && (Z.of_nat board_on_color_count <? on_color_req)%Z
       && negb land_drop then
      try g' <- play_land is_on_color_land g ; Ok (g', true)
    else if hand_has_off_color_land
            && (Z.of_nat board_off_color_count <? off_color_req)%Z
            && negb land_drop then
      try g' <- play_land is_off_color_land g ; Ok (g', true)
    else if existsb is_land hand && negb land_drop then
      try g' <- play_land is_land g ; Ok (g', true)
    else Ok (g, land_drop)
  else Ok (g, false).

(** The cast check, with Python's short-circuit [and]. *)
Definition can_cast (target_card : card) (board : list card) : res bool :=
  let board_on_color_count := count_if dict_get_is_on_color board in
  let board_off_color_count :=
    count_if (fun c => negb (dict_get_is_on_color c)) board in
  try on_color_req <- get_on_color_pips target_card ;
  try off_color_req <- get_off_color_pips target_card ;
  if (Z.of_nat board_on_color_count >=? on_color_req)%Z then
    if (Z.of_nat board_off_color_count >=? off_color_req)%Z then
      try mana_value <- get_mana_value target_card ;
      Ok (Z.of_nat (board_on_color_count + board_off_color_count)
          >=? mana_value)%Z
    else Ok false
  else Ok false.

(** Draw step and land drop of one turn: the state the cast check sees. *)
Definition play_turn (target_card : card) (g : game) : res (option game) :=
  try drawn <- draw_step g ;
  match drawn with
  | None => Ok None
  | Some g1 =>
      (* [on_color_req] and [off_color_req] are read before the land drop *)
      try (g2, _) <- land_drop_step target_card g1 ;
      Ok (Some g2)
  end.

(** [turn += 1] *)
Definition next_turn (g : game) : game :=
  mkGame (g_hand g) (g_deck g) (g_board g) (S (g_turn g)).

(** The turn loop: [Some t] is a cast on turn [t], [None] the exit through
    [break]. *)
Fixpoint turn_loop (fuel : nat) (target_card : card) (g : game)
  : option (res (option nat)) :=
  match fuel with
  | O => None
  | S fuel' =>
      match play_turn target_card g with
      | Raise e => Some (Raise e)
      | Ok None => Some (Ok None)
      | Ok (Some g') =>
          match can_cast target_card (g_board g') with
          | Raise e => Some (Raise e)
          | Ok true => Some (Ok (Some (g_turn g')))
          | Ok false => turn_loop fuel' target_card (next_turn g')
          end
      end
  end.

(** ** One trial *)

Record trial : Type := mkTrial {
  cast_turn : option nat;
  t_mana_value : Z;
  t_on_color_pips : Z;
  t_off_color_pips : Z;
  t_generic : Z;
  mulligan_count : nat
}.

(** [np.int16(x)] of a Python integer: out of range is an [OverflowError]
    (the conversion rule of NumPy 2). *)
Definition np_int16 (x : Z) : res Z :=
  if ((-32768 <=? x) && (x <=? 32767))%Z then Ok x
  else Raise (OverflowError "Python integer out of bounds for int16").

(** The dict returned by [simulate]; [cast_turn] is [None] on the exit
    through [break]. *)
Definition make_result (target_card : card) (cast_turn : option nat)
    (mulligan_count : nat) : res trial :=
  try mv <- get_mana_value target_card ;
  try mv <- np_int16 mv ;
  try on <- get_on_color_pips target_card ;
  try on <- np_int16 on ;
  try off <- get_off_color_pips target_card ;
  try off <- np_int16 off ;
  try g <- get_generic target_card ;
  try g <- np_int16 g ;
  Ok (mkTrial cast_turn mv on off g mulligan_count).

(** Lines 288-323: validation, target card, deck, opening hand. *)
Definition simulate_deal (mana_value on_color_pips off_color_pips
    on_color_land_count : Z) : M (card * list card * list card) :=
  if (mana_value <? 1)%Z then
    throw (ValueError "Mana value must be at least 1.")
  else if (on_color_pips <? 0)%Z then
    throw (ValueError "On-color pips must be a non-negative integer.")
  else if (off_color_pips <? 0)%Z then
    throw (ValueError "Off-color pips must be a non-negative integer.")
  else if (on_color_land_count <? 1)%Z then
    throw (ValueError "On-color land count must be at least 1.")
  else if (on_color_land_count >? LAND_COUNT)%Z then
    throw (ValueError "On-color land count must be at most LAND_COUNT.")
  else
    let generic := (mana_value - on_color_pips - off_color_pips)%Z in
    if (generic <? 0)%Z then
      throw (ValueError "Mana value is too low for the given pips.")
    else if negb (generic + on_color_pips + off_color_pips =? mana_value)%Z then
      throw (ValueError "Mana value mismatch")
    else
      run target_card <-
        get_target_card mana_value on_color_pips off_color_pips generic ;
      run deck <- get_deck target_card on_color_land_count ;
      run (hand, deck) <- lift (draw_n deck 6) ;
      ret (target_card, hand ++ [target_card], deck).

(** Sequencing of the fuelled loops. *)
Definition loop_bind {A B : Type} (m : option (res A))
    (k : A -> option (res B)) : option (res B) :=
  match m with
  | None => None
  | Some (Raise e) => Some (Raise e)
  | Some (Ok a) => k a
  end.

Notation "'loop' x <- m ; k" := (loop_bind m (fun x => k))
  (at level 10, x pattern, m at level 100, k at level 200, only parsing).

(** Lines 330-426: the mulligan loop, the trim loop, the return of the
    trimmed cards to the deck and the two size checks. *)
Definition simulate_keep (fuel : nat) (target_card : card)
    (hand deck : list card) : option (res (list card * list card * nat)) :=
  loop (hand, deck, mulligan_count) <-
    mulligan_loop fuel target_card 0 hand deck ;
  loop (to_return, hand) <- trim_loop fuel mulligan_count [] hand ;
  let deck := deck ++ to_return in
  if negb (Z.of_nat (length hand) =? 7 - Z.of_nat mulligan_count)%Z then
    Some (Raise (ValueError "Hand size mismatch"))
  else if negb (Z.of_nat (length deck)
                =? DECK_SIZE - Z.of_nat (length hand))%Z then
    Some (Raise (ValueError "Deck size mismatch"))
  else Some (Ok (hand, deck, mulligan_count)).

(** Lines 436-550: the turn loop from turn 1 with an empty board, and the
    result dict. *)
Definition simulate_play (fuel : nat) (target_card : card)
    (hand deck : list card) (mulligan_count : nat) : option (res trial) :=
  loop cast_turn <- turn_loop fuel target_card (mkGame hand deck [] 1) ;
  Some (make_result target_card cast_turn mulligan_count).

Definition simulate (fuel : nat) (mana_value on_color_pips off_color_pips
    on_color_land_count : Z) (w : World) : option (res trial * World) :=
  match simulate_deal mana_value on_color_pips off_color_pips
          on_color_land_count w with
  | (Raise e, w') => Some (Raise e, w')
  | (Ok (target_card, hand, deck), w') =>
      match
        (loop (hand, deck, mulligan_count) <-
           simulate_keep fuel target_card hand deck ;
         simulate_play fuel target_card hand deck mulligan_count)
      with
      | None => None
      | Some r => Some (r, w')
      end
  end.

(** Two worlds for the examples: one whose generator only yields 0, one
    with forty raw numbers. *)
Definition w0 : World := mkWorld 0 [].
Definition w1 : World := mkWorld 0 [3;1;4;1;5;9;2;6;5;3;5;8;9;7;9;3;2;3;8;4;6;2;6;4;3;3;8;3;2;7;9;5;0;2;8;8;4;1;9;7].


(** ** Trial orchestrator *)

Module Orchestrator.

Import QArith_base.

(** Floating-point values are modelled by exact rationals: every value
    that is averaged is a small natural number, and the rounding of the
    final division is not modelled. *)
Definition float_of_nat (n : nat) : Q := inject_Z (Z.of_nat n).

Record aggregate : Type := mkAggregate {
  a_mana_value : Z;
  a_on_color_pips : Z;
  a_off_color_pips : Z;
  a_on_color_land_count : Z;
  a_off_color_land_count : Z;
  iterations : Z;
  average_cast_turn : option Q;
  average_mulligan_count : option Q
}.

(** [worker]: any exception of the trial becomes [None]. *)
Definition worker (fuel : nat) (mana_value on_color_pips off_color_pips
    on_color_land_count : Z) (w : World) : option (option trial * World) :=
  match simulate fuel mana_value on_color_pips off_color_pips
          on_color_land_count w with
  | None => None
  | Some (Ok r, w') => Some (Some r, w')
  | Some (Raise _, w') => Some (None, w')
  end.

(** The [num_simulations] futures, here run one after the other on the
    shared generator. *)
Fixpoint run_workers (fuel : nat) (mana_value on_color_pips off_color_pips
    on_color_land_count : Z) (n : nat) (w : World)
  : option (list (option trial) * World) :=
  match n with
  | O => Some ([], w)
  | S n' =>
      match worker fuel mana_value on_color_pips off_color_pips
              on_color_land_count w with
      | None => None
      | Some (r, w') =>
          match run_workers fuel mana_value on_color_pips off_color_pips
                  on_color_land_count n' w' with
          | None => None
          | Some (rs, w'') => Some (r :: rs, w'')
          end
      end
  end.

(** [for future in as_completed(futures)]: keep what is not [None]. *)
Fixpoint collect (fut_results : list (option trial)) : list trial :=
  match fut_results with
  | [] => []
  | Some r :: rest => r :: collect rest
  | None :: rest => collect rest
  end.

(** The columns [df["cast_turn"]] and [df["mulligan_count"]]; a [None]
    cell is a missing value. *)
Definition column_cast_turn (results : list trial) : list (option Q) :=
  map (fun r => option_map float_of_nat (cast_turn r)) results.

Definition column_mulligan_count (results : list trial) : list (option Q) :=
  map (fun r => Some (float_of_nat (mulligan_count r))) results.

Fixpoint dropna (col : list (option Q)) : list Q :=
  match col with
  | [] => []
  | Some x :: rest => x :: dropna rest
  | None :: rest => dropna rest
  end.

Definition Qsum (l : list Q) : Q := fold_right Qplus (inject_Z 0) l.

(** [Series.mean()] with its default [skipna=True]: missing values are left
    out; [None] is NaN, the mean of no value. *)
Definition series_mean (col : list (option Q)) : option Q :=
  match dropna col with
  | [] => None
  | present =>
      Some (Qdiv (Qsum present) (inject_Z (Z.of_nat (length present))))
  end.

(** Lines 650-663: the data frame and the returned dict. *)
Definition summarize (mana_value on_color_pips off_color_pips
    on_color_land_count num_simulations : Z) (results : list trial)
  : option aggregate :=
  if 0 <? length results then
    Some (mkAggregate mana_value on_color_pips off_color_pips
            on_color_land_count (LAND_COUNT - on_color_land_count)
            num_simulations
            (series_mean (column_cast_turn results))
            (series_mean (column_mulligan_count results)))
  else None.

Definition run_simulations (fuel : nat) (mana_value on_color_pips
    off_color_pips on_color_land_count num_simulations : Z) (w : World)
  : option (res (option aggregate) * World) :=
  if (mana_value <? 1)%Z then
    Some (Raise (ValueError "Mana value must be at least 1."), w)
  else if (on_color_pips <? 1)%Z then
    Some (Raise (ValueError "On-color pips must be a positive integer."), w)
  else if (off_color_pips <? 0)%Z then
    Some (Raise (ValueError "Off-color pips must be a non-negative integer."), w)
  else if (on_color_land_count <? 1)%Z then
    Some (Raise (ValueError "On-color land count must be at least 1."), w)
  else if (on_color_land_count >? LAND_COUNT)%Z then
    Some (Raise (ValueError "On-color land count must be at most LAND_COUNT."), w)
  else if (num_simulations <? 1)%Z then
    Some (Raise (ValueError "Number of simulations must be at least 1."), w)
  else if (on_color_pips + off_color_pips >? mana_value)%Z then
    Some (Raise (ValueError "The sum of on_color_pips and off_color_pips must not exceed mana_value."), w)
  else
    match run_workers fuel mana_value on_color_pips off_color_pips
            on_color_land_count (Z.to_nat num_simulations) w with
    | None => None
    | Some (fut_results, w') =>
        Some (Ok (summarize mana_value on_color_pips off_color_pips
                    on_color_land_count num_simulations
                    (collect fut_results)), w')
    end.

(** The two averages in the words of the specification: the trials that
    were not discarded, those among them that cast the card, and the plain
    mean of a number attached to each trial of a list. *)
Definition non_discarded (fut_results : list (option trial)) : list trial :=
  flat_map (fun f => match f with Some r => [r] | None => [] end) fut_results.

Definition was_cast (r : trial) : bool :=
  match cast_turn r with Some _ => true | None => false end.

Definition turn_of (r : trial) : Q :=
  match cast_turn r with Some t => float_of_nat t | None => inject_Z 0 end.

Definition mean_over (f : trial -> Q) (rs : list trial) : option Q :=
  match rs with
  | [] => None
  | _ => Some (Qdiv (Qsum (map f rs)) (inject_Z (Z.of_nat (length rs))))
  end.

End Orchestrator.

(** ** Auxiliary notions used in the statements *)

Definition no_target (l : list card) : Prop :=
  Forall (fun c => is_target_card c = false) l.

(** The inputs that [simulate] does not reject. *)
Definition valid_input (mana_value on_color_pips off_color_pips
    on_color_land_count : Z) : Prop :=
  (1 <= on_color_pips /\ 0 <= off_color_pips
   /\ on_color_pips + off_color_pips <= mana_value
   /\ on_color_pips <= on_color_land_count
   /\ off_color_pips <= LAND_COUNT - on_color_land_count)%Z.

(** The state at the start of the turn that comes [i] turns after [g] (the
    cast checks left aside), and the state the cast check of that turn
    sees. *)
Fixpoint turn_start (i : nat) (target_card : card) (g : game) : option game :=
  match i with
  | O => Some g
  | S i' =>
      match turn_start i' target_card g with
      | Some gs =>
          match play_turn target_card gs with
          | Ok (Some g') => Some (next_turn g')
          | _ => None
          end
      | None => None
      end
  end.

Definition turn_state (i : nat) (target_card : card) (g : game) : option game :=
  match turn_start i target_card g with
  | Some gs =>
      match play_turn target_card gs with
      | Ok (Some g') => Some g'
      | _ => None
      end
  | None => None
  end.

Definition board_on_color (board : list card) : nat :=
  count_if dict_get_is_on_color board.

Definition board_off_color (board : list card) : nat :=
  count_if (fun c => negb (dict_get_is_on_color c)) board.

(** The three-part cast condition of the specification. *)
Definition castable (mana_value on_color_pips off_color_pips : Z)
    (board : list card) : Prop :=
  (on_color_pips <= Z.of_nat (board_on_color board)
   /\ off_color_pips <= Z.of_nat (board_off_color board)
   /\ mana_value
      <= Z.of_nat (board_on_color board + board_off_color board))%Z.

(** ** Notions used in the proofs *)

Definition on_color_lands (l : list card) : Prop :=
  Forall (fun c => exists id, c = Land id true) l.

Definition off_color_lands (l : list card) : Prop :=
  Forall (fun c => exists id, c = Land id false) l.

Definition other_cards (l : list card) : Prop :=
  Forall (fun c => exists id, c = OtherCard id) l.

(** The two configuration errors of the Deck Builder. *)
Definition deck_configuration_error (e : exn) : Prop :=
  e = ValueError "Invalid deck configuration: Not enough on-color lands"
  \/ e = ValueError "Invalid deck configuration: Not enough off-color lands".

(** The target card is in the hand and is the only target card there. *)
Definition holds_target (target_card : card) (hand : list card) : Prop :=
  is_target_card target_card = true
  /\ In target_card hand
  /\ count_if is_target_card hand = 1.

(** The state between the mulligan loop and the trim loop. *)
Definition kept (tc : card) (hand deck : list card) : Prop :=
  holds_target tc hand /\ length hand = 7
  /\ no_target deck /\ length deck = 33.

(** What one turn does to the state, with the cards drawn and played. *)
Definition turn_played (g g' : game) (drawn played : list card) : Prop :=
  g_deck g = drawn ++ g_deck g'
  /\ length drawn = (if 1 <? g_turn g then 1 else 0)
  /\ g_deck g <> []
  /\ g_hand g ++ drawn ≡ₚ played ++ g_hand g'
  /\ g_board g' = g_board g ++ played
  /\ length played <= 1
  /\ Forall (fun c => is_land c = true) played
  /\ g_turn g' = g_turn g.

(** A bound on the turns still to come: one per library card, and the
    turns up to turn 2, which draw nothing. *)
Definition turns_left (g : game) : nat :=
  length (g_deck g) + (2 - g_turn g).

(** The target card is held in the hand and is neither in the library nor
    on the board. *)
Definition game_inv (tc : card) (g : game) : Prop :=
  holds_target tc (g_hand g)
  /\ no_target (g_deck g)
  /\ no_target (g_board g).

(** Concrete cards and states on which the statements are exercised. *)
Definition sample_target : card := TargetCard 0 3 2 1 0.

Definition sample_game : game :=
  mkGame [Land 1 true; Land 2 false; OtherCard 3; sample_target]
         [OtherCard 4; Land 5 true; OtherCard 6; OtherCard 7]
         [] 1.

Definition sample_drawn : list card :=
  [OtherCard 1; OtherCard 2; Land 3 false; OtherCard 4; OtherCard 5;
   OtherCard 6].

Definition sample_library : list card :=
  replicate 20 (OtherCard 7) ++ replicate 13 (Land 8 true).

(** ** Parameter sweep *)

Module Sweep.

Import Orchestrator.

(** [range(a, b)] *)
Definition range (a b : Z) : list Z :=
  map (fun i => (a + Z.of_nat i)%Z) (seq 0 (Z.to_nat (b - a))).

(** A [for] loop whose body may append rows to [collated_data], uses the
    world, and may raise, which ends the loop. *)
Fixpoint for_each {A : Type} (l : list A)
    (body : A -> list aggregate -> World
            -> option (res (list aggregate) * World))
    (collated_data : list aggregate) (w : World)
  : option (res (list aggregate) * World) :=
  match l with
  | [] => Some (Ok collated_data, w)
  | x :: l' =>
      match body x collated_data w with
      | None => None
      | Some (Raise e, w') => Some (Raise e, w')
      | Some (Ok collated_data', w') => for_each l' body collated_data' w'
      end
  end.

(** [if result is not None: collated_data.append(result)] *)
Definition append_result (collated_data : list aggregate)
    (result : option aggregate) : list aggregate :=
  match result with
  | Some r => collated_data ++ [r]
  | None => collated_data
  end.

(** The call of the branch without gold cards: an exception of
    [run_simulations] is not caught. *)
Definition sweep_mono (fuel : nat) (iterations on_color_land_count
    mana_value on_color_pips : Z) (collated_data : list aggregate) (w : World)
  : option (res (list aggregate) * World) :=
  let off_color_pips := 0%Z in
  match run_simulations fuel mana_value on_color_pips off_color_pips
          on_color_land_count iterations w with
  | None => None
  | Some (Raise e, w') => Some (Raise e, w')
  | Some (Ok result, w') => Some (Ok (append_result collated_data result), w')
  end.

(** The body of the innermost loop of the branch with gold cards: the two
    [continue] tests, then the call inside [try ... except Exception]. *)
Definition sweep_gold (fuel : nat) (iterations on_color_land_count
    mana_value on_color_pips off_color_pips : Z)
    (collated_data : list aggregate) (w : World)
  : option (res (list aggregate) * World) :=
  if ((on_color_pips =? 0) && (off_color_pips =? 0))%Z then
    Some (Ok collated_data, w)
  else if (on_color_pips + off_color_pips >? mana_value)%Z then
    Some (Ok collated_data, w)
  else
    match run_simulations fuel mana_value on_color_pips off_color_pips
            on_color_land_count iterations w with
    | None => None
    | Some (Raise _, w') => Some (Ok (append_result collated_data None), w')
    | Some (Ok result, w') =>
        Some (Ok (append_result collated_data result), w')
    end.

(** [main]: the rows of [collated_data], which are then written to the CSV
    file (the writing and the printing are not modelled). *)
Definition main (fuel : nat) (iterations_per_simulation min_mana_value
    max_mana_value : Z) (include_gold_cards : bool) (w : World)
  : option (res (list aggregate) * World) :=
  for_each (range 1 (LAND_COUNT + 1))
    (fun on_color_land_count =>
       for_each (range min_mana_value (max_mana_value + 1))
         (fun mana_value =>
            if negb include_gold_cards then
              for_each (range 1 (mana_value + 1))
                (fun on_color_pips =>
                   sweep_mono fuel iterations_per_simulation
                     on_color_land_count mana_value on_color_pips)
            else
              for_each (range 1 (mana_value + 1))
                (fun on_color_pips =>
                   for_each (range 0 (mana_value - on_color_pips + 1))
                     (fun off_color_pips =>
                        sweep_gold fuel iterations_per_simulation
                          on_color_land_count mana_value on_color_pips
                          off_color_pips))))
    [] w.

End Sweep.

(** [card["id"]] *)
Definition card_id (c : card) : nat :=
  match c with
  | TargetCard id _ _ _ _ => id
  | Land id _ => id
  | OtherCard id => id
  end.

(** The cards set aside by the trim loop come in priority order: filler
    cards, then off-color lands, then on-color lands; and a lower priority
    is only reached when the hand has run out of the higher ones. *)
Definition trim_priority (to_return hand : list card) : Prop :=
  exists fillers offs ons,
    to_return = fillers ++ offs ++ ons
    /\ Forall (fun c => is_other_card c = true) fillers
    /\ Forall (fun c => is_off_color_land c = true) offs
    /\ Forall (fun c => is_on_color_land c = true) ons
    /\ (offs ++ ons <> [] -> existsb is_other_card hand = false)
    /\ (ons <> [] -> existsb is_off_color_land hand = false).

(** ** Notions used for the orchestrator *)

Module OrchestratorNotions.

Import QArith_base.

(** The arguments that [run_simulations] rejects at once. *)
Definition bad_arguments (mana_value on_color_pips off_color_pips
    on_color_land_count num_simulations : Z) : Prop :=
  (mana_value < 1 \/ on_color_pips < 1 \/ off_color_pips < 0
   \/ on_color_land_count < 1 \/ LAND_COUNT < on_color_land_count
   \/ num_simulations < 1
   \/ mana_value < on_color_pips + off_color_pips)%Z.

(** Equality of two means as numbers; NaN only equals NaN. *)
Definition same_mean (a b : option Q) : Prop :=
  match a, b with
  | Some x, Some y => Qeq x y
  | None, None => True
  | _, _ => False
  end.

End OrchestratorNotions.

(** ** Notions used for the sweep *)

Module SweepNotions.

Import Orchestrator.

(** What every row of the sweep satisfies. *)
Definition row_ok (iterations_per_simulation min_mana_value max_mana_value : Z)
    (include_gold_cards : bool) (a : aggregate) : Prop :=
  (1 <= a_on_color_land_count a <= 17
   /\ min_mana_value <= a_mana_value a <= max_mana_value
   /\ 1 <= a_on_color_pips a
   /\ 0 <= a_off_color_pips a
   /\ a_on_color_pips a + a_off_color_pips a <= a_mana_value a
   /\ a_on_color_pips a <= a_on_color_land_count a
   /\ a_off_color_pips a <= a_off_color_land_count a
   /\ a_off_color_land_count a = 17 - a_on_color_land_count a
   /\ iterations a = iterations_per_simulation)%Z
  /\ (include_gold_cards = false -> a_off_color_pips a = 0%Z).

End SweepNotions.

(** * Properties *)

(** ** The world monad *)

Section AppendN.

Variable mk : M card.
Variable P : card -> Prop.
Hypothesis mk_spec :
  forall w, exists c,
    mk w = (Ok c, mkWorld (S (next_uuid w)) (rng w)) /\ P c.

Lemma append_n_spec (n : nat) :
  forall deck w, exists cs,
    append_n n mk deck w
    = (Ok (deck ++ cs), mkWorld (n + next_uuid w) (rng w))
    /\ length cs = n /\ Forall P cs.
Proof.
  induction n as [|n IH]; intros deck w; simpl.
  - exists []. rewrite app_nil_r. destruct w; auto.
  - destruct (mk_spec w) as (c & Hc & HP).
    unfold bind. rewrite Hc.
    destruct (IH (deck ++ [c]) (mkWorld (S (next_uuid w)) (rng w)))
      as (cs & Hcs & Hlen & HF).
    exists (c :: cs). rewrite Hcs. simpl.
    rewrite <- app_assoc. simpl.
    repeat split; auto.
    f_equal. f_equal. lia.
Qed.

End AppendN.

Lemma get_land_spec (b : bool) (w : World) :
  exists c, get_land b w = (Ok c, mkWorld (S (next_uuid w)) (rng w))
            /\ (exists id, c = Land id b).
Proof. eexists. split; [reflexivity | eauto]. Qed.

Lemma get_other_card_spec (w : World) :
  exists c, get_other_card w = (Ok c, mkWorld (S (next_uuid w)) (rng w))
            /\ (exists id, c = OtherCard id).
Proof. eexists. split; [reflexivity | eauto]. Qed.

(** ** Counting *)

Lemma count_if_app (p : card -> bool) (l1 l2 : list card) :
  count_if p (l1 ++ l2) = count_if p l1 + count_if p l2.
Proof. unfold count_if. now rewrite List.filter_app, length_app. Qed.

Lemma count_if_cons (p : card -> bool) (c : card) (l : list card) :
  count_if p (c :: l) = (if p c then 1 else 0) + count_if p l.
Proof. unfold count_if. simpl. destruct (p c); reflexivity. Qed.

Lemma count_if_perm (p : card -> bool) (l1 l2 : list card) :
  l1 ≡ₚ l2 -> count_if p l1 = count_if p l2.
Proof.
  induction 1 as [|c l1 l2 _ IH|c d l|l1 l2 l3 _ IH1 _ IH2].
  - reflexivity.
  - rewrite !count_if_cons. lia.
  - rewrite !count_if_cons. lia.
  - congruence.
Qed.

Lemma count_if_all (p : card -> bool) (l : list card) :
  Forall (fun c => p c = true) l -> count_if p l = length l.
Proof.
  induction 1 as [|c l Hc _ IH]; [reflexivity|].
  rewrite count_if_cons, Hc, IH. reflexivity.
Qed.

Lemma count_if_none (p : card -> bool) (l : list card) :
  Forall (fun c => p c = false) l -> count_if p l = 0.
Proof.
  induction 1 as [|c l Hc _ IH]; [reflexivity|].
  rewrite count_if_cons, Hc, IH. reflexivity.
Qed.

Lemma count_if_zero (p : card -> bool) (l : list card) :
  count_if p l = 0 -> Forall (fun c => p c = false) l.
Proof.
  induction l as [|c l IH]; [constructor|].
  rewrite count_if_cons. destruct (p c) eqn:E; [discriminate|].
  intros H. constructor; auto.
Qed.

(** ** The shuffle *)

Lemma swap_perm (i j : nat) (x : list card) : swap i j x ≡ₚ x.
Proof.
  unfold swap.
  destruct (x !! i) as [a|] eqn:Hi; [|reflexivity].
  destruct (x !! j) as [b|] eqn:Hj; [|reflexivity].
  now apply Permutation_insert_swap.
Qed.

Lemma random_interval_spec (i : nat) (w : World) :
  exists j w', random_interval i w = (Ok j, w')
               /\ j <= i /\ next_uuid w' = next_uuid w.
Proof.
  unfold random_interval. destruct (rng w) as [|r rs].
  - exists 0, w. repeat split; lia.
  - eexists _, _. split; [reflexivity|]. split; [|reflexivity].
    pose proof (Nat.mod_upper_bound r (S i)). lia.
Qed.

Lemma shuffle_from_spec (i : nat) :
  forall x w, exists y w',
    shuffle_from i x w = (Ok y, w')
    /\ y ≡ₚ x /\ next_uuid w' = next_uuid w.
Proof.
  induction i as [|i IH]; intros x w; simpl.
  - exists x, w. auto.
  - destruct (random_interval_spec (S i) w) as (j & w1 & Hj & _ & Hu).
    unfold bind. rewrite Hj.
    destruct (IH (swap (S i) j x) w1) as (y & w' & Hy & Hp & Hu').
    exists y, w'. split; [exact Hy|]. split.
    + rewrite Hp. apply swap_perm.
    + congruence.
Qed.

Lemma shuffle_spec (x : list card) (w : World) :
  exists y w', shuffle x w = (Ok y, w')
               /\ y ≡ₚ x /\ next_uuid w' = next_uuid w.
Proof. apply shuffle_from_spec. Qed.

(** ** Deck builder *)

(** Past the two feasibility checks and the check of [get_land_split], the
    deck is built from three runs of cards and then measured. *)
Lemma get_deck_built (id : nat) (mv on off g n : Z) (w : World) :
  (on <= n)%Z -> (off <= LAND_COUNT - n)%Z -> (1 <= n)%Z ->
  exists ons offs others,
    on_color_lands ons /\ off_color_lands offs /\ other_cards others
    /\ length ons = Z.to_nat n
    /\ length offs = Z.to_nat (LAND_COUNT - n)
    /\ length others = 22
    /\ get_deck (TargetCard id mv on off g) n w
       = (if negb (Z.of_nat (length (ons ++ offs ++ others))
                   =? DECK_SIZE - 1)%Z
          then throw (ValueError "Deck size mismatch")
          else shuffle (ons ++ offs ++ others))
           (mkWorld (length (ons ++ offs ++ others) + next_uuid w) (rng w)).
Proof.
  intros Hon Hoff Hn.
  cbv beta iota delta
    [get_deck bind lift get_on_color_pips get_off_color_pips get_land_split].
  destruct (Z.ltb_spec n on) as [?|_]; [lia|].
  destruct (Z.ltb_spec (LAND_COUNT - n) off) as [?|_]; [lia|].
  destruct (Z.ltb_spec n 1) as [?|_]; [lia|].
  cbn [fst snd].
  destruct (append_n_spec (get_land true) _ (get_land_spec true)
              (Z.to_nat n) [] w) as (ons & -> & Hl1 & HF1).
  match goal with
  | |- context [append_n ?k (get_land false) ?d ?v] =>
      destruct (append_n_spec (get_land false) _ (get_land_spec false) k d v)
        as (offs & -> & Hl2 & HF2)
  end.
  match goal with
  | |- context [append_n ?k get_other_card ?d ?v] =>
      destruct (append_n_spec get_other_card _ get_other_card_spec k d v)
        as (others & -> & Hl3 & HF3)
  end.
  exists ons, offs, others.
  change (Z.to_nat (DECK_SIZE - LAND_COUNT - 1)) with 22 in *.
  rewrite app_nil_l, <- app_assoc.
  repeat (split; [assumption|]).
  cbn [next_uuid rng].
  replace (22 + (Z.to_nat (LAND_COUNT - n) + (Z.to_nat n + next_uuid w)))
    with (length (ons ++ offs ++ others) + next_uuid w)
    by (rewrite !length_app; lia).
  reflexivity.
Qed.

Lemma on_color_lands_counts (l : list card) :
  on_color_lands l ->
  count_if is_on_color_land l = length l
  /\ count_if is_off_color_land l = 0
  /\ count_if is_other_card l = 0
  /\ no_target l.
Proof.
  intros H. repeat split.
  - apply count_if_all. eapply Forall_impl; [exact H|].
    intros c [i ->]; reflexivity.
  - apply count_if_none. eapply Forall_impl; [exact H|].
    intros c [i ->]; reflexivity.
  - apply count_if_none. eapply Forall_impl; [exact H|].
    intros c [i ->]; reflexivity.
  - eapply Forall_impl; [exact H|]. intros c [i ->]; reflexivity.
Qed.

Lemma off_color_lands_counts (l : list card) :
  off_color_lands l ->
  count_if is_on_color_land l = 0
  /\ count_if is_off_color_land l = length l
  /\ count_if is_other_card l = 0
  /\ no_target l.
Proof.
  intros H. repeat split.
  - apply count_if_none. eapply Forall_impl; [exact H|].
    intros c [i ->]; reflexivity.
  - apply count_if_all. eapply Forall_impl; [exact H|].
    intros c [i ->]; reflexivity.
  - apply count_if_none. eapply Forall_impl; [exact H|].
    intros c [i ->]; reflexivity.
  - eapply Forall_impl; [exact H|]. intros c [i ->]; reflexivity.
Qed.

Lemma other_cards_counts (l : list card) :
  other_cards l ->
  count_if is_on_color_land l = 0
  /\ count_if is_off_color_land l = 0
  /\ count_if is_other_card l = length l
  /\ no_target l.
Proof.
  intros H. repeat split.
  - apply count_if_none. eapply Forall_impl; [exact H|].
    intros c [i ->]; reflexivity.
  - apply count_if_none. eapply Forall_impl; [exact H|].
    intros c [i ->]; reflexivity.
  - apply count_if_all. eapply Forall_impl; [exact H|].
    intros c [i ->]; reflexivity.
  - eapply Forall_impl; [exact H|]. intros c [i ->]; reflexivity.
Qed.

Lemma no_target_perm (l1 l2 : list card) :
  l1 ≡ₚ l2 -> no_target l1 -> no_target l2.
Proof. intros Hp H. unfold no_target in *. now rewrite <- Hp. Qed.

Lemma no_target_count (l : list card) :
  no_target l <-> count_if is_target_card l = 0.
Proof.
  split; [apply count_if_none | apply count_if_zero].
Qed.

Lemma no_target_not_in (c : card) (l : list card) :
  is_target_card c = true -> no_target l -> ~ In c l.
Proof.
  intros Hc Hl Hin. unfold no_target in Hl.
  rewrite List.Forall_forall in Hl. specialize (Hl c Hin). congruence.
Qed.

(** What [get_deck] returns when it returns. *)
Lemma get_deck_ok_inv (tc : card) (n : Z) (w w' : World) (deck : list card) :
  get_deck tc n w = (Ok deck, w') ->
  (1 <= n <= LAND_COUNT)%Z
  /\ (exists id mv on off g,
        tc = TargetCard id mv on off g
        /\ (on <= n)%Z /\ (off <= LAND_COUNT - n)%Z)
  /\ length deck = 39
  /\ count_if is_on_color_land deck = Z.to_nat n
  /\ count_if is_off_color_land deck = Z.to_nat (LAND_COUNT - n)
  /\ count_if is_other_card deck = 22
  /\ no_target deck
  /\ next_uuid w' = 39 + next_uuid w.
Proof.
  intros H.
  destruct tc as [id mv on off g| |];
    [|cbv beta iota delta [get_deck bind lift get_on_color_pips] in H;
      discriminate H..].
  destruct (Z.ltb_spec n on) as [Hlt|Hon].
  { cbv beta iota delta
      [get_deck bind lift get_on_color_pips get_off_color_pips] in H.
    apply Z.ltb_lt in Hlt. rewrite Hlt in H. discriminate H. }
  destruct (Z.ltb_spec (LAND_COUNT - n) off) as [Hlt|Hoff].
  { cbv beta iota delta
      [get_deck bind lift get_on_color_pips get_off_color_pips] in H.
    apply Z.ltb_ge in Hon. apply Z.ltb_lt in Hlt.
    rewrite Hon, Hlt in H. discriminate H. }
  destruct (Z.ltb_spec n 1) as [Hlt|Hn].
  { cbv beta iota delta
      [get_deck bind lift get_on_color_pips get_off_color_pips
       get_land_split] in H.
    apply Z.ltb_ge in Hon, Hoff. apply Z.ltb_lt in Hlt.
    rewrite Hon, Hoff, Hlt in H. discriminate H. }
  destruct (get_deck_built id mv on off g n w Hon Hoff Hn)
    as (ons & offs & others & H1 & H2 & H3 & L1 & L2 & L3 & E).
  rewrite E in H. clear E.
  destruct (Z.eqb_spec (Z.of_nat (length (ons ++ offs ++ others)))
              (DECK_SIZE - 1)) as [Hlen|Hlen]; simpl in H;
    [|discriminate H].
  destruct (shuffle_spec (ons ++ offs ++ others)
              (mkWorld (length (ons ++ offs ++ others) + next_uuid w) (rng w)))
    as (y & w2 & Hs & Hp & Hu).
  rewrite Hs in H. injection H as <- <-.
  rewrite !length_app, L1, L2, L3 in Hlen.
  unfold DECK_SIZE, LAND_COUNT in *.
  apply on_color_lands_counts in H1 as (A1 & A2 & A3 & A4).
  apply off_color_lands_counts in H2 as (B1 & B2 & B3 & B4).
  apply other_cards_counts in H3 as (C1 & C2 & C3 & C4).
  split; [lia|].
  split; [exists id, mv, on, off, g; auto|].
  split; [rewrite Hp, !length_app; lia|].
  rewrite !(count_if_perm _ _ _ Hp), !count_if_app.
  split; [lia|]. split; [lia|]. split; [lia|].
  split.
  - eapply no_target_perm; [symmetry; exact Hp|].
    unfold no_target. rewrite !Forall_app. auto.
  - rewrite Hu. simpl. rewrite !length_app. lia.
Qed.

(** C3: whenever the Deck Builder accepts a target card and an on-color
    land count, the library it returns has exactly 39 cards:
    [on_color_land_count] on-color lands, [17 - on_color_land_count]
    off-color lands and 22 filler cards, and no target card. *)
Theorem get_deck_composition (target_card : card) (on_color_land_count : Z)
    (w w' : World) (deck : list card) :
  get_deck target_card on_color_land_count w = (Ok deck, w') ->
  length deck = 39
  /\ Z.of_nat (count_if is_on_color_land deck) = on_color_land_count
  /\ Z.of_nat (count_if is_off_color_land deck) = (17 - on_color_land_count)%Z
  /\ count_if is_other_card deck = 22
  /\ count_if is_target_card deck = 0
  /\ ~ In target_card deck.
Proof.
  intros H.
  apply get_deck_ok_inv in H
    as (Hn & (id & mv & on & off & g & -> & _) & Hlen & Hon & Hoff & Hoth & Hnt & _).
  unfold LAND_COUNT in *.
  repeat split; try assumption; try lia.
  - now apply no_target_count.
  - now apply no_target_not_in.
Qed.

Lemma get_deck_composition_witness :
  exists deck w',
    get_deck (TargetCard 0 3 2 1 0) 8 w1 = (Ok deck, w')
    /\ length deck = 39
    /\ Z.of_nat (count_if is_on_color_land deck) = 8%Z
    /\ Z.of_nat (count_if is_off_color_land deck) = (17 - 8)%Z
    /\ count_if is_other_card deck = 22
    /\ count_if is_target_card deck = 0
    /\ ~ In (TargetCard 0 3 2 1 0) deck.
Proof.
  eexists _, _. split; [vm_compute; reflexivity|].
  eapply (get_deck_composition (TargetCard 0 3 2 1 0) 8 w1).
  vm_compute; reflexivity.
Defined.

Lemma get_target_card_inv (mv on off g : Z) (w w' : World) (tc : card) :
  get_target_card mv on off g w = (Ok tc, w') ->
  tc = TargetCard (next_uuid w) mv on off g
  /\ w' = mkWorld (S (next_uuid w)) (rng w)
  /\ (1 <= mv /\ 1 <= on /\ 0 <= off /\ 0 <= g /\ on + off + g = mv)%Z.
Proof.
  unfold get_target_card.
  destruct (Z.ltb_spec mv 1); [discriminate|].
  destruct (Z.ltb_spec on 1); [discriminate|].
  destruct (Z.ltb_spec off 0); [discriminate|].
  destruct (Z.ltb_spec g 0); [discriminate|].
  destruct (Z.eqb_spec (on + off + g) mv); [|discriminate].
  cbn. intros [= <- <-]. repeat split; assumption.
Qed.

Lemma get_target_card_ok (mv on off g : Z) (w : World) :
  (1 <= mv)%Z -> (1 <= on)%Z -> (0 <= off)%Z -> (0 <= g)%Z ->
  (on + off + g = mv)%Z ->
  get_target_card mv on off g w
  = (Ok (TargetCard (next_uuid w) mv on off g),
     mkWorld (S (next_uuid w)) (rng w)).
Proof.
  intros. unfold get_target_card.
  destruct (Z.ltb_spec mv 1); [lia|].
  destruct (Z.ltb_spec on 1); [lia|].
  destruct (Z.ltb_spec off 0); [lia|].
  destruct (Z.ltb_spec g 0); [lia|].
  destruct (Z.eqb_spec (on + off + g) mv); [|lia].
  reflexivity.
Qed.

Lemma get_deck_ok (id : nat) (mv on off g n : Z) (w : World) :
  (on <= n)%Z -> (off <= LAND_COUNT - n)%Z -> (1 <= n <= LAND_COUNT)%Z ->
  exists deck w', get_deck (TargetCard id mv on off g) n w = (Ok deck, w').
Proof.
  intros Hon Hoff [Hn1 Hn2].
  destruct (get_deck_built id mv on off g n w Hon Hoff Hn1)
    as (ons & offs & others & _ & _ & _ & L1 & L2 & L3 & ->).
  destruct (Z.eqb_spec (Z.of_nat (length (ons ++ offs ++ others)))
              (DECK_SIZE - 1)) as [_|Hlen].
  - destruct (shuffle_spec (ons ++ offs ++ others)
                (mkWorld (length (ons ++ offs ++ others) + next_uuid w) (rng w)))
      as (y & w2 & Hs & _). cbn [negb]. eauto.
  - exfalso. apply Hlen. rewrite !length_app, L1, L2, L3.
    unfold DECK_SIZE, LAND_COUNT in *. lia.
Qed.

(** C4: for a target card made by the card model and any requested on-color
    land count, the Deck Builder raises a configuration error, with nothing
    drawn from the identifier supply or the generator, when
    [on_color_land_count < on_color_pips] or
    [17 - on_color_land_count < off_color_pips]; otherwise it raises nothing
    and returns a deck. *)
Theorem get_deck_feasibility (mana_value on_color_pips off_color_pips generic : Z)
    (w w' : World) (target_card : card) (on_color_land_count : Z)
    (w2 : World) :
  get_target_card mana_value on_color_pips off_color_pips generic w
  = (Ok target_card, w') ->
  ((on_color_land_count < on_color_pips
    \/ 17 - on_color_land_count < off_color_pips)%Z ->
   exists e, get_deck target_card on_color_land_count w2 = (Raise e, w2)
             /\ deck_configuration_error e)
  /\ (~ (on_color_land_count < on_color_pips
         \/ 17 - on_color_land_count < off_color_pips)%Z ->
      exists deck w3,
        get_deck target_card on_color_land_count w2 = (Ok deck, w3)).
Proof.
  intros H. apply get_target_card_inv in H as (-> & _ & Hmv & Hon & Hoff & Hg & Hsum).
  split.
  - intros Hbad.
    cbv beta iota delta
      [get_deck bind lift get_on_color_pips get_off_color_pips].
    destruct (Z.ltb_spec on_color_land_count on_color_pips) as [Hlt|Hge].
    + eexists. split; [reflexivity|]. left; reflexivity.
    + destruct (Z.ltb_spec (LAND_COUNT - on_color_land_count) off_color_pips)
        as [Hlt|Hge'].
      * eexists. split; [reflexivity|]. right; reflexivity.
      * unfold LAND_COUNT in *. lia.
  - intros Hgood. apply get_deck_ok; unfold LAND_COUNT; lia.
Qed.

Lemma get_deck_feasibility_witness :
  ((8 < 2 \/ 17 - 8 < 1)%Z ->
   exists e, get_deck (TargetCard 0 3 2 1 0) 8 w1 = (Raise e, w1)
             /\ deck_configuration_error e)
  /\ (~ (8 < 2 \/ 17 - 8 < 1)%Z ->
      exists deck w3, get_deck (TargetCard 0 3 2 1 0) 8 w1 = (Ok deck, w3)).
Proof.
  apply (get_deck_feasibility 3 2 1 0 w0 (mkWorld 1 []) (TargetCard 0 3 2 1 0) 8 w1).
  vm_compute; reflexivity.
Defined.

(** ** The opening hand *)

Lemma draw_n_ok (deck : list card) (n : nat) :
  1 <= n <= length deck ->
  draw_n deck (Z.of_nat n) = Ok (take n deck, drop n deck).
Proof.
  intros [H1 H2]. unfold draw_n.
  destruct (Z.ltb_spec (Z.of_nat n) 1); [lia|].
  destruct (Z.gtb_spec (Z.of_nat n) (Z.of_nat (length deck))); [lia|].
  now rewrite Nat2Z.id.
Qed.

Lemma no_target_take (n : nat) (l : list card) :
  no_target l -> no_target (take n l).
Proof. apply Forall_take. Qed.

Lemma no_target_drop (n : nat) (l : list card) :
  no_target l -> no_target (drop n l).
Proof. apply Forall_drop. Qed.

Lemma no_target_app (l1 l2 : list card) :
  no_target (l1 ++ l2) <-> no_target l1 /\ no_target l2.
Proof. apply Forall_app. Qed.

(** A valid input is dealt a target card, six library cards and the target
    card as a hand, and a library of 33 cards. *)
Lemma simulate_deal_ok (mv on off n : Z) (w : World) :
  valid_input mv on off n ->
  exists hand deck w',
    simulate_deal mv on off n w
    = (Ok (TargetCard (next_uuid w) mv on off (mv - on - off),
           hand ++ [TargetCard (next_uuid w) mv on off (mv - on - off)],
           deck), w')
    /\ length hand = 6 /\ length deck = 33
    /\ no_target hand /\ no_target deck.
Proof.
  intros (Hon & Hoff & Hsum & Hn1 & Hn2). unfold LAND_COUNT in Hn2.
  unfold simulate_deal.
  destruct (Z.ltb_spec mv 1); [lia|].
  destruct (Z.ltb_spec on 0); [lia|].
  destruct (Z.ltb_spec off 0); [lia|].
  destruct (Z.ltb_spec n 1); [lia|].
  destruct (Z.gtb_spec n LAND_COUNT); [unfold LAND_COUNT in *; lia|].
  destruct (Z.ltb_spec (mv - on - off) 0); [lia|].
  destruct (Z.eqb_spec (mv - on - off + on + off) mv); [|lia].
  cbn [negb]. unfold bind at 1.
  rewrite get_target_card_ok by lia.
  set (tc := TargetCard (next_uuid w) mv on off (mv - on - off)).
  unfold bind at 1.
  destruct (get_deck_ok (next_uuid w) mv on off (mv - on - off) n
              (mkWorld (S (next_uuid w)) (rng w)))
    as (deck & w' & Hd); [unfold LAND_COUNT; lia..|].
  fold tc in Hd. rewrite Hd.
  apply get_deck_ok_inv in Hd as (_ & _ & Hlen & _ & _ & _ & Hnt & _).
  unfold bind, lift, ret.
  change 6%Z with (Z.of_nat 6).
  rewrite draw_n_ok by lia.
  exists (take 6 deck), (drop 6 deck), w'.
  split; [reflexivity|].
  rewrite length_take, length_drop, Hlen.
  repeat split; try lia.
  - now apply no_target_take.
  - now apply no_target_drop.
Qed.

(** Conversely, only valid inputs are dealt. *)
Lemma simulate_deal_valid (mv on off n : Z) (w w' : World)
    (r : card * list card * list card) :
  simulate_deal mv on off n w = (Ok r, w') -> valid_input mv on off n.
Proof.
  unfold simulate_deal.
  destruct (Z.ltb_spec mv 1); [discriminate|].
  destruct (Z.ltb_spec on 0); [discriminate|].
  destruct (Z.ltb_spec off 0); [discriminate|].
  destruct (Z.ltb_spec n 1); [discriminate|].
  destruct (Z.gtb_spec n LAND_COUNT); [discriminate|].
  destruct (Z.ltb_spec (mv - on - off) 0); [discriminate|].
  destruct (Z.eqb_spec (mv - on - off + on + off) mv); [|discriminate].
  cbn [negb]. unfold bind at 1.
  destruct (get_target_card mv on off (mv - on - off) w) as [[tc|ex] w1] eqn:Ht;
    [|discriminate].
  apply get_target_card_inv in Ht as (-> & -> & Hv).
  unfold bind at 1.
  destruct (get_deck _ n _) as [[deck|e2] w2] eqn:Hd; [|discriminate].
  apply get_deck_ok_inv in Hd
    as (_ & (i & m & o & f & g & [= <- <- <- <- <-] & Hon & Hoff) & _).
  intros _. unfold valid_input. lia.
Qed.

(** C9: with [on_color_pips = 0] the single-trial entry point always raises
    a [ValueError], whatever the other arguments, and does so before any
    identifier or random number is consumed. *)
Theorem simulate_rejects_zero_on_color_pips (fuel : nat)
    (mana_value off_color_pips on_color_land_count : Z) (w : World) :
  exists msg,
    simulate fuel mana_value 0 off_color_pips on_color_land_count w
    = Some (Raise (ValueError msg), w).
Proof.
  unfold simulate, simulate_deal.
  destruct (mana_value <? 1)%Z eqn:Hmv; [eexists; reflexivity|].
  change (0 <? 0)%Z with false. cbv iota.
  destruct (off_color_pips <? 0)%Z; [eexists; reflexivity|].
  destruct (on_color_land_count <? 1)%Z; [eexists; reflexivity|].
  destruct (on_color_land_count >? LAND_COUNT)%Z; [eexists; reflexivity|].
  cbv zeta.
  destruct (mana_value - 0 - off_color_pips <? 0)%Z; [eexists; reflexivity|].
  destruct (negb _); [eexists; reflexivity|].
  unfold bind at 1. unfold get_target_card. rewrite Hmv.
  change (0 <? 1)%Z with true. cbv iota.
  eexists; reflexivity.
Qed.

(** ** Removing and finding cards *)

Lemma list_remove_perm (x : card) (l r : list card) :
  list_remove x l = Ok r -> l ≡ₚ x :: r.
Proof.
  revert r. induction l as [|y l IH]; intros r; simpl; [discriminate|].
  destruct (decide (y = x)) as [->|Hne].
  - intros [= ->]. reflexivity.
  - destruct (list_remove x l) as [r'|e]; simpl; [|discriminate].
    intros [= <-]. rewrite (IH r' eq_refl). apply Permutation_swap.
Qed.

Lemma list_remove_in (x : card) (l : list card) :
  In x l -> exists r, list_remove x l = Ok r.
Proof.
  induction l as [|y l IH]; simpl; [tauto|].
  intros Hin. destruct (decide (y = x)) as [->|Hne]; [eauto|].
  destruct Hin as [?|Hin]; [contradiction|].
  destruct (IH Hin) as (r & ->). simpl. eauto.
Qed.

Lemma next_card_found (p : card -> bool) (l : list card) :
  existsb p l = true ->
  exists c, next_card p l = Ok c /\ p c = true /\ In c l.
Proof.
  unfold next_card. intros H.
  destruct (List.find p l) as [c|] eqn:Hf.
  - apply List.find_some in Hf as [Hin Hp]. eauto.
  - apply List.existsb_exists in H as (c & Hin & Hp).
    eapply List.find_none in Hf; [|exact Hin]. congruence.
Qed.

Lemma existsb_false_count (p : card -> bool) (l : list card) :
  existsb p l = false -> count_if p l = 0.
Proof.
  induction l as [|c l IH]; simpl; [reflexivity|].
  rewrite count_if_cons. intros [-> H]%orb_false_elim. now rewrite IH.
Qed.

(** Every card is a filler, an off-color land, an on-color land or a
    target card. *)
Lemma card_kinds (l : list card) :
  length l
  = count_if is_other_card l + count_if is_off_color_land l
    + count_if is_on_color_land l + count_if is_target_card l.
Proof.
  induction l as [|c l IH]; [reflexivity|].
  rewrite !count_if_cons. simpl length.
  destruct c as [? ? ? ? ?|? []|?]; simpl; lia.
Qed.

(** ** The hand around the target card *)

Lemma holds_target_app (tc : card) (rest : list card) :
  is_target_card tc = true -> no_target rest -> holds_target tc (rest ++ [tc]).
Proof.
  intros Ht Hr. split; [exact Ht|]. split.
  - apply in_or_app. right. now left.
  - rewrite count_if_app, count_if_cons, Ht.
    apply no_target_count in Hr. rewrite Hr. reflexivity.
Qed.

Lemma holds_target_remove (tc : card) (hand : list card) :
  holds_target tc hand ->
  exists rest, list_remove tc hand = Ok rest
               /\ no_target rest /\ length hand = S (length rest).
Proof.
  intros (Ht & Hin & Hc).
  destruct (list_remove_in tc hand Hin) as (rest & Hr).
  exists rest. split; [exact Hr|].
  apply list_remove_perm in Hr.
  rewrite (count_if_perm _ _ _ Hr), count_if_cons, Ht in Hc.
  split.
  - apply no_target_count. lia.
  - now rewrite Hr.
Qed.

(** Taking a card that is not a target card out of the hand. *)
Lemma holds_target_return (tc c : card) (hand : list card) :
  holds_target tc hand -> In c hand -> is_target_card c = false ->
  exists hand', list_remove c hand = Ok hand'
                /\ holds_target tc hand'
                /\ hand ≡ₚ c :: hand'.
Proof.
  intros (Ht & Hin & Hc) Hcin Hnc.
  destruct (list_remove_in c hand Hcin) as (hand' & Hr).
  exists hand'. split; [exact Hr|].
  apply list_remove_perm in Hr.
  split; [|exact Hr].
  split; [exact Ht|]. split.
  - apply (Permutation_in _ Hr) in Hin. destruct Hin as [->|?]; [congruence|auto].
  - rewrite (count_if_perm _ _ _ Hr), count_if_cons, Hnc in Hc. exact Hc.
Qed.

(** ** Mulligan resolver *)

(** One mulligan keeps the target card in the hand and out of the library,
    and keeps both sizes. *)
Lemma mulligan_spec (tc : card) (hand deck : list card) :
  holds_target tc hand -> no_target deck ->
  6 <= length deck + (length hand - 1) ->
  exists rest deck',
    mulligan tc hand deck = Ok (rest ++ [tc], deck')
    /\ length rest = 6 /\ no_target rest
    /\ holds_target tc (rest ++ [tc])
    /\ no_target deck'
    /\ length deck' + 6 = length deck + (length hand - 1).
Proof.
  intros Hh Hd Hlen.
  destruct (holds_target_remove tc hand Hh) as (r & Hr & Hnt & Hl).
  unfold mulligan. rewrite Hr. cbn [res_bind].
  change 6%Z with (Z.of_nat 6).
  rewrite draw_n_ok by (rewrite length_app; lia).
  cbn [res_bind].
  assert (Hall : no_target (deck ++ r)) by (apply no_target_app; auto).
  exists (take 6 (deck ++ r)), (drop 6 (deck ++ r)).
  split; [reflexivity|].
  split; [rewrite length_take, length_app; lia|].
  split; [now apply no_target_take|].
  split; [apply holds_target_app; [apply Hh | now apply no_target_take]|].
  split; [now apply no_target_drop|].
  rewrite length_drop, length_app. lia.
Qed.

Lemma mulligan_kept (tc : card) (hand deck : list card) :
  kept tc hand deck ->
  exists h d, mulligan tc hand deck = Ok (h, d) /\ kept tc h d.
Proof.
  intros (Hh & Hl & Hd & Hld).
  destruct (mulligan_spec tc hand deck Hh Hd) as
    (rest & deck' & Hm & Hlr & _ & Hh' & Hd' & Hld'); [lia|].
  exists (rest ++ [tc]), deck'. split; [exact Hm|].
  repeat split; try apply Hh'; auto.
  - rewrite length_app. simpl. lia.
  - lia.
Qed.

Lemma mulligan_loop_spec (tc : card) (fuel : nat) :
  forall mc hand deck,
    kept tc hand deck -> 1 <= fuel -> 4 <= fuel + mc ->
    exists h d k,
      mulligan_loop fuel tc mc hand deck = Some (Ok (h, d, k))
      /\ mc <= k /\ (mc <= 3 -> k <= 3) /\ kept tc h d.
Proof.
  induction fuel as [|fuel IH]; intros mc hand deck Hk Hpos Hfuel; [lia|].
  cbn [mulligan_loop].
  destruct (((mc =? 0) || (mc =? 1))
            && (count_if is_on_color_land hand =? 0)) eqn:E1.
  { apply andb_prop in E1 as [E1 _].
    assert (Hmc : mc <= 1).
    { apply orb_prop in E1 as [E|E]; apply Nat.eqb_eq in E; lia. }
    destruct (mulligan_kept tc hand deck Hk) as (h1 & d1 & -> & Hk1).
    destruct (IH (S mc) h1 d1 Hk1) as (h & d & k & -> & Hle & Hb & Hk');
      [lia..|].
    exists h, d, k.
    split; [reflexivity|]. split; [lia|]. split; [lia|]. exact Hk'. }
  destruct ((mc =? 2)
            && (count_if is_on_color_land hand
                + count_if is_off_color_land hand =? 0)) eqn:E2.
  { apply andb_prop in E2 as [E2 _]. apply Nat.eqb_eq in E2.
    destruct (mulligan_kept tc hand deck Hk) as (h1 & d1 & -> & Hk1).
    destruct (IH (S mc) h1 d1 Hk1) as (h & d & k & -> & Hle & Hb & Hk');
      [lia..|].
    exists h, d, k.
    split; [reflexivity|]. split; [lia|]. split; [lia|]. exact Hk'. }
  exists hand, deck, mc.
  split; [destruct (mc =? 3); reflexivity|]. auto.
Qed.

(** Whatever the hand and the library, the mulligan loop stops within four
    passes, and a count that starts at most at 3 ends at most at 3. *)
Lemma mulligan_loop_total (tc : card) (fuel : nat) :
  forall mc hand deck,
    1 <= fuel -> 4 <= fuel + mc ->
    exists r,
      mulligan_loop fuel tc mc hand deck = Some r
      /\ forall h d k, r = Ok (h, d, k) -> mc <= k /\ (mc <= 3 -> k <= 3).
Proof.
  induction fuel as [|fuel IH]; intros mc hand deck Hpos Hfuel; [lia|].
  cbn [mulligan_loop].
  destruct (((mc =? 0) || (mc =? 1))
            && (count_if is_on_color_land hand =? 0)) eqn:E1.
  { apply andb_prop in E1 as [E1 _].
    assert (Hmc : mc <= 1).
    { apply orb_prop in E1 as [E|E]; apply Nat.eqb_eq in E; lia. }
    destruct (mulligan tc hand deck) as [[h1 d1]|e].
    - destruct (IH (S mc) h1 d1) as (r & -> & Hr); [lia..|].
      exists r. split; [reflexivity|].
      intros h d k Hk. destruct (Hr h d k Hk). lia.
    - eexists. split; [reflexivity|]. discriminate. }
  destruct ((mc =? 2)
            && (count_if is_on_color_land hand
                + count_if is_off_color_land hand =? 0)) eqn:E2.
  { apply andb_prop in E2 as [E2 _]. apply Nat.eqb_eq in E2.
    destruct (mulligan tc hand deck) as [[h1 d1]|e].
    - destruct (IH (S mc) h1 d1) as (r & -> & Hr); [lia..|].
      exists r. split; [reflexivity|].
      intros h d k Hk. destruct (Hr h d k Hk). lia.
    - eexists. split; [reflexivity|]. discriminate. }
  exists (Ok (hand, deck, mc)).
  split; [destruct (mc =? 3); reflexivity|].
  intros h d k [= <- <- <-]. lia.
Qed.

(** ** Trim *)

Lemma return_one_spec (tc : card) (p : card -> bool)
    (to_return hand : list card) :
  (forall c, p c = true -> is_target_card c = false) ->
  holds_target tc hand -> existsb p hand = true ->
  exists c hand',
    return_one p to_return hand = Ok (to_return ++ [c], hand')
    /\ p c = true
    /\ holds_target tc hand'
    /\ hand ≡ₚ c :: hand'.
Proof.
  intros Hp Hh Hex.
  destruct (next_card_found p hand Hex) as (c & Hn & Hpc & Hin).
  destruct (holds_target_return tc c hand Hh Hin (Hp c Hpc))
    as (hand' & Hr & Hh' & Hperm).
  exists c, hand'. unfold return_one. rewrite Hn. cbn [res_bind].
  rewrite Hr. cbn [res_bind]. auto.
Qed.

Lemma other_not_target (c : card) :
  is_other_card c = true -> is_target_card c = false.
Proof. destruct c; simpl; congruence. Qed.

Lemma off_land_not_target (c : card) :
  is_off_color_land c = true -> is_target_card c = false.
Proof. destruct c; simpl; congruence. Qed.

Lemma on_land_not_target (c : card) :
  is_on_color_land c = true -> is_target_card c = false.
Proof. destruct c; simpl; congruence. Qed.

Lemma land_not_target (c : card) :
  is_land c = true -> is_target_card c = false.
Proof. destruct c; simpl; congruence. Qed.

(** The trim loop returns cards until [mulligan_count] of them are set
    aside; none of them is the target card. *)
Lemma trim_loop_spec (tc : card) (k : nat) (fuel : nat) :
  forall to_return hand,
    holds_target tc hand -> no_target to_return ->
    length to_return <= k ->
    k - length to_return < length hand ->
    k - length to_return < fuel ->
    exists tr h,
      trim_loop fuel k to_return hand = Some (Ok (tr, h))
      /\ length tr = k
      /\ no_target tr
      /\ holds_target tc h
      /\ length h + length tr = length hand + length to_return
      /\ hand ++ to_return ≡ₚ h ++ tr.
Proof.
  induction fuel as [|fuel IH]; intros to_return hand Hh Hnt Hle Hroom Hfuel;
    [lia|].
  cbn [trim_loop].
  destruct (Nat.eqb_spec k 0) as [->|Hk0].
  { exists to_return, hand. repeat split; auto; try apply Hh. lia. }
  destruct (Nat.eqb_spec (length to_return) k) as [Hdone|Hmore].
  { exists to_return, hand. repeat split; auto; apply Hh. }
  assert (Hstep : forall p,
            (forall c, p c = true -> is_target_card c = false) ->
            existsb p hand = true ->
            exists tr h,
              match return_one p to_return hand with
              | Ok (to_return0, hand0) => trim_loop fuel k to_return0 hand0
              | Raise e => Some (Raise e)
              end = Some (Ok (tr, h))
              /\ length tr = k /\ no_target tr /\ holds_target tc h
              /\ length h + length tr = length hand + length to_return
              /\ hand ++ to_return ≡ₚ h ++ tr).
  { intros p Hp Hex.
    destruct (return_one_spec tc p to_return hand Hp Hh Hex)
      as (c & hand' & -> & Hpc & Hh' & Hperm).
    assert (Hl : length hand = S (length hand')) by now rewrite Hperm.
    destruct (IH (to_return ++ [c]) hand') as (tr & h & -> & A & B & C & D & E).
    - exact Hh'.
    - apply no_target_app. split; [exact Hnt|].
      constructor; [now apply Hp | constructor].
    - rewrite length_app. simpl. lia.
    - rewrite length_app. simpl. lia.
    - rewrite length_app. simpl. lia.
    - exists tr, h. repeat split; auto; try apply C.
      + rewrite length_app in D. simpl in D. lia.
      + rewrite <- E, Hperm.
        rewrite (Permutation_app_comm to_return [c]). simpl.
        apply Permutation_middle. }
  destruct (existsb is_other_card hand) eqn:E1;
    [apply Hstep; [exact other_not_target | exact E1]|].
  destruct (existsb is_off_color_land hand) eqn:E2;
    [apply Hstep; [exact off_land_not_target | exact E2]|].
  destruct (existsb is_on_color_land hand) eqn:E3;
    [apply Hstep; [exact on_land_not_target | exact E3]|].
  exfalso.
  pose proof (card_kinds hand) as Hkinds.
  rewrite (existsb_false_count _ _ E1), (existsb_false_count _ _ E2),
    (existsb_false_count _ _ E3) in Hkinds.
  destruct Hh as (_ & _ & Hc). lia.
Qed.

(** ** From the opening hand to the kept hand *)

(** From an opening hand of six library cards and the target card over a
    library of 33 cards, [simulate_keep] returns; it passes through a state
    [kept] after the mulligan loop, trims [k <= 3] cards, none of them the
    target card, and the two size checks pass. *)
Lemma simulate_keep_spec (tc : card) (rest deck : list card) (fuel : nat) :
  4 <= fuel -> is_target_card tc = true ->
  length rest = 6 -> no_target rest ->
  length deck = 33 -> no_target deck ->
  exists hm dm k tr h,
    mulligan_loop fuel tc 0 (rest ++ [tc]) deck = Some (Ok (hm, dm, k))
    /\ kept tc hm dm /\ k <= 3
    /\ trim_loop fuel k [] hm = Some (Ok (tr, h))
    /\ no_target tr /\ length tr = k
    /\ simulate_keep fuel tc (rest ++ [tc]) deck = Some (Ok (h, dm ++ tr, k))
    /\ holds_target tc h
    /\ length h = 7 - k
    /\ no_target (dm ++ tr)
    /\ length (dm ++ tr) = 33 + k.
Proof.
  intros Hfuel Htc Hlr Hnr Hld Hnd.
  assert (Hk0 : kept tc (rest ++ [tc]) deck).
  { split; [now apply holds_target_app|].
    rewrite length_app. simpl. repeat split; auto; lia. }
  destruct (mulligan_loop_spec tc fuel 0 (rest ++ [tc]) deck Hk0)
    as (hm & dm & k & Hm & _ & Hk3 & Hk); [lia..|].
  specialize (Hk3 ltac:(lia)).
  destruct Hk as (Hh & Hlh & Hndm & Hldm).
  destruct (trim_loop_spec tc k fuel [] hm Hh)
    as (tr & h & Ht & Hltr & Hntr & Hh' & Hlen & _);
    [constructor | simpl; lia..|].
  simpl in Hlen.
  exists hm, dm, k, tr, h.
  split; [exact Hm|]. split; [repeat split; auto; apply Hh|].
  split; [exact Hk3|]. split; [exact Ht|].
  split; [exact Hntr|]. split; [exact Hltr|].
  assert (Hlh' : length h = 7 - k) by lia.
  assert (Hld' : length (dm ++ tr) = 33 + k) by (rewrite length_app; lia).
  split.
  - unfold simulate_keep. rewrite Hm. cbn [loop_bind].
    rewrite Ht. cbn [loop_bind].
    destruct (Z.eqb_spec (Z.of_nat (length h)) (7 - Z.of_nat k)); [|lia].
    destruct (Z.eqb_spec (Z.of_nat (length (dm ++ tr)))
                (DECK_SIZE - Z.of_nat (length h)));
      [|unfold DECK_SIZE in *; lia].
    reflexivity.
  - repeat split; auto; try apply Hh'.
    apply no_target_app; auto.
Qed.

(** C1 (amended): for every valid simulation input, after mulligan
    resolution and the trim step with [mulligan_count = k], [k] is at most
    3, the kept hand has exactly [7 - k] cards and the remaining library has
    exactly [33 + k] cards (the 40 cards of the deck less the hand). *)
Theorem kept_hand_and_library_sizes (mana_value on_color_pips off_color_pips
    on_color_land_count : Z) (w : World) (fuel : nat) :
  valid_input mana_value on_color_pips off_color_pips on_color_land_count ->
  4 <= fuel ->
  exists target_card hand deck w' kept_hand library k,
    simulate_deal mana_value on_color_pips off_color_pips
      on_color_land_count w = (Ok (target_card, hand, deck), w')
    /\ simulate_keep fuel target_card hand deck
       = Some (Ok (kept_hand, library, k))
    /\ k <= 3
    /\ length kept_hand = 7 - k
    /\ length library = 33 + k.
Proof.
  intros Hv Hfuel.
  destruct (simulate_deal_ok _ _ _ _ w Hv)
    as (rest & deck & w' & Hd & Hlr & Hld & Hnr & Hnd).
  destruct (simulate_keep_spec
              (TargetCard (next_uuid w) mana_value on_color_pips off_color_pips
                 (mana_value - on_color_pips - off_color_pips))
              rest deck fuel Hfuel eq_refl Hlr Hnr Hld Hnd)
    as (hm & dm & k & tr & h & _ & _ & Hk & _ & _ & _ & Hs & _ & Hlh & _ & Hll).
  eexists _, _, _, _, _, _, _.
  split; [exact Hd|]. split; [exact Hs|]. auto.
Qed.

Lemma kept_hand_and_library_sizes_witness :
  valid_input 3 2 1 8 /\ 4 <= 4
  /\ exists target_card hand deck w' kept_hand library k,
       simulate_deal 3 2 1 8 w1 = (Ok (target_card, hand, deck), w')
       /\ simulate_keep 4 target_card hand deck
          = Some (Ok (kept_hand, library, k))
       /\ k <= 3
       /\ length kept_hand = 7 - k
       /\ length library = 33 + k.
Proof.
  assert (Hv : valid_input 3 2 1 8) by (unfold valid_input, LAND_COUNT; lia).
  assert (Hf : 4 <= 4) by lia.
  split; [exact Hv|]. split; [exact Hf|].
  exact (kept_hand_and_library_sizes 3 2 1 8 w1 4 Hv Hf).
Defined.

(** C1 as stated fails: on the valid input (1, 1, 0, 17) the trial keeps
    its hand of 7 with no mulligan, and the library then has 33 cards, not
    38. *)
Lemma library_size_38_counterexample :
  valid_input 1 1 0 17
  /\ exists target_card hand deck w' kept_hand library k,
       simulate_deal 1 1 0 17 w0 = (Ok (target_card, hand, deck), w')
       /\ simulate_keep 4 target_card hand deck
          = Some (Ok (kept_hand, library, k))
       /\ length kept_hand = 7 - k
       /\ length library <> 38 + k.
Proof.
  split; [unfold valid_input, LAND_COUNT; lia|].
  eexists _, _, _, _, _, _, _.
  split; [vm_compute; reflexivity|].
  split; [vm_compute; reflexivity|].
  split; [reflexivity|].
  vm_compute. discriminate.
Qed.

(** C5: whatever the hand and the library, the mulligan loop stops within
    four passes with [mulligan_count] in 0..3; and from every opening hand
    (six library cards and the target card, over the 33 remaining cards)
    the kept hand has at least 4 cards. *)
Theorem mulligan_count_at_most_three (target_card : card)
    (drawn deck : list card) (fuel : nat) :
  4 <= fuel -> is_target_card target_card = true ->
  length drawn = 6 -> no_target drawn ->
  length deck = 33 -> no_target deck ->
  (forall any_target any_hand any_deck,
     exists r,
       mulligan_loop fuel any_target 0 any_hand any_deck = Some r
       /\ match r with
          | Ok (_, _, k) => k <= 3
          | Raise _ => True
          end)
  /\ exists kept_hand library k,
       simulate_keep fuel target_card (drawn ++ [target_card]) deck
       = Some (Ok (kept_hand, library, k))
       /\ k <= 3
       /\ 4 <= length kept_hand.
Proof.
  intros Hfuel Htc Hlr Hnr Hld Hnd. split.
  - intros t h d.
    destruct (mulligan_loop_total t fuel 0 h d) as (r & Hr & Hb); [lia..|].
    exists r. split; [exact Hr|].
    destruct r as [[[h' d'] k]|e]; [|exact I].
    destruct (Hb h' d' k eq_refl). lia.
  - destruct (simulate_keep_spec target_card drawn deck fuel
                Hfuel Htc Hlr Hnr Hld Hnd)
      as (hm & dm & k & tr & h & _ & _ & Hk & _ & _ & _ & Hs & _ & Hlh & _).
    exists h, (dm ++ tr), k. split; [exact Hs|]. lia.
Qed.

(** ** Turn engine *)

Lemma draw_step_cases (g : game) :
  (g_deck g = [] /\ draw_step g = Ok None)
  \/ (g_deck g <> [] /\ g_turn g <= 1 /\ draw_step g = Ok (Some g))
  \/ (exists c d,
        g_deck g = c :: d /\ 1 < g_turn g
        /\ draw_step g
           = Ok (Some (mkGame (g_hand g ++ [c]) d (g_board g) (g_turn g)))).
Proof.
  destruct g as [hand deck board turn]. unfold draw_step. cbn [g_deck g_turn g_hand g_board].
  destruct deck as [|c d].
  - left. split; [reflexivity|]. reflexivity.
  - right. cbn [length]. change (0 <? S (length d)) with true. cbn [andb].
    destruct (Nat.ltb_spec 1 turn) as [Hlt|Hle].
    + right. exists c, d. split; [reflexivity|]. split; [exact Hlt|].
      change 1%Z with (Z.of_nat 1).
      rewrite draw_n_ok by (simpl; lia). reflexivity.
    + left. split; [discriminate|]. split; [exact Hle|]. reflexivity.
Qed.

Lemma play_land_spec (p : card -> bool) (g : game) :
  existsb p (g_hand g) = true ->
  exists land hand',
    play_land p g
    = Ok (mkGame hand' (g_deck g) (g_board g ++ [land]) (g_turn g))
    /\ p land = true
    /\ g_hand g ≡ₚ land :: hand'.
Proof.
  intros Hex.
  destruct (next_card_found p _ Hex) as (land & Hn & Hp & Hin).
  destruct (list_remove_in land _ Hin) as (hand' & Hr).
  exists land, hand'. unfold play_land. rewrite Hn. cbn [res_bind].
  rewrite Hr. cbn [res_bind].
  split; [reflexivity|]. split; [exact Hp|].
  now apply list_remove_perm.
Qed.

Lemma on_land_is_land (c : card) : is_on_color_land c = true -> is_land c = true.
Proof. destruct c; simpl; congruence. Qed.

Lemma off_land_is_land (c : card) : is_off_color_land c = true -> is_land c = true.
Proof. destruct c; simpl; congruence. Qed.

(** The land drop never raises: it plays no land or one land of the hand. *)
Lemma land_drop_step_spec (id : nat) (mv on off gen : Z) (g : game) :
  exists g' b played,
    land_drop_step (TargetCard id mv on off gen) g = Ok (g', b)
    /\ g_hand g ≡ₚ played ++ g_hand g'
    /\ g_board g' = g_board g ++ played
    /\ length played <= 1
    /\ Forall (fun c => is_land c = true) played
    /\ g_deck g' = g_deck g
    /\ g_turn g' = g_turn g.
Proof.
  assert (Hplay : forall p,
            (forall c, p c = true -> is_land c = true) ->
            existsb p (g_hand g) = true ->
            exists g' b played,
              (try g1 <- play_land p g ; Ok (g1, true)) = Ok (g', b)
              /\ g_hand g ≡ₚ played ++ g_hand g'
              /\ g_board g' = g_board g ++ played
              /\ length played <= 1
              /\ Forall (fun c => is_land c = true) played
              /\ g_deck g' = g_deck g
              /\ g_turn g' = g_turn g).
  { intros p Hp Hex.
    destruct (play_land_spec p g Hex) as (land & hand' & -> & Hpl & Hperm).
    eexists _, true, [land]. cbn [res_bind].
    split; [reflexivity|]. cbn [g_hand g_board g_deck g_turn].
    repeat split; auto. }
  assert (Hnone : exists g' b played,
            Ok (g, false) = Ok (g', b)
            /\ g_hand g ≡ₚ played ++ g_hand g'
            /\ g_board g' = g_board g ++ played
            /\ length played <= 1
            /\ Forall (fun c => is_land c = true) played
            /\ g_deck g' = g_deck g
            /\ g_turn g' = g_turn g).
  { exists g, false, []. rewrite app_nil_r. repeat split; auto. }
  unfold land_drop_step.
  cbn [get_on_color_pips get_off_color_pips res_bind negb].
  rewrite !andb_true_r.
  destruct (existsb is_land (g_hand g)) eqn:Hl; [|exact Hnone].
  destruct (existsb is_on_color_land (g_hand g)
            && (Z.of_nat (count_if dict_get_is_on_color (g_board g)) <? on)%Z)
    eqn:E1.
  { apply andb_prop in E1 as [E1 _].
    apply Hplay; [exact on_land_is_land | exact E1]. }
  destruct (existsb is_off_color_land (g_hand g)
            && (Z.of_nat
                  (count_if (fun c => negb (dict_get_is_on_color c)) (g_board g))
                <? off)%Z) eqn:E2.
  { apply andb_prop in E2 as [E2 _].
    apply Hplay; [exact off_land_is_land | exact E2]. }
  apply Hplay; [auto | exact Hl].
Qed.

(** One turn with a target card: the loop breaks on an empty library, or
    the turn is played without raising. *)
Lemma play_turn_spec (id : nat) (mv on off gen : Z) (g : game) :
  (g_deck g = [] /\ play_turn (TargetCard id mv on off gen) g = Ok None)
  \/ (exists g' drawn played,
        play_turn (TargetCard id mv on off gen) g = Ok (Some g')
        /\ turn_played g g' drawn played).
Proof.
  unfold play_turn.
  destruct (draw_step_cases g)
    as [[He ->]|[(Hne & Hturn & ->)|(c & d & Hd & Hturn & ->)]];
    cbn [res_bind].
  - left. auto.
  - right.
    destruct (land_drop_step_spec id mv on off gen g)
      as (g' & b & played & -> & Hh & Hb & Hl & Hf & Hdk & Ht).
    exists g', [], played. cbn [res_bind]. split; [reflexivity|].
    unfold turn_played. rewrite app_nil_r, Hdk.
    destruct (Nat.ltb_spec 1 (g_turn g)); [lia|].
    repeat split; auto.
  - right.
    destruct (land_drop_step_spec id mv on off gen
                (mkGame (g_hand g ++ [c]) d (g_board g) (g_turn g)))
      as (g' & b & played & -> & Hh & Hb & Hl & Hf & Hdk & Ht).
    cbn [g_hand g_deck g_board g_turn] in *.
    exists g', [c], played. cbn [res_bind]. split; [reflexivity|].
    unfold turn_played. rewrite Hdk, Hd.
    destruct (Nat.ltb_spec 1 (g_turn g)); [|lia].
    repeat split; auto; discriminate.
Qed.

Lemma play_turn_inv (tc : card) (g g' : game) :
  play_turn tc g = Ok (Some g') ->
  is_target_card tc = true
  /\ exists drawn played, turn_played g g' drawn played.
Proof.
  intros H. destruct tc as [id mv on off gen|i b|i].
  - split; [reflexivity|].
    destruct (play_turn_spec id mv on off gen g)
      as [[_ E]|(g2 & drawn & played & E & Hp)]; rewrite E in H.
    + discriminate.
    + injection H as <-. eauto.
  - exfalso. unfold play_turn in H.
    destruct (draw_step g) as [[g1|]|e]; discriminate H.
  - exfalso. unfold play_turn in H.
    destruct (draw_step g) as [[g1|]|e]; discriminate H.
Qed.

Lemma count_if_le_app (p : card -> bool) (l more : list card) :
  count_if p l <= count_if p (l ++ more).
Proof. rewrite count_if_app. lia. Qed.

Lemma turn_start_shift (tc : card) (g g' : game) (i : nat) :
  play_turn tc g = Ok (Some g') ->
  turn_start (S i) tc g = turn_start i tc (next_turn g').
Proof.
  intros H. induction i as [|i IH].
  - cbn [turn_start]. now rewrite H.
  - change (turn_start (S (S i)) tc g)
      with (match turn_start (S i) tc g with
            | Some gs =>
                match play_turn tc gs with
                | Ok (Some g2) => Some (next_turn g2)
                | _ => None
                end
            | None => None
            end).
    rewrite IH. reflexivity.
Qed.

Lemma turn_state_shift (tc : card) (g g' : game) (i : nat) :
  play_turn tc g = Ok (Some g') ->
  turn_state (S i) tc g = turn_state i tc (next_turn g').
Proof.
  intros H. unfold turn_state. now rewrite (turn_start_shift tc g g' i H).
Qed.

(** Between the cast checks of two turns the board only grows, by lands,
    and by at most one land per turn. *)
Lemma board_grows (tc : card) (g : game) (i : nat) :
  forall d gi gj,
    turn_state i tc g = Some gi -> turn_state (i + d) tc g = Some gj ->
    exists later,
      g_board gj = g_board gi ++ later
      /\ length later <= d
      /\ Forall (fun c => is_land c = true) later.
Proof.
  induction d as [|d IH]; intros gi gj Hi Hj.
  - rewrite Nat.add_0_r in Hj. rewrite Hi in Hj. injection Hj as <-.
    exists []. rewrite app_nil_r. repeat split; auto.
  - rewrite Nat.add_succ_r in Hj. unfold turn_state in Hj.
    cbn [turn_start] in Hj.
    destruct (turn_start (i + d) tc g) as [gs|] eqn:Es; [|discriminate].
    destruct (play_turn tc gs) as [[gm|]|e] eqn:Ep; try discriminate.
    destruct (play_turn tc (next_turn gm)) as [[g2|]|e] eqn:Ep2;
      try discriminate.
    injection Hj as <-.
    assert (Hm : turn_state (i + d) tc g = Some gm).
    { unfold turn_state. now rewrite Es, Ep. }
    destruct (IH gi gm Hi Hm) as (later & Hb & Hl & Hf).
    apply play_turn_inv in Ep2
      as (_ & drawn & played & _ & _ & _ & _ & Hb2 & Hl2 & Hf2 & _).
    cbn [next_turn g_board] in Hb2.
    exists (later ++ played). rewrite Hb2, Hb, app_assoc.
    split; [reflexivity|]. split; [rewrite length_app; lia|].
    apply Forall_app. auto.
Qed.

(** C6: in the turn whose cast check sees [gi], the board is the board at
    the start of that turn followed by at most one card, a land taken out
    of the hand; and from that turn to any later turn [j] the board is only
    extended, by lands, at most one per turn, so that its length and its
    on-color and off-color counts do not decrease. *)
Theorem board_append_only (target_card : card) (g : game) (i j : nat)
    (gi gj : game) :
  i <= j ->
  turn_state i target_card g = Some gi ->
  turn_state j target_card g = Some gj ->
  (exists gs drawn played,
     turn_start i target_card g = Some gs
     /\ g_board gi = g_board gs ++ played
     /\ length played <= 1
     /\ Forall (fun c => is_land c = true) played
     /\ g_hand gs ++ drawn ≡ₚ played ++ g_hand gi)
  /\ (exists later,
        g_board gj = g_board gi ++ later
        /\ length later <= j - i
        /\ Forall (fun c => is_land c = true) later)
  /\ length (g_board gi) <= length (g_board gj)
  /\ board_on_color (g_board gi) <= board_on_color (g_board gj)
  /\ board_off_color (g_board gi) <= board_off_color (g_board gj).
Proof.
  intros Hle Hi Hj. split.
  - unfold turn_state in Hi.
    destruct (turn_start i target_card g) as [gs|]; [|discriminate].
    destruct (play_turn target_card gs) as [[g1|]|e] eqn:Ep; try discriminate.
    injection Hi as ->.
    apply play_turn_inv in Ep
      as (_ & drawn & played & _ & _ & _ & Hh & Hb & Hl & Hf & _).
    exists gs, drawn, played. auto.
  - replace j with (i + (j - i)) in Hj by lia.
    destruct (board_grows target_card g i (j - i) gi gj Hi Hj)
      as (later & Hb & Hl & Hf).
    split; [exists later; auto|].
    rewrite Hb. unfold board_on_color, board_off_color.
    split; [rewrite length_app; lia|].
    split; apply count_if_le_app.
Qed.

(** The cast check of the code decides the three-part condition. *)
Lemma can_cast_spec (id : nat) (mv on off gen : Z) (board : list card) :
  exists b,
    can_cast (TargetCard id mv on off gen) board = Ok b
    /\ (b = true <-> castable mv on off board).
Proof.
  unfold can_cast, castable, board_on_color, board_off_color.
  cbn [get_on_color_pips get_off_color_pips get_mana_value res_bind].
  set (x := count_if dict_get_is_on_color board).
  set (y := count_if (fun c => negb (dict_get_is_on_color c)) board).
  destruct (Z.geb_spec (Z.of_nat x) on) as [H1|H1].
  - destruct (Z.geb_spec (Z.of_nat y) off) as [H2|H2].
    + eexists. split; [reflexivity|].
      destruct (Z.geb_spec (Z.of_nat (x + y)) mv) as [H3|H3].
      * split; [intros _|reflexivity]. lia.
      * split; [discriminate|]. lia.
    + exists false. split; [reflexivity|]. split; [discriminate|]. lia.
  - exists false. split; [reflexivity|]. split; [discriminate|]. lia.
Qed.

Lemma can_cast_target (tc : card) (board : list card) (b : bool) :
  can_cast tc board = Ok b ->
  exists id mv on off gen, tc = TargetCard id mv on off gen.
Proof. destruct tc; [eauto 6|discriminate..]. Qed.

(** C2: when the turn engine returns the cast turn [t], the board that the
    cast check sees on turn [t], after that turn's land drop, has at least
    the required on-color lands, at least the required off-color lands and
    at least [mana_value] lands in all; and on every earlier turn of the
    run the board seen by the cast check did not satisfy this condition. *)
Theorem cast_turn_is_first_castable (fuel : nat) (target_card : card)
    (g : game) (t : nat) :
  turn_loop fuel target_card g = Some (Ok (Some t)) ->
  exists id mv on off gen i gt,
    target_card = TargetCard id mv on off gen
    /\ t = g_turn g + i
    /\ turn_state i target_card g = Some gt
    /\ g_turn gt = t
    /\ castable mv on off (g_board gt)
    /\ forall j, j < i ->
         exists gj,
           turn_state j target_card g = Some gj
           /\ g_turn gj = g_turn g + j
           /\ ~ castable mv on off (g_board gj).
Proof.
  revert g t. induction fuel as [|fuel IH]; intros g t H; [discriminate|].
  cbn [turn_loop] in H.
  destruct (play_turn target_card g) as [[g'|]|e] eqn:Ep; try discriminate.
  destruct (can_cast target_card (g_board g')) as [b|e] eqn:Ec;
    [|discriminate].
  destruct (can_cast_target _ _ _ Ec) as (id & mv & on & off & gen & ->).
  destruct (can_cast_spec id mv on off gen (g_board g')) as (b' & Ec' & Hb).
  rewrite Ec in Ec'. injection Ec' as <-.
  pose proof (play_turn_inv _ _ _ Ep)
    as (_ & drawn & played & _ & _ & _ & _ & _ & _ & _ & Hturn).
  destruct b.
  - injection H as <-.
    exists id, mv, on, off, gen, 0, g'.
    split; [reflexivity|]. split; [lia|].
    split; [unfold turn_state; cbn [turn_start]; now rewrite Ep|].
    split; [reflexivity|]. split; [now apply Hb|].
    intros j Hj. lia.
  - destruct (IH (next_turn g') t H)
      as (id2 & mv2 & on2 & off2 & gen2 & i & gt & Heq & Ht & Hs & Hgt & Hc & Hbefore).
    injection Heq as <- <- <- <- <-.
    exists id, mv, on, off, gen, (S i), gt.
    split; [reflexivity|].
    split; [cbn [next_turn g_turn] in Ht; lia|].
    split; [now rewrite (turn_state_shift _ _ _ i Ep)|].
    split; [exact Hgt|]. split; [exact Hc|].
    intros [|j] Hj.
    + exists g'. split; [unfold turn_state; cbn [turn_start]; now rewrite Ep|].
      split; [lia|]. intros Hcast. apply Hb in Hcast. discriminate.
    + destruct (Hbefore j ltac:(lia)) as (gj & Hsj & Htj & Hnj).
      exists gj. split; [now rewrite (turn_state_shift _ _ _ j Ep)|].
      split; [cbn [next_turn g_turn] in Htj; lia|]. exact Hnj.
Qed.

Lemma cast_turn_is_first_castable_witness :
  turn_loop 10 sample_target sample_game = Some (Ok (Some 3))
  /\ exists id mv on off gen i gt,
       sample_target = TargetCard id mv on off gen
       /\ 3 = g_turn sample_game + i
       /\ turn_state i sample_target sample_game = Some gt
       /\ g_turn gt = 3
       /\ castable mv on off (g_board gt)
       /\ forall j, j < i ->
            exists gj,
              turn_state j sample_target sample_game = Some gj
              /\ g_turn gj = g_turn sample_game + j
              /\ ~ castable mv on off (g_board gj).
Proof.
  assert (H : turn_loop 10 sample_target sample_game = Some (Ok (Some 3)))
    by (vm_compute; reflexivity).
  split; [exact H|].
  exact (cast_turn_is_first_castable 10 sample_target sample_game 3 H).
Defined.

Lemma board_append_only_witness :
  exists gi gj,
    0 <= 2
    /\ turn_state 0 sample_target sample_game = Some gi
    /\ turn_state 2 sample_target sample_game = Some gj
    /\ (exists gs drawn played,
          turn_start 0 sample_target sample_game = Some gs
          /\ g_board gi = g_board gs ++ played
          /\ length played <= 1
          /\ Forall (fun c => is_land c = true) played
          /\ g_hand gs ++ drawn ≡ₚ played ++ g_hand gi)
    /\ (exists later,
          g_board gj = g_board gi ++ later
          /\ length later <= 2 - 0
          /\ Forall (fun c => is_land c = true) later)
    /\ length (g_board gi) <= length (g_board gj)
    /\ board_on_color (g_board gi) <= board_on_color (g_board gj)
    /\ board_off_color (g_board gi) <= board_off_color (g_board gj).
Proof.
  eexists _, _.
  assert (Hle : 0 <= 2) by lia.
  split; [exact Hle|].
  split; [vm_compute; reflexivity|].
  split; [vm_compute; reflexivity|].
  apply (board_append_only sample_target sample_game 0 2 _ _ Hle);
    vm_compute; reflexivity.
Defined.

(** ** Termination of the turn loop *)

Lemma turns_left_decreases (g g' : game) (drawn played : list card) :
  turn_played g g' drawn played ->
  turns_left (next_turn g') < turns_left g.
Proof.
  intros (Hd & Hl & Hne & _ & _ & _ & _ & Ht).
  unfold turns_left. cbn [next_turn g_deck g_turn].
  rewrite Hd, length_app, Hl, Ht.
  destruct (Nat.ltb_spec 1 (g_turn g)); lia.
Qed.

(** With a target card, the turn loop returns without raising when it has
    more fuel than [turns_left]: it casts on a turn before the library runs
    out, or breaks at the start of a turn that finds the library empty. *)
Lemma turn_loop_total (id : nat) (mv on off gen : Z) (fuel : nat) :
  forall g,
    turns_left g < fuel ->
    exists ct i,
      i <= turns_left g
      /\ turn_loop fuel (TargetCard id mv on off gen) g = Some (Ok ct)
      /\ match ct with
         | Some t => t = g_turn g + i /\ i < turns_left g
         | None =>
             exists gs,
               turn_start i (TargetCard id mv on off gen) g = Some gs
               /\ g_deck gs = []
               /\ g_turn gs = g_turn g + i
         end.
Proof.
  induction fuel as [|fuel IH]; intros g Hfuel; [lia|].
  cbn [turn_loop].
  destruct (play_turn_spec id mv on off gen g)
    as [[He ->]|(g' & drawn & played & Ep & Hp)].
  - exists None, 0. split; [lia|]. split; [reflexivity|].
    exists g. cbn [turn_start]. repeat split; auto.
  - rewrite Ep.
    destruct (can_cast_spec id mv on off gen (g_board g')) as (b & -> & _).
    pose proof (turns_left_decreases _ _ _ _ Hp) as Hdec.
    destruct Hp as (_ & _ & Hne & _ & _ & _ & _ & Ht).
    destruct b.
    + exists (Some (g_turn g')), 0. split; [lia|]. split; [reflexivity|].
      split; [lia|]. lia.
    + destruct (IH (next_turn g') ltac:(lia)) as (ct & i & Hi & -> & Hct).
      exists ct, (S i). split; [lia|]. split; [reflexivity|].
      destruct ct as [t|].
      * cbn [next_turn g_turn] in Hct. lia.
      * destruct Hct as (gs & Hs & Hd & Hgt).
        exists gs. rewrite (turn_start_shift _ _ _ i Ep).
        cbn [next_turn g_turn] in Hgt. repeat split; auto. lia.
Qed.

(** The run of the turn loop, turn by turn: with a target card and more
    fuel than [turns_left], the loop returns without raising after [i] turns
    whose cast checks all failed; it then either casts on the next turn,
    whose cast check succeeds, or breaks at the start of the next turn,
    which finds the library empty. *)
Lemma turn_loop_run (id : nat) (mv on off gen : Z) (fuel : nat) :
  forall g,
    turns_left g < fuel ->
    exists ct i,
      i <= turns_left g
      /\ turn_loop fuel (TargetCard id mv on off gen) g = Some (Ok ct)
      /\ (forall j, j < i ->
            exists gj,
              turn_state j (TargetCard id mv on off gen) g = Some gj
              /\ ~ castable mv on off (g_board gj))
      /\ match ct with
         | Some t =>
             t = g_turn g + i /\ i < turns_left g
             /\ exists gt,
                  turn_state i (TargetCard id mv on off gen) g = Some gt
                  /\ castable mv on off (g_board gt)
         | None =>
             exists gs,
               turn_start i (TargetCard id mv on off gen) g = Some gs
               /\ g_turn gs = g_turn g + i
               /\ g_deck gs = []
               /\ play_turn (TargetCard id mv on off gen) gs = Ok None
         end.
Proof.
  induction fuel as [|fuel IH]; intros g Hfuel; [lia|].
  cbn [turn_loop].
  destruct (play_turn_spec id mv on off gen g)
    as [[He Hbreak]|(g' & drawn & played & Ep & Hp)].
  - rewrite Hbreak. exists None, 0. split; [lia|]. split; [reflexivity|].
    split; [intros j Hj; lia|].
    exists g. cbn [turn_start]. repeat split; auto.
  - rewrite Ep.
    destruct (can_cast_spec id mv on off gen (g_board g')) as (b & -> & Hb).
    pose proof (turns_left_decreases _ _ _ _ Hp) as Hdec.
    destruct Hp as (_ & _ & Hne & _ & _ & _ & _ & Ht).
    assert (H0 : turn_state 0 (TargetCard id mv on off gen) g = Some g')
      by (unfold turn_state; cbn [turn_start]; now rewrite Ep).
    destruct b.
    + exists (Some (g_turn g')), 0. split; [lia|]. split; [reflexivity|].
      split; [intros j Hj; lia|].
      split; [lia|]. split; [lia|].
      exists g'. split; [exact H0 | now apply Hb].
    + destruct (IH (next_turn g') ltac:(lia))
        as (ct & i & Hi & -> & Hbefore & Hct).
      exists ct, (S i). split; [lia|]. split; [reflexivity|].
      split.
      * intros [|j] Hj.
        -- exists g'. split; [exact H0|].
           intros Hc. apply Hb in Hc. discriminate.
        -- destruct (Hbefore j ltac:(lia)) as (gj & Hsj & Hnj).
           exists gj. split; [|exact Hnj].
           now rewrite (turn_state_shift _ _ _ j Ep).
      * destruct ct as [t|].
        -- destruct Hct as (Heq & Hlt & gt & Hst & Hc).
           cbn [next_turn g_turn] in Heq.
           split; [lia|]. split; [lia|].
           exists gt. split; [|exact Hc].
           now rewrite (turn_state_shift _ _ _ i Ep).
        -- destruct Hct as (gs & Hs & Hgt & Hd & Hbr).
           exists gs. rewrite (turn_start_shift _ _ _ i Ep).
           cbn [next_turn g_turn] in Hgt. repeat split; auto. lia.
Qed.

(** C7: for every valid simulation input the turn engine terminates: with
    fuel for 38 passes the turn loop returns, without raising, after [i]
    turns whose cast checks all failed, and in one of two ways only.  Either
    it returns the cast turn [1 + i], between 1 and 37, on which the cast
    check succeeds; or it takes the exit by [break], which happens at the
    start of turn [1 + i], no later than turn 38, on finding the library
    empty, so that no card can be drawn.  [simulate] then builds its result
    from that outcome. *)
Theorem turn_engine_terminates (mana_value on_color_pips off_color_pips
    on_color_land_count : Z) (w : World) (fuel : nat) :
  valid_input mana_value on_color_pips off_color_pips on_color_land_count ->
  38 <= fuel ->
  exists target_card hand deck w' kept_hand library k outcome i,
    simulate_deal mana_value on_color_pips off_color_pips
      on_color_land_count w = (Ok (target_card, hand, deck), w')
    /\ simulate_keep fuel target_card hand deck
       = Some (Ok (kept_hand, library, k))
    /\ turn_loop fuel target_card (mkGame kept_hand library [] 1)
       = Some (Ok outcome)
    /\ i <= 37
    /\ (forall j, j < i ->
          exists gj,
            turn_state j target_card (mkGame kept_hand library [] 1)
            = Some gj
            /\ ~ castable mana_value on_color_pips off_color_pips
                   (g_board gj))
    /\ match outcome with
       | Some t =>
           t = 1 + i /\ 1 <= t <= 37
           /\ exists gt,
                turn_state i target_card (mkGame kept_hand library [] 1)
                = Some gt
                /\ castable mana_value on_color_pips off_color_pips
                     (g_board gt)
       | None =>
           exists gs,
             turn_start i target_card (mkGame kept_hand library [] 1)
             = Some gs
             /\ g_turn gs = 1 + i
             /\ g_deck gs = []
             /\ play_turn target_card gs = Ok None
       end
    /\ simulate fuel mana_value on_color_pips off_color_pips
         on_color_land_count w
       = Some (make_result target_card outcome k, w').
Proof.
  intros Hv Hfuel.
  destruct (simulate_deal_ok _ _ _ _ w Hv)
    as (rest & deck & w' & Hd & Hlr & Hld & Hnr & Hnd).
  set (tc := TargetCard (next_uuid w) mana_value on_color_pips off_color_pips
               (mana_value - on_color_pips - off_color_pips)) in *.
  destruct (simulate_keep_spec tc rest deck fuel ltac:(lia) eq_refl
              Hlr Hnr Hld Hnd)
    as (hm & dm & k & tr & h & _ & _ & Hk & _ & _ & _ & Hs & _ & Hlh & _ & Hll).
  set (g0 := mkGame h (dm ++ tr) [] 1).
  assert (Hleft : turns_left g0 = 34 + k)
    by (unfold turns_left, g0; cbn [g_deck g_turn]; lia).
  destruct (turn_loop_run (next_uuid w) mana_value on_color_pips
              off_color_pips (mana_value - on_color_pips - off_color_pips)
              fuel g0 ltac:(lia))
    as (ct & i & Hi & Hl & Hbefore & Hct).
  fold tc in Hl, Hbefore, Hct.
  exists tc, (rest ++ [tc]), deck, w', h, (dm ++ tr), k, ct, i.
  split; [exact Hd|]. split; [exact Hs|]. split; [exact Hl|].
  split; [lia|]. split; [exact Hbefore|].
  split.
  - destruct ct as [t|].
    + destruct Hct as (Ht & Hlt & gt & Hst & Hc).
      change (g_turn g0) with 1 in Ht.
      split; [exact Ht|]. split; [lia|]. eauto.
    + destruct Hct as (gs & Hgs & Ht & He & Hbr).
      change (g_turn g0) with 1 in Ht.
      exists gs. auto.
  - unfold simulate. rewrite Hd, Hs. cbn [loop_bind].
    unfold simulate_play. fold g0. rewrite Hl. reflexivity.
Qed.

Lemma turn_engine_terminates_witness :
  valid_input 20 2 1 8 /\ 38 <= 38
  /\ exists target_card hand deck w' kept_hand library k outcome i,
       simulate_deal 20 2 1 8 w1 = (Ok (target_card, hand, deck), w')
       /\ simulate_keep 38 target_card hand deck
          = Some (Ok (kept_hand, library, k))
       /\ turn_loop 38 target_card (mkGame kept_hand library [] 1)
          = Some (Ok outcome)
       /\ i <= 37
       /\ (forall j, j < i ->
             exists gj,
               turn_state j target_card (mkGame kept_hand library [] 1)
               = Some gj
               /\ ~ castable 20 2 1 (g_board gj))
       /\ match outcome with
          | Some t =>
              t = 1 + i /\ 1 <= t <= 37
              /\ exists gt,
                   turn_state i target_card (mkGame kept_hand library [] 1)
                   = Some gt
                   /\ castable 20 2 1 (g_board gt)
          | None =>
              exists gs,
                turn_start i target_card (mkGame kept_hand library [] 1)
                = Some gs
                /\ g_turn gs = 1 + i
                /\ g_deck gs = []
                /\ play_turn target_card gs = Ok None
          end
       /\ simulate 38 20 2 1 8 w1
          = Some (make_result target_card outcome k, w').
Proof.
  assert (Hv : valid_input 20 2 1 8) by (unfold valid_input, LAND_COUNT; lia).
  assert (Hf : 38 <= 38) by lia.
  split; [exact Hv|]. split; [exact Hf|].
  exact (turn_engine_terminates 20 2 1 8 w1 38 Hv Hf).
Defined.

(** ** The target card through a trial *)

Lemma lands_no_target (l : list card) :
  Forall (fun c => is_land c = true) l -> no_target l.
Proof.
  intros H. eapply Forall_impl; [exact H|]. exact land_not_target.
Qed.

Lemma not_target_kinds (c : card) :
  is_target_card c = false -> is_other_card c = true \/ is_land c = true.
Proof. destruct c; simpl; auto; discriminate. Qed.

Lemma turn_played_inv (tc : card) (g g' : game) (drawn played : list card) :
  game_inv tc g -> turn_played g g' drawn played -> game_inv tc g'.
Proof.
  intros ((Ht & Hin & Hc) & Hd & Hb) (Hdk & _ & _ & Hh & Hbd & _ & Hf & _).
  rewrite Hdk in Hd. apply no_target_app in Hd as [Hdr Hd'].
  apply lands_no_target in Hf.
  split; [|split; [exact Hd'|rewrite Hbd; apply no_target_app; auto]].
  split; [exact Ht|]. split.
  - assert (Hin' : In tc (played ++ g_hand g')).
    { eapply Permutation_in; [exact Hh|]. apply in_or_app. now left. }
    apply in_app_or in Hin' as [Hp|Hg]; [|exact Hg].
    exfalso. exact (no_target_not_in tc played Ht Hf Hp).
  - pose proof (count_if_perm is_target_card _ _ Hh) as E.
    rewrite !count_if_app in E.
    apply no_target_count in Hdr, Hf. lia.
Qed.

Lemma next_turn_inv (tc : card) (g : game) :
  game_inv tc g -> game_inv tc (next_turn g).
Proof. intros H. exact H. Qed.

Lemma turn_start_inv (tc : card) (g : game) (i : nat) :
  game_inv tc g ->
  forall gs, turn_start i tc g = Some gs -> game_inv tc gs.
Proof.
  intros Hg. induction i as [|i IH]; intros gs H.
  - injection H as <-. exact Hg.
  - cbn [turn_start] in H.
    destruct (turn_start i tc g) as [g1|]; [|discriminate].
    destruct (play_turn tc g1) as [[g2|]|e] eqn:Ep; try discriminate.
    injection H as <-. apply next_turn_inv.
    apply play_turn_inv in Ep as (_ & drawn & played & Hp).
    eapply turn_played_inv; [|exact Hp]. now apply IH.
Qed.

Lemma turn_state_inv (tc : card) (g : game) (i : nat) :
  game_inv tc g ->
  forall gs, turn_state i tc g = Some gs -> game_inv tc gs.
Proof.
  intros Hg gs H. unfold turn_state in H.
  destruct (turn_start i tc g) as [g1|] eqn:Es; [|discriminate].
  destruct (play_turn tc g1) as [[g2|]|e] eqn:Ep; try discriminate.
  injection H as <-.
  apply play_turn_inv in Ep as (_ & drawn & played & Hp).
  eapply turn_played_inv; [|exact Hp].
  eapply turn_start_inv; [exact Hg | exact Es].
Qed.

Lemma game_inv_in (tc : card) (g : game) :
  game_inv tc g ->
  In tc (g_hand g) /\ ~ In tc (g_deck g) /\ ~ In tc (g_board g).
Proof.
  intros ((Ht & Hin & _) & Hd & Hb).
  split; [exact Hin|]. split; now apply no_target_not_in.
Qed.

Lemma draw_n_inv (deck : list card) (n : Z) (a b : list card) :
  draw_n deck n = Ok (a, b) ->
  a = take (Z.to_nat n) deck /\ b = drop (Z.to_nat n) deck.
Proof.
  unfold draw_n.
  destruct (n <? 1)%Z; [discriminate|].
  destruct (n >? Z.of_nat (length deck))%Z; [discriminate|].
  intros [= <- <-]. auto.
Qed.

(** A mulligan that goes through leaves the target card in the hand and
    out of the library. *)
Lemma mulligan_keeps_target (tc : card) (hand deck hand' deck' : list card) :
  holds_target tc hand -> no_target deck ->
  mulligan tc hand deck = Ok (hand', deck') ->
  holds_target tc hand' /\ no_target deck'.
Proof.
  intros Hh Hd H.
  destruct (holds_target_remove tc hand Hh) as (r & Hr & Hnt & _).
  unfold mulligan in H. rewrite Hr in H. cbn [res_bind] in H.
  destruct (draw_n (deck ++ r) 6) as [[a b]|e] eqn:E; [|discriminate].
  cbn [res_bind] in H. injection H as <- <-.
  apply draw_n_inv in E as [-> ->].
  assert (Hall : no_target (deck ++ r)) by (apply no_target_app; auto).
  split.
  - apply holds_target_app; [apply Hh | now apply no_target_take].
  - now apply no_target_drop.
Qed.

(** C10: in every trial on a valid input the target card is never returned
    to the library.  Every mulligan that starts with the target card in the
    hand ends with it in the hand and not in the library; after the mulligan
    loop the target card is in the hand; the trim step sets aside only
    filler cards and lands; and at the start of every turn and at every
    cast check the target card is in the hand, not in the library and not
    on the board. *)
Theorem target_card_stays_in_hand (mana_value on_color_pips off_color_pips
    on_color_land_count : Z) (w : World) (fuel : nat) :
  valid_input mana_value on_color_pips off_color_pips on_color_land_count ->
  4 <= fuel ->
  exists target_card hand deck w' hm dm k to_return kept_hand,
    simulate_deal mana_value on_color_pips off_color_pips
      on_color_land_count w = (Ok (target_card, hand, deck), w')
    /\ (forall hand1 deck1 hand2 deck2,
          holds_target target_card hand1 -> no_target deck1 ->
          mulligan target_card hand1 deck1 = Ok (hand2, deck2) ->
          In target_card hand2 /\ ~ In target_card deck2)
    /\ mulligan_loop fuel target_card 0 hand deck = Some (Ok (hm, dm, k))
    /\ In target_card hm /\ ~ In target_card dm
    /\ trim_loop fuel k [] hm = Some (Ok (to_return, kept_hand))
    /\ Forall (fun c => is_other_card c = true \/ is_land c = true) to_return
    /\ simulate_keep fuel target_card hand deck
       = Some (Ok (kept_hand, dm ++ to_return, k))
    /\ In target_card kept_hand /\ ~ In target_card (dm ++ to_return)
    /\ (forall i gs,
          turn_start i target_card (mkGame kept_hand (dm ++ to_return) [] 1)
          = Some gs
          \/ turn_state i target_card (mkGame kept_hand (dm ++ to_return) [] 1)
             = Some gs ->
          In target_card (g_hand gs)
          /\ ~ In target_card (g_deck gs)
          /\ ~ In target_card (g_board gs)).
Proof.
  intros Hv Hfuel.
  destruct (simulate_deal_ok _ _ _ _ w Hv)
    as (rest & deck & w' & Hd & Hlr & Hld & Hnr & Hnd).
  set (tc := TargetCard (next_uuid w) mana_value on_color_pips off_color_pips
               (mana_value - on_color_pips - off_color_pips)) in *.
  destruct (simulate_keep_spec tc rest deck fuel Hfuel eq_refl
              Hlr Hnr Hld Hnd)
    as (hm & dm & k & tr & h & Hm & Hkept & Hk & Ht & Hntr & _ & Hs & Hh & _ & Hnl & _).
  destruct Hkept as (Hhm & _ & Hndm & _).
  exists tc, (rest ++ [tc]), deck, w', hm, dm, k, tr, h.
  split; [exact Hd|].
  split.
  { intros hand1 deck1 hand2 deck2 H1 H2 H3.
    destruct (mulligan_keeps_target _ _ _ _ _ H1 H2 H3) as [A B].
    split; [apply A | now apply no_target_not_in]. }
  split; [exact Hm|].
  split; [apply Hhm|]. split; [now apply no_target_not_in|].
  split; [exact Ht|].
  split; [eapply Forall_impl; [exact Hntr | exact not_target_kinds]|].
  split; [exact Hs|].
  split; [apply Hh|]. split; [now apply no_target_not_in|].
  assert (Hg0 : game_inv tc (mkGame h (dm ++ tr) [] 1)).
  { split; [exact Hh|]. split; [exact Hnl | constructor]. }
  intros i gs [H|H]; apply game_inv_in.
  - eapply turn_start_inv; [exact Hg0 | exact H].
  - eapply turn_state_inv; [exact Hg0 | exact H].
Qed.

Lemma target_card_stays_in_hand_witness :
  valid_input 3 2 1 8 /\ 4 <= 4
  /\ exists target_card hand deck w' hm dm k to_return kept_hand,
    simulate_deal 3 2 1 8 w1 = (Ok (target_card, hand, deck), w')
    /\ (forall hand1 deck1 hand2 deck2,
          holds_target target_card hand1 -> no_target deck1 ->
          mulligan target_card hand1 deck1 = Ok (hand2, deck2) ->
          In target_card hand2 /\ ~ In target_card deck2)
    /\ mulligan_loop 4 target_card 0 hand deck = Some (Ok (hm, dm, k))
    /\ In target_card hm /\ ~ In target_card dm
    /\ trim_loop 4 k [] hm = Some (Ok (to_return, kept_hand))
    /\ Forall (fun c => is_other_card c = true \/ is_land c = true) to_return
    /\ simulate_keep 4 target_card hand deck
       = Some (Ok (kept_hand, dm ++ to_return, k))
    /\ In target_card kept_hand /\ ~ In target_card (dm ++ to_return)
    /\ (forall i gs,
          turn_start i target_card (mkGame kept_hand (dm ++ to_return) [] 1)
          = Some gs
          \/ turn_state i target_card (mkGame kept_hand (dm ++ to_return) [] 1)
             = Some gs ->
          In target_card (g_hand gs)
          /\ ~ In target_card (g_deck gs)
          /\ ~ In target_card (g_board gs)).
Proof.
  assert (Hv : valid_input 3 2 1 8) by (unfold valid_input, LAND_COUNT; lia).
  assert (Hf : 4 <= 4) by lia.
  split; [exact Hv|]. split; [exact Hf|].
  exact (target_card_stays_in_hand 3 2 1 8 w1 4 Hv Hf).
Defined.

Lemma mulligan_count_at_most_three_witness :
  4 <= 4 /\ is_target_card sample_target = true
  /\ length sample_drawn = 6 /\ no_target sample_drawn
  /\ length sample_library = 33 /\ no_target sample_library
  /\ (forall any_target any_hand any_deck,
        exists r,
          mulligan_loop 4 any_target 0 any_hand any_deck = Some r
          /\ match r with
             | Ok (_, _, k) => k <= 3
             | Raise _ => True
             end)
  /\ exists kept_hand library k,
       simulate_keep 4 sample_target (sample_drawn ++ [sample_target])
         sample_library
       = Some (Ok (kept_hand, library, k))
       /\ k <= 3
       /\ 4 <= length kept_hand.
Proof.
  assert (H1 : 4 <= 4) by lia.
  assert (H2 : is_target_card sample_target = true) by reflexivity.
  assert (H3 : length sample_drawn = 6) by reflexivity.
  assert (H4 : no_target sample_drawn) by (repeat constructor).
  assert (H5 : length sample_library = 33) by reflexivity.
  assert (H6 : no_target sample_library) by (repeat constructor).
  repeat (split; [assumption|]).
  exact (mulligan_count_at_most_three sample_target sample_drawn
           sample_library 4 H1 H2 H3 H4 H5 H6).
Defined.

(** ** Trial orchestrator *)

Module OrchestratorFacts.

Import QArith_base.
Import Orchestrator.

Lemma collect_non_discarded (fut_results : list (option trial)) :
  collect fut_results = non_discarded fut_results.
Proof.
  induction fut_results as [|[r|] rest IH]; simpl; congruence.
Qed.

Lemma dropna_cast_turn (results : list trial) :
  dropna (column_cast_turn results)
  = map turn_of (List.filter was_cast results).
Proof.
  induction results as [|r rest IH]; [reflexivity|].
  unfold column_cast_turn in *. cbn [map].
  destruct r as [[t|] mv on off g mc];
    cbn [List.filter was_cast cast_turn option_map dropna map];
    rewrite IH; reflexivity.
Qed.

Lemma dropna_mulligan_count (results : list trial) :
  dropna (column_mulligan_count results)
  = map (fun r => float_of_nat (mulligan_count r)) results.
Proof.
  induction results as [|r rest IH]; [reflexivity|].
  unfold column_mulligan_count in *. simpl. now rewrite IH.
Qed.

Lemma series_mean_map (f : trial -> Q) (col : list (option Q))
    (rs : list trial) :
  dropna col = map f rs -> series_mean col = mean_over f rs.
Proof.
  intros H. unfold series_mean, mean_over. rewrite H.
  destruct rs as [|r rs]; [reflexivity|].
  cbn [map]. now rewrite <- (length_map f (r :: rs)).
Qed.

(** The two averages of a summary, in terms of the list of trial results. *)
Lemma summarize_means (mv on off n num : Z) (results : list trial)
    (agg : aggregate) :
  summarize mv on off n num results = Some agg ->
  average_cast_turn agg
  = mean_over turn_of (List.filter was_cast results)
  /\ average_mulligan_count agg
     = mean_over (fun r => float_of_nat (mulligan_count r)) results.
Proof.
  unfold summarize. destruct (0 <? length results); [|discriminate].
  intros [= <-]. cbn [average_cast_turn average_mulligan_count]. split.
  - apply series_mean_map, dropna_cast_turn.
  - apply series_mean_map, dropna_mulligan_count.
Qed.

Lemma run_workers_length (fuel : nat) (mv on off n : Z) (k : nat) :
  forall w futs w',
    run_workers fuel mv on off n k w = Some (futs, w') -> length futs = k.
Proof.
  induction k as [|k IH]; intros w futs w' H; simpl in H.
  - now injection H as <- <-.
  - destruct (worker fuel mv on off n w) as [[r w1]|]; [|discriminate].
    destruct (run_workers fuel mv on off n k w1) as [[rs w2]|] eqn:E;
      [|discriminate].
    injection H as <- <-. simpl. f_equal. eapply IH. exact E.
Qed.

(** C8: in every aggregate that the orchestrator produces,
    [average_cast_turn] is the mean of the cast turn over the trials that
    were not discarded and did cast the card (no value when there is none),
    and [average_mulligan_count] is the mean of the mulligan count over all
    the trials that were not discarded, cast or not. *)
Theorem aggregate_averages (fuel : nat) (mana_value on_color_pips
    off_color_pips on_color_land_count num_simulations : Z) (w w' : World)
    (agg : aggregate) :
  run_simulations fuel mana_value on_color_pips off_color_pips
    on_color_land_count num_simulations w = Some (Ok (Some agg), w') ->
  exists fut_results,
    run_workers fuel mana_value on_color_pips off_color_pips
      on_color_land_count (Z.to_nat num_simulations) w
    = Some (fut_results, w')
    /\ Z.of_nat (length fut_results) = num_simulations
    /\ average_cast_turn agg
       = mean_over turn_of
           (List.filter was_cast (non_discarded fut_results))
    /\ average_mulligan_count agg
       = mean_over (fun r => float_of_nat (mulligan_count r))
           (non_discarded fut_results).
Proof.
  unfold run_simulations.
  destruct (mana_value <? 1)%Z; [discriminate|].
  destruct (on_color_pips <? 1)%Z; [discriminate|].
  destruct (off_color_pips <? 0)%Z; [discriminate|].
  destruct (on_color_land_count <? 1)%Z; [discriminate|].
  destruct (on_color_land_count >? LAND_COUNT)%Z; [discriminate|].
  destruct (Z.ltb_spec num_simulations 1) as [|Hnum]; [discriminate|].
  destruct (on_color_pips + off_color_pips >? mana_value)%Z; [discriminate|].
  destruct (run_workers _ _ _ _ _ _ w) as [[futs w2]|] eqn:E; [|discriminate].
  intros [= Hs <-].
  exists futs. split; [reflexivity|].
  split; [rewrite (run_workers_length _ _ _ _ _ _ _ _ _ E); lia|].
  rewrite <- collect_non_discarded. eapply summarize_means. exact Hs.
Qed.

Lemma aggregate_averages_witness :
  exists agg w',
    run_simulations 40 3 2 1 8 3 w1 = Some (Ok (Some agg), w')
    /\ exists fut_results,
         run_workers 40 3 2 1 8 (Z.to_nat 3) w1 = Some (fut_results, w')
         /\ Z.of_nat (length fut_results) = 3%Z
         /\ average_cast_turn agg
            = mean_over turn_of
                (List.filter was_cast (non_discarded fut_results))
         /\ average_mulligan_count agg
            = mean_over (fun r => float_of_nat (mulligan_count r))
                (non_discarded fut_results).
Proof.
  eexists _, _. split; [vm_compute; reflexivity|].
  apply (aggregate_averages 40 3 2 1 8 3 w1).
  vm_compute; reflexivity.
Defined.

End OrchestratorFacts.


(** * Further properties of the code *)

(** ** Card model and drawing *)

(** [get_target_card] returns a card exactly when the mana value is at
    least 1, the on-color pips at least 1, the off-color pips and the
    generic part at least 0 and the three parts add up to the mana value;
    the card then carries the arguments and a fresh identifier.  Otherwise
    it raises a [ValueError] and no identifier is consumed. *)
Theorem get_target_card_contract (mana_value on_color_pips off_color_pips
    generic : Z) (w : World) :
  match get_target_card mana_value on_color_pips off_color_pips generic w with
  | (Ok c, w') =>
      (1 <= mana_value /\ 1 <= on_color_pips /\ 0 <= off_color_pips
       /\ 0 <= generic
       /\ on_color_pips + off_color_pips + generic = mana_value)%Z
      /\ c = TargetCard (next_uuid w) mana_value on_color_pips
               off_color_pips generic
      /\ w' = mkWorld (S (next_uuid w)) (rng w)
  | (Raise e, w') =>
      ~ (1 <= mana_value /\ 1 <= on_color_pips /\ 0 <= off_color_pips
         /\ 0 <= generic
         /\ on_color_pips + off_color_pips + generic = mana_value)%Z
      /\ (exists msg, e = ValueError msg)
      /\ w' = w
  end.
Proof.
  unfold get_target_card.
  destruct (Z.ltb_spec mana_value 1);
    [split; [lia|]; split; [eexists|]; reflexivity|].
  destruct (Z.ltb_spec on_color_pips 1);
    [split; [lia|]; split; [eexists|]; reflexivity|].
  destruct (Z.ltb_spec off_color_pips 0);
    [split; [lia|]; split; [eexists|]; reflexivity|].
  destruct (Z.ltb_spec generic 0);
    [split; [lia|]; split; [eexists|]; reflexivity|].
  destruct (Z.eqb_spec (on_color_pips + off_color_pips + generic) mana_value);
    cbn [negb];
    [|split; [lia|]; split; [eexists|]; reflexivity].
  cbn. repeat split; auto.
Qed.

(** X1: [draw_n] either splits the deck into its first [n] cards and the
    rest, in order, for [1 <= n <= len(deck)], or raises a [ValueError],
    which it does exactly when [n < 1] or [n > len(deck)]. *)
Theorem draw_n_contract (deck : list card) (n : Z) :
  match draw_n deck n with
  | Ok (cards_drawn, rest) =>
      (1 <= n <= Z.of_nat (length deck))%Z
      /\ cards_drawn ++ rest = deck
      /\ Z.of_nat (length cards_drawn) = n
  | Raise e =>
      (n < 1 \/ Z.of_nat (length deck) < n)%Z
      /\ exists msg, e = ValueError msg
  end.
Proof.
  unfold draw_n.
  destruct (Z.ltb_spec n 1); [split; [lia | eexists; reflexivity]|].
  destruct (Z.gtb_spec n (Z.of_nat (length deck)));
    [split; [lia | eexists; reflexivity]|].
  split; [lia|]. split; [apply take_drop|].
  rewrite length_take. lia.
Qed.

(** ** The shuffle *)

Lemma random_interval_rng (i : nat) (w : World) :
  exists j w' k,
    random_interval i w = (Ok j, w')
    /\ next_uuid w' = next_uuid w
    /\ k <= 1 /\ rng w' = drop k (rng w).
Proof.
  unfold random_interval. destruct (rng w) as [|r rs] eqn:E.
  - exists 0, w, 0. rewrite E. repeat split; auto.
  - eexists _, _, 1. split; [reflexivity|]. repeat split; auto.
Qed.

Lemma swap_length (i j : nat) (x : list card) :
  length (swap i j x) = length x.
Proof. now rewrite (swap_perm i j x). Qed.

Lemma shuffle_from_rng (i : nat) :
  forall x w, exists y w' k,
    shuffle_from i x w = (Ok y, w')
    /\ y ≡ₚ x
    /\ next_uuid w' = next_uuid w
    /\ k <= i /\ rng w' = drop k (rng w).
Proof.
  induction i as [|i IH]; intros x w; cbn [shuffle_from].
  - exists x, w, 0. repeat split; auto.
  - destruct (random_interval_rng (S i) w) as (j & w1 & k1 & Hj & Hu & Hk & Hr).
    unfold bind. rewrite Hj.
    destruct (IH (swap (S i) j x) w1) as (y & w' & k & Hy & Hp & Hu' & Hk' & Hr').
    exists y, w', (k1 + k). split; [exact Hy|].
    split; [rewrite Hp; apply swap_perm|].
    split; [congruence|]. split; [lia|].
    rewrite Hr', Hr, drop_drop. reflexivity.
Qed.

(** The shuffle never raises and returns a permutation of its input: no
    card is lost, added or duplicated.  It uses no identifier and takes at
    most [len(x) - 1] numbers from the front of the generator; a list of at
    most one card comes back as it is with the generator untouched. *)
Theorem shuffle_permutes (x : list card) (w : World) :
  exists y w' k,
    shuffle x w = (Ok y, w')
    /\ y ≡ₚ x
    /\ length y = length x
    /\ next_uuid w' = next_uuid w
    /\ k <= length x - 1
    /\ rng w' = drop k (rng w)
    /\ (length x <= 1 -> y = x /\ w' = w).
Proof.
  unfold shuffle.
  destruct (shuffle_from_rng (Nat.pred (length x)) x w)
    as (y & w' & k & Hs & Hp & Hu & Hk & Hr).
  exists y, w', k. split; [exact Hs|]. split; [exact Hp|].
  split; [now rewrite Hp|]. split; [exact Hu|].
  split; [lia|]. split; [exact Hr|].
  intros Hle.
  replace (Nat.pred (length x)) with 0 in Hs by lia.
  cbn in Hs. injection Hs as <- <-. auto.
Qed.

(** ** Identifiers in the deck *)

Section AppendIds.

Variable mk : M card.
Hypothesis mk_fresh :
  forall w, exists c,
    mk w = (Ok c, mkWorld (S (next_uuid w)) (rng w))
    /\ card_id c = next_uuid w.

Lemma append_n_ids (n : nat) :
  forall deck w, exists cs,
    append_n n mk deck w
    = (Ok (deck ++ cs), mkWorld (n + next_uuid w) (rng w))
    /\ map card_id cs = seq (next_uuid w) n.
Proof.
  induction n as [|n IH]; intros deck w; cbn [append_n].
  - exists []. rewrite app_nil_r. destruct w; auto.
  - destruct (mk_fresh w) as (c & Hc & Hid).
    unfold bind. rewrite Hc.
    destruct (IH (deck ++ [c]) (mkWorld (S (next_uuid w)) (rng w)))
      as (cs & Hcs & Hids).
    exists (c :: cs). rewrite Hcs. cbn [next_uuid rng] in *.
    rewrite <- app_assoc. cbn [app map seq].
    split; [f_equal; f_equal; lia|].
    now rewrite Hid, Hids.
Qed.

End AppendIds.

Lemma get_land_fresh (b : bool) (w : World) :
  exists c, get_land b w = (Ok c, mkWorld (S (next_uuid w)) (rng w))
            /\ card_id c = next_uuid w.
Proof. eexists. split; reflexivity. Qed.

Lemma get_other_card_fresh (w : World) :
  exists c, get_other_card w = (Ok c, mkWorld (S (next_uuid w)) (rng w))
            /\ card_id c = next_uuid w.
Proof. eexists. split; reflexivity. Qed.

(** A deck that is returned is a shuffle of 39 cards numbered from the
    first free identifier on. *)
Lemma get_deck_ids (tc : card) (n : Z) (w w' : World) (deck : list card) :
  get_deck tc n w = (Ok deck, w') ->
  exists built,
    deck ≡ₚ built /\ map card_id built = seq (next_uuid w) 39.
Proof.
  intros H.
  pose proof (get_deck_ok_inv _ _ _ _ _ H)
    as (Hn & (id & mv & on & off & g & -> & Hon & Hoff) & _).
  revert H.
  cbv beta iota delta
    [get_deck bind lift get_on_color_pips get_off_color_pips get_land_split].
  destruct (Z.ltb_spec n on) as [?|_]; [lia|].
  destruct (Z.ltb_spec (LAND_COUNT - n) off) as [?|_]; [lia|].
  destruct (Z.ltb_spec n 1) as [?|_]; [lia|].
  cbn [fst snd].
  destruct (append_n_ids (get_land true) (get_land_fresh true)
              (Z.to_nat n) [] w) as (ons & -> & I1).
  match goal with
  | |- context [append_n ?k (get_land false) ?d ?v] =>
      destruct (append_n_ids (get_land false) (get_land_fresh false) k d v)
        as (offs & -> & I2)
  end.
  match goal with
  | |- context [append_n ?k get_other_card ?d ?v] =>
      destruct (append_n_ids get_other_card get_other_card_fresh k d v)
        as (others & -> & I3)
  end.
  cbn [next_uuid rng] in *.
  change (Z.to_nat (DECK_SIZE - LAND_COUNT - 1)) with 22 in *.
  rewrite app_nil_l.
  assert (Hids : map card_id ((ons ++ offs) ++ others)
                 = seq (next_uuid w) 39).
  { rewrite !map_app, I1, I2, I3.
    replace 39 with (Z.to_nat n + (Z.to_nat (LAND_COUNT - n) + 22))
      by (unfold LAND_COUNT in *; lia).
    rewrite !seq_app, <- app_assoc.
    f_equal. f_equal; f_equal; lia. }
  destruct (negb _); [discriminate|].
  match goal with
  | |- shuffle ?b ?v = _ -> _ =>
      destruct (shuffle_spec b v) as (y & w2 & -> & Hp & _)
  end.
  intros [= <- <-]. eauto.
Qed.

(** With identifiers handed out by a counter, the cards of a deck returned
    by [get_deck] have pairwise distinct identifiers, the 39 that follow
    the last one handed out; hence no two cards of the deck are equal. *)
Theorem get_deck_distinct_ids (target_card : card) (on_color_land_count : Z)
    (w w' : World) (deck : list card) :
  get_deck target_card on_color_land_count w = (Ok deck, w') ->
  NoDup (map card_id deck)
  /\ (forall c, In c deck ->
        next_uuid w <= card_id c < next_uuid w + 39)
  /\ next_uuid w' = 39 + next_uuid w
  /\ NoDup deck.
Proof.
  intros H.
  destruct (get_deck_ids _ _ _ _ _ H) as (built & Hp & Hids).
  assert (Hmap : map card_id deck ≡ₚ seq (next_uuid w) 39)
    by (rewrite <- Hids; now apply Permutation_map).
  assert (Hnd : NoDup (map card_id deck)).
  { rewrite Hmap. apply NoDup_ListNoDup, List.seq_NoDup. }
  split; [exact Hnd|]. split; [|split].
  - intros c Hc.
    assert (Hi : In (card_id c) (seq (next_uuid w) 39)).
    { eapply Permutation_in; [exact Hmap|]. now apply List.in_map. }
    apply List.in_seq in Hi. lia.
  - now apply get_deck_ok_inv in H.
  - eapply NoDup_fmap_1. exact Hnd.
Qed.

Lemma get_deck_distinct_ids_witness :
  exists deck w',
    get_deck sample_target 8 w1 = (Ok deck, w')
    /\ NoDup (map card_id deck)
    /\ (forall c, In c deck ->
          next_uuid w1 <= card_id c < next_uuid w1 + 39)
    /\ next_uuid w' = 39 + next_uuid w1
    /\ NoDup deck.
Proof.
  eexists _, _. split; [vm_compute; reflexivity|].
  apply (get_deck_distinct_ids sample_target 8 w1).
  vm_compute; reflexivity.
Defined.

(** ** Mulligan policy *)

Lemma list_remove_ok_perm_app (x : card) (l r : list card) (deck : list card) :
  list_remove x l = Ok r -> x :: deck ++ r ≡ₚ l ++ deck.
Proof.
  intros H. apply list_remove_perm in H. rewrite H. cbn [app].
  constructor. apply Permutation_app_comm.
Qed.

(** A mulligan that goes through neither adds nor loses a card. *)
Lemma mulligan_perm (tc : card) (hand deck hand' deck' : list card) :
  mulligan tc hand deck = Ok (hand', deck') ->
  hand' ++ deck' ≡ₚ hand ++ deck.
Proof.
  unfold mulligan.
  destruct (list_remove tc hand) as [r|e] eqn:Hr; [|discriminate].
  cbn [res_bind].
  destruct (draw_n (deck ++ r) 6) as [[a b]|e] eqn:Hd; [|discriminate].
  cbn [res_bind]. intros [= <- <-].
  apply draw_n_inv in Hd as [-> ->].
  rewrite <- (list_remove_ok_perm_app tc hand r deck Hr).
  rewrite <- app_assoc. cbn [app].
  rewrite <- Permutation_middle. constructor.
  now rewrite take_drop.
Qed.

(** X2: a mulligan does not reshuffle.  With the target card in the hand
    and at least six cards in the library, the new hand is the next six
    cards of the library followed by the target card, and the new library
    is the rest of the old one followed by the other cards of the old hand,
    in their order. *)
Theorem mulligan_draws_next_six (target_card : card) (hand deck : list card) :
  In target_card hand -> 6 <= length deck ->
  exists rest,
    list_remove target_card hand = Ok rest
    /\ mulligan target_card hand deck
       = Ok (take 6 deck ++ [target_card], drop 6 deck ++ rest).
Proof.
  intros Hin Hlen.
  destruct (list_remove_in target_card hand Hin) as (rest & Hr).
  exists rest. split; [exact Hr|].
  unfold mulligan. rewrite Hr. cbn [res_bind].
  change 6%Z with (Z.of_nat 6).
  rewrite draw_n_ok by (rewrite length_app; lia).
  cbn [res_bind].
  rewrite take_app_le, drop_app_le by lia. reflexivity.
Qed.

Lemma mulligan_draws_next_six_witness :
  In sample_target (sample_drawn ++ [sample_target])
  /\ 6 <= length sample_library
  /\ exists rest,
       list_remove sample_target (sample_drawn ++ [sample_target]) = Ok rest
       /\ mulligan sample_target (sample_drawn ++ [sample_target])
            sample_library
          = Ok (take 6 sample_library ++ [sample_target],
                drop 6 sample_library ++ rest).
Proof.
  assert (H1 : In sample_target (sample_drawn ++ [sample_target]))
    by (apply in_or_app; right; now left).
  assert (H2 : 6 <= length sample_library) by (vm_compute; lia).
  split; [exact H1|]. split; [exact H2|].
  exact (mulligan_draws_next_six sample_target
           (sample_drawn ++ [sample_target]) sample_library H1 H2).
Defined.

(** What the mulligan loop has established when it returns. *)
Lemma mulligan_loop_exit (tc : card) (fuel : nat) :
  forall mc hand deck h d k,
    mulligan_loop fuel tc mc hand deck = Some (Ok (h, d, k)) ->
    mc <= k
    /\ (k = mc -> h = hand /\ d = deck)
    /\ (mc <= 1 -> 0 < count_if is_on_color_land hand -> k = mc)
    /\ (k <= 1 -> 0 < count_if is_on_color_land h)
    /\ (k = 2 ->
        0 < count_if is_on_color_land h + count_if is_off_color_land h)
    /\ (mc <= 3 -> k <= 3)
    /\ h ++ d ≡ₚ hand ++ deck.
Proof.
  induction fuel as [|fuel IH]; intros mc hand deck h d k H; [discriminate|].
  cbn [mulligan_loop] in H.
  destruct (((mc =? 0) || (mc =? 1))
            && (count_if is_on_color_land hand =? 0)) eqn:E1.
  { apply andb_prop in E1 as [E1 E1'].
    assert (Hmc : mc <= 1).
    { apply orb_prop in E1 as [E|E]; apply Nat.eqb_eq in E; lia. }
    apply Nat.eqb_eq in E1'.
    destruct (mulligan tc hand deck) as [[h1 d1]|e] eqn:Em; [|discriminate].
    destruct (IH _ _ _ _ _ _ H) as (A & B & C & D & E & F & G).
    split; [lia|]. split; [lia|]. split; [lia|].
    split; [exact D|]. split; [exact E|]. split; [lia|].
    rewrite G. eapply mulligan_perm. exact Em. }
  destruct ((mc =? 2)
            && (count_if is_on_color_land hand
                + count_if is_off_color_land hand =? 0)) eqn:E2.
  { apply andb_prop in E2 as [E2 E2']. apply Nat.eqb_eq in E2.
    destruct (mulligan tc hand deck) as [[h1 d1]|e] eqn:Em; [|discriminate].
    destruct (IH _ _ _ _ _ _ H) as (A & B & C & D & E & F & G).
    split; [lia|]. split; [lia|]. split; [lia|].
    split; [exact D|]. split; [exact E|]. split; [lia|].
    rewrite G. eapply mulligan_perm. exact Em. }
  assert (Hret : h = hand /\ d = deck /\ k = mc).
  { destruct (mc =? 3); injection H as <- <- <-; auto. }
  destruct Hret as (-> & -> & ->).
  split; [lia|]. split; [auto|]. split; [auto|].
  apply andb_false_iff in E1, E2.
  split.
  - intros Hk. destruct E1 as [E1|E1].
    + apply orb_false_elim in E1 as [A B].
      apply Nat.eqb_neq in A, B. lia.
    + apply Nat.eqb_neq in E1. lia.
  - split; [|split; [auto | reflexivity]].
    intros ->. destruct E2 as [E2|E2]; [discriminate|].
    apply Nat.eqb_neq in E2. lia.
Qed.

(** X3: the keep decision.  When the mulligan loop returns hand [h] after
    [k] mulligans: with [k = 0] the opening hand and the library are
    untouched; an opening hand that holds an on-color land is always kept;
    a hand kept after at most one mulligan holds an on-color land, a hand
    kept after two holds a land of either color; and [k <= 3]. *)
Theorem mulligan_keep_decision (fuel : nat) (target_card : card)
    (hand deck h d : list card) (k : nat) :
  mulligan_loop fuel target_card 0 hand deck = Some (Ok (h, d, k)) ->
  (k = 0 -> h = hand /\ d = deck)
  /\ (0 < count_if is_on_color_land hand -> k = 0)
  /\ (k <= 1 -> 0 < count_if is_on_color_land h)
  /\ (k = 2 -> 0 < count_if is_on_color_land h + count_if is_off_color_land h)
  /\ k <= 3.
Proof.
  intros H.
  destruct (mulligan_loop_exit _ _ _ _ _ _ _ _ H) as (_ & B & C & D & E & F & _).
  split; [exact B|]. split; [intros Hon; apply C; [lia | exact Hon]|].
  split; [exact D|]. split; [exact E|]. apply F. lia.
Qed.

Lemma mulligan_keep_decision_witness :
  exists h d k,
    mulligan_loop 4 sample_target 0 (sample_drawn ++ [sample_target])
      sample_library = Some (Ok (h, d, k))
    /\ (k = 0 -> h = sample_drawn ++ [sample_target] /\ d = sample_library)
    /\ (0 < count_if is_on_color_land (sample_drawn ++ [sample_target])
        -> k = 0)
    /\ (k <= 1 -> 0 < count_if is_on_color_land h)
    /\ (k = 2 ->
        0 < count_if is_on_color_land h + count_if is_off_color_land h)
    /\ k <= 3.
Proof.
  eexists _, _, _. split; [vm_compute; reflexivity|].
  apply (mulligan_keep_decision 4 sample_target
           (sample_drawn ++ [sample_target]) sample_library).
  vm_compute; reflexivity.
Defined.

(** ** Trim priority *)

Lemma existsb_false_perm_cons (p : card -> bool) (c : card)
    (l l' : list card) :
  l ≡ₚ c :: l' -> existsb p l = false -> existsb p l' = false.
Proof.
  intros Hp H. apply not_true_is_false. intros Ht.
  apply List.existsb_exists in Ht as (x & Hx & Hpx).
  assert (Hin : In x l).
  { eapply Permutation_in; [symmetry; exact Hp|]. now right. }
  assert (existsb p l = true)
    by (apply List.existsb_exists; eauto).
  congruence.
Qed.

(** One pass that finds a card never raises, whatever the hand. *)
Lemma return_one_any (p : card -> bool) (to_return hand : list card) :
  existsb p hand = true ->
  exists c hand',
    return_one p to_return hand = Ok (to_return ++ [c], hand')
    /\ p c = true /\ hand ≡ₚ c :: hand'.
Proof.
  intros Hex.
  destruct (next_card_found p hand Hex) as (c & Hn & Hpc & Hin).
  destruct (list_remove_in c hand Hin) as (hand' & Hr).
  exists c, hand'. unfold return_one. rewrite Hn. cbn [res_bind].
  rewrite Hr. cbn [res_bind].
  split; [reflexivity|]. split; [exact Hpc|]. now apply list_remove_perm.
Qed.

Lemma trim_priority_other (to_return hand hand' : list card) (c : card) :
  trim_priority to_return hand ->
  existsb is_other_card hand = true ->
  is_other_card c = true -> hand ≡ₚ c :: hand' ->
  trim_priority (to_return ++ [c]) hand'.
Proof.
  intros (F & O & N & -> & HF & HO & HN & H1 & H2) Hex Hc Hp.
  assert (HON : O ++ N = []).
  { destruct (O ++ N) eqn:E; [reflexivity|].
    rewrite H1 in Hex; [discriminate|discriminate]. }
  apply app_eq_nil in HON as [-> ->].
  exists (F ++ [c]), [], []. rewrite !app_nil_r.
  split; [reflexivity|].
  split; [apply Forall_app; split; [exact HF | repeat constructor; exact Hc]|].
  repeat split; auto; intros Hne; now contradiction Hne.
Qed.

Lemma trim_priority_off (to_return hand hand' : list card) (c : card) :
  trim_priority to_return hand ->
  existsb is_other_card hand = false ->
  existsb is_off_color_land hand = true ->
  is_off_color_land c = true -> hand ≡ₚ c :: hand' ->
  trim_priority (to_return ++ [c]) hand'.
Proof.
  intros (F & O & N & -> & HF & HO & HN & H1 & H2) Hno Hex Hc Hp.
  assert (HNn : N = []).
  { destruct N; [reflexivity|].
    rewrite H2 in Hex; [discriminate|discriminate]. }
  subst N. rewrite app_nil_r.
  exists F, (O ++ [c]), []. rewrite !app_nil_r, app_assoc.
  split; [reflexivity|]. split; [exact HF|].
  split; [apply Forall_app; split; [exact HO | repeat constructor; exact Hc]|].
  split; [constructor|].
  split; [intros _; eapply existsb_false_perm_cons; eauto|].
  intros Hne; now contradiction Hne.
Qed.

Lemma trim_priority_on (to_return hand hand' : list card) (c : card) :
  trim_priority to_return hand ->
  existsb is_other_card hand = false ->
  existsb is_off_color_land hand = false ->
  is_on_color_land c = true -> hand ≡ₚ c :: hand' ->
  trim_priority (to_return ++ [c]) hand'.
Proof.
  intros (F & O & N & -> & HF & HO & HN & H1 & H2) Hno1 Hno2 Hc Hp.
  exists F, O, (N ++ [c]). rewrite <- !app_assoc.
  split; [reflexivity|]. split; [exact HF|]. split; [exact HO|].
  split; [apply Forall_app; split; [exact HN | repeat constructor; exact Hc]|].
  split; intros _; eapply existsb_false_perm_cons; eauto.
Qed.

(** The trim loop never raises; when it returns it has moved cards from
    the hand to [to_return] in priority order. *)
Lemma trim_loop_priority (k fuel : nat) :
  forall to_return hand r,
    trim_loop fuel k to_return hand = Some r ->
    trim_priority to_return hand ->
    exists tr h,
      r = Ok (tr, h)
      /\ hand ++ to_return ≡ₚ h ++ tr
      /\ trim_priority tr h
      /\ (k = 0 -> tr = to_return /\ h = hand)
      /\ (0 < k -> length to_return <= k -> length tr = k).
Proof.
  induction fuel as [|fuel IH]; intros to_return hand r H Hinv; [discriminate|].
  cbn [trim_loop] in H.
  destruct (Nat.eqb_spec k 0) as [->|Hk0].
  { injection H as <-. exists to_return, hand.
    repeat split; auto. lia. }
  destruct (Nat.eqb_spec (length to_return) k) as [Hdone|Hmore].
  { injection H as <-. exists to_return, hand.
    repeat split; auto; lia. }
  assert (Hstep : forall p,
            existsb p hand = true ->
            (forall c hand', p c = true -> hand ≡ₚ c :: hand' ->
                             trim_priority (to_return ++ [c]) hand') ->
            match return_one p to_return hand with
            | Ok (to_return0, hand0) => trim_loop fuel k to_return0 hand0
            | Raise e => Some (Raise e)
            end = Some r ->
            exists tr h,
              r = Ok (tr, h)
              /\ hand ++ to_return ≡ₚ h ++ tr
              /\ trim_priority tr h
              /\ (k = 0 -> tr = to_return /\ h = hand)
              /\ (0 < k -> length to_return <= k -> length tr = k)).
  { intros p Hex Hnext Hrun.
    destruct (return_one_any p to_return hand Hex)
      as (c & hand' & E & Hpc & Hperm).
    rewrite E in Hrun.
    destruct (IH _ _ _ Hrun (Hnext c hand' Hpc Hperm))
      as (tr & h & -> & A & B & _ & D).
    exists tr, h. split; [reflexivity|]. split.
    - rewrite <- A, Hperm.
      rewrite (Permutation_app_comm to_return [c]). cbn [app].
      apply Permutation_middle.
    - split; [exact B|]. split; [lia|].
      intros Hpos Hle. apply D; [exact Hpos|].
      rewrite length_app. cbn [length]. lia. }
  destruct (existsb is_other_card hand) eqn:E1.
  { apply (Hstep is_other_card E1); [|exact H].
    intros c hand' Hc Hp. eapply trim_priority_other; eauto. }
  destruct (existsb is_off_color_land hand) eqn:E2.
  { apply (Hstep is_off_color_land E2); [|exact H].
    intros c hand' Hc Hp. eapply trim_priority_off; eauto. }
  destruct (existsb is_on_color_land hand) eqn:E3.
  { apply (Hstep is_on_color_land E3); [|exact H].
    intros c hand' Hc Hp. eapply trim_priority_on; eauto. }
  exact (IH _ _ _ H Hinv).
Qed.

Lemma trim_priority_nil (hand : list card) : trim_priority [] hand.
Proof.
  exists [], [], []. repeat split; auto; intros H; now contradiction H.
Qed.

(** X4: the trim loop never raises, for any hand.  When it returns, the
    cards set aside and the hand kept are together the cards of the hand it
    was given; for [mulligan_count = 0] nothing is set aside, otherwise
    exactly [mulligan_count] cards are; they come as filler cards, then
    off-color lands, then on-color lands, a land being set aside only when
    no filler card is left in the hand and an on-color land only when no
    off-color land is left either. *)
Theorem trim_returns_by_priority (fuel mulligan_count : nat)
    (hand : list card) (r : res (list card * list card)) :
  trim_loop fuel mulligan_count [] hand = Some r ->
  exists to_return kept_hand,
    r = Ok (to_return, kept_hand)
    /\ hand ≡ₚ kept_hand ++ to_return
    /\ length to_return = mulligan_count
    /\ trim_priority to_return kept_hand.
Proof.
  intros H.
  destruct (trim_loop_priority _ _ _ _ _ H (trim_priority_nil hand))
    as (tr & h & -> & Hp & Hprio & H0 & Hpos).
  exists tr, h. split; [reflexivity|].
  split; [now rewrite app_nil_r in Hp|].
  split; [|exact Hprio].
  destruct mulligan_count as [|k].
  - now destruct (H0 eq_refl) as [-> _].
  - apply Hpos; cbn [length]; lia.
Qed.

Lemma trim_returns_by_priority_witness :
  exists r,
    trim_loop 4 3 [] [Land 1 true; OtherCard 2; Land 3 false; sample_target;
                      OtherCard 4] = Some r
    /\ exists to_return kept_hand,
         r = Ok (to_return, kept_hand)
         /\ [Land 1 true; OtherCard 2; Land 3 false; sample_target;
             OtherCard 4] ≡ₚ kept_hand ++ to_return
         /\ length to_return = 3
         /\ trim_priority to_return kept_hand.
Proof.
  eexists. split; [vm_compute; reflexivity|].
  apply (trim_returns_by_priority 4 3
           [Land 1 true; OtherCard 2; Land 3 false; sample_target;
            OtherCard 4]).
  vm_compute; reflexivity.
Defined.

(** ** Land drop *)

Lemma play_land_find (p : card -> bool) (g : game) :
  existsb p (g_hand g) = true ->
  exists land hand',
    List.find p (g_hand g) = Some land
    /\ list_remove land (g_hand g) = Ok hand'
    /\ play_land p g
       = Ok (mkGame hand' (g_deck g) (g_board g ++ [land]) (g_turn g)).
Proof.
  intros Hex. unfold play_land, next_card.
  destruct (List.find p (g_hand g)) as [land|] eqn:Hf.
  - pose proof (List.find_some _ _ Hf) as [Hin _].
    destruct (list_remove_in land _ Hin) as (hand' & Hr).
    exists land, hand'. cbn [res_bind]. rewrite Hr. auto.
  - apply List.existsb_exists in Hex as (c & Hin & Hp).
    eapply List.find_none in Hf; [|exact Hin]. congruence.
Qed.

(** X6: the land drop never raises.  With no land in the hand nothing
    changes.  Otherwise exactly one land leaves the hand for the end of the
    board: the first on-color land of the hand while the board is short of
    on-color pips and the hand has one; else the first off-color land while
    the board is short of off-color pips and the hand has one; else the
    first land of the hand.  The library and the turn are untouched. *)
Theorem land_drop_priority (id : nat) (mana_value on_color_pips
    off_color_pips generic : Z) (g : game) :
  exists g',
    land_drop_step
      (TargetCard id mana_value on_color_pips off_color_pips generic) g
    = Ok (g', existsb is_land (g_hand g))
    /\ g_deck g' = g_deck g
    /\ g_turn g' = g_turn g
    /\ if existsb is_land (g_hand g) then
         exists land,
           List.find
             (if existsb is_on_color_land (g_hand g)
                 && (Z.of_nat (board_on_color (g_board g)) <? on_color_pips)%Z
              then is_on_color_land
              else if existsb is_off_color_land (g_hand g)
                      && (Z.of_nat (board_off_color (g_board g))
                          <? off_color_pips)%Z
                   then is_off_color_land
                   else is_land)
             (g_hand g) = Some land
           /\ list_remove land (g_hand g) = Ok (g_hand g')
           /\ g_board g' = g_board g ++ [land]
       else g' = g.
Proof.
  unfold land_drop_step, board_on_color, board_off_color.
  cbn [get_on_color_pips get_off_color_pips res_bind negb].
  rewrite !andb_true_r.
  destruct (existsb is_land (g_hand g)) eqn:Hl; [|exists g; auto].
  assert (Hplay : forall p,
            existsb p (g_hand g) = true ->
            exists g',
              (try g1 <- play_land p g ; Ok (g1, true)) = Ok (g', true)
              /\ g_deck g' = g_deck g
              /\ g_turn g' = g_turn g
              /\ exists land,
                   List.find p (g_hand g) = Some land
                   /\ list_remove land (g_hand g) = Ok (g_hand g')
                   /\ g_board g' = g_board g ++ [land]).
  { intros p Hex.
    destruct (play_land_find p g Hex) as (land & hand' & Hf & Hr & ->).
    eexists. cbn [res_bind]. split; [reflexivity|].
    cbn [g_deck g_turn g_hand g_board]. eauto 6. }
  destruct (existsb is_on_color_land (g_hand g)
            && (Z.of_nat (count_if dict_get_is_on_color (g_board g))
                <? on_color_pips)%Z) eqn:E1.
  { apply andb_prop in E1 as [E1 _]. exact (Hplay _ E1). }
  destruct (existsb is_off_color_land (g_hand g)
            && (Z.of_nat
                  (count_if (fun c => negb (dict_get_is_on_color c)) (g_board g))
                <? off_color_pips)%Z) eqn:E2.
  { apply andb_prop in E2 as [E2 _]. exact (Hplay _ E2). }
  exact (Hplay _ Hl).
Qed.

(** ** The cards of a game *)

Lemma turn_played_conserves (g g' : game) (drawn played : list card) :
  turn_played g g' drawn played ->
  g_hand g' ++ g_deck g' ++ g_board g' ≡ₚ g_hand g ++ g_deck g ++ g_board g.
Proof.
  intros (Hd & _ & _ & Hh & Hb & _).
  rewrite Hd, Hb.
  rewrite (Permutation_app_comm (g_board g) played).
  rewrite !app_assoc.
  apply Permutation_app_tail.
  rewrite <- !app_assoc.
  rewrite (Permutation_app_comm (g_deck g') played).
  rewrite !app_assoc.
  apply Permutation_app_tail.
  rewrite (Permutation_app_comm (g_hand g') played), <- Hh.
  reflexivity.
Qed.

(** Where a game that starts on turn 1 stands at the start of a turn. *)
Lemma turn_start_shape (tc : card) (g : game) (i : nat) :
  g_turn g = 1 ->
  forall gs,
    turn_start i tc g = Some gs ->
    g_turn gs = 1 + i
    /\ g_deck gs = drop (i - 1) (g_deck g)
    /\ g_hand gs ++ g_deck gs ++ g_board gs
       ≡ₚ g_hand g ++ g_deck g ++ g_board g
    /\ (exists played,
          g_board gs = g_board g ++ played
          /\ length played <= i
          /\ Forall (fun c => is_land c = true) played).
Proof.
  intros Ht. induction i as [|i IH]; intros gs H.
  - injection H as <-. rewrite drop_0.
    split; [lia|]. split; [reflexivity|]. split; [reflexivity|].
    exists []. rewrite app_nil_r. repeat split; auto.
  - cbn [turn_start] in H.
    destruct (turn_start i tc g) as [g1|]; [|discriminate].
    destruct (play_turn tc g1) as [[g2|]|e] eqn:Ep; try discriminate.
    injection H as <-.
    destruct (IH g1 eq_refl) as (T1 & D1 & P1 & played1 & B1 & L1 & F1).
    apply play_turn_inv in Ep as (_ & drawn & played & Hp).
    pose proof (turn_played_conserves _ _ _ _ Hp) as Hc.
    destruct Hp as (Hd & Hld & _ & _ & Hb & Hl & Hf & Hturn).
    cbn [next_turn g_turn g_deck g_hand g_board].
    split; [lia|]. split.
    + rewrite T1 in Hld.
      assert (Hdrop : g_deck g2 = drop (length drawn) (g_deck g1))
        by (rewrite Hd, drop_app_length; reflexivity).
      rewrite Hdrop, D1, drop_drop.
      f_equal. destruct (Nat.ltb_spec 1 (1 + i)); lia.
    + split; [now rewrite Hc|].
      exists (played1 ++ played). rewrite Hb, B1, app_assoc.
      split; [reflexivity|]. split; [rewrite length_app; lia|].
      apply Forall_app. auto.
Qed.

(** X7: in a game that starts on turn 1, the state seen by the cast check
    [i] turns later is on turn [1 + i]; its library is the starting library
    less its first [i] cards (no draw on turn 1, one card from the top on
    every later turn, never reordered); hand, library and board together
    still hold exactly the starting cards; and the board is the starting
    board followed by at most [i + 1] cards, all lands. *)
Theorem turn_state_cards (target_card : card) (g : game) (i : nat)
    (gs : game) :
  g_turn g = 1 ->
  turn_state i target_card g = Some gs ->
  g_turn gs = 1 + i
  /\ g_deck gs = drop i (g_deck g)
  /\ g_hand gs ++ g_deck gs ++ g_board gs
     ≡ₚ g_hand g ++ g_deck g ++ g_board g
  /\ exists played,
       g_board gs = g_board g ++ played
       /\ length played <= i + 1
       /\ Forall (fun c => is_land c = true) played.
Proof.
  intros Ht H. unfold turn_state in H.
  destruct (turn_start i target_card g) as [g1|] eqn:Es; [|discriminate].
  destruct (play_turn target_card g1) as [[g2|]|e] eqn:Ep; try discriminate.
  injection H as <-.
  destruct (turn_start_shape _ _ _ Ht _ Es)
    as (T1 & D1 & P1 & played1 & B1 & L1 & F1).
  apply play_turn_inv in Ep as (_ & drawn & played & Hp).
  pose proof (turn_played_conserves _ _ _ _ Hp) as Hc.
  destruct Hp as (Hd & Hld & _ & _ & Hb & Hl & Hf & Hturn).
  split; [lia|]. split.
  - rewrite T1 in Hld.
    assert (Hdrop : g_deck g2 = drop (length drawn) (g_deck g1))
      by (rewrite Hd, drop_app_length; reflexivity).
    rewrite Hdrop, D1, drop_drop.
    f_equal. destruct (Nat.ltb_spec 1 (1 + i)); lia.
  - split; [now rewrite Hc|].
    exists (played1 ++ played). rewrite Hb, B1, app_assoc.
    split; [reflexivity|]. split; [rewrite length_app; lia|].
    apply Forall_app. auto.
Qed.

Lemma turn_state_cards_witness :
  exists gs,
    g_turn sample_game = 1
    /\ turn_state 2 sample_target sample_game = Some gs
    /\ g_turn gs = 1 + 2
    /\ g_deck gs = drop 2 (g_deck sample_game)
    /\ g_hand gs ++ g_deck gs ++ g_board gs
       ≡ₚ g_hand sample_game ++ g_deck sample_game ++ g_board sample_game
    /\ exists played,
         g_board gs = g_board sample_game ++ played
         /\ length played <= 2 + 1
         /\ Forall (fun c => is_land c = true) played.
Proof.
  eexists. split; [reflexivity|]. split; [vm_compute; reflexivity|].
  apply (turn_state_cards sample_target sample_game 2);
    vm_compute; reflexivity.
Defined.

(** ** Fuel *)

(** More fuel never changes what a loop returns. *)
Lemma mulligan_loop_fuel (tc : card) (fuel : nat) :
  forall fuel' mc hand deck r,
    mulligan_loop fuel tc mc hand deck = Some r -> fuel <= fuel' ->
    mulligan_loop fuel' tc mc hand deck = Some r.
Proof.
  induction fuel as [|fuel IH]; intros fuel' mc hand deck r H Hle;
    [discriminate|].
  destruct fuel' as [|fuel']; [lia|].
  cbn [mulligan_loop] in *.
  destruct (((mc =? 0) || (mc =? 1))
            && (count_if is_on_color_land hand =? 0)).
  { destruct (mulligan tc hand deck) as [[h1 d1]|e]; [|exact H].
    apply IH; [exact H | lia]. }
  destruct ((mc =? 2)
            && (count_if is_on_color_land hand
                + count_if is_off_color_land hand =? 0)).
  { destruct (mulligan tc hand deck) as [[h1 d1]|e]; [|exact H].
    apply IH; [exact H | lia]. }
  exact H.
Qed.

Lemma trim_loop_fuel (k fuel : nat) :
  forall fuel' to_return hand r,
    trim_loop fuel k to_return hand = Some r -> fuel <= fuel' ->
    trim_loop fuel' k to_return hand = Some r.
Proof.
  induction fuel as [|fuel IH]; intros fuel' to_return hand r H Hle;
    [discriminate|].
  destruct fuel' as [|fuel']; [lia|].
  cbn [trim_loop] in *.
  destruct (k =? 0); [exact H|].
  destruct (length to_return =? k); [exact H|].
  destruct (existsb is_other_card hand).
  { destruct (return_one is_other_card to_return hand) as [[t h]|e];
      [apply IH; [exact H | lia] | exact H]. }
  destruct (existsb is_off_color_land hand).
  { destruct (return_one is_off_color_land to_return hand) as [[t h]|e];
      [apply IH; [exact H | lia] | exact H]. }
  destruct (existsb is_on_color_land hand).
  { destruct (return_one is_on_color_land to_return hand) as [[t h]|e];
      [apply IH; [exact H | lia] | exact H]. }
  apply IH; [exact H | lia].
Qed.

Lemma turn_loop_fuel (tc : card) (fuel : nat) :
  forall fuel' g r,
    turn_loop fuel tc g = Some r -> fuel <= fuel' ->
    turn_loop fuel' tc g = Some r.
Proof.
  induction fuel as [|fuel IH]; intros fuel' g r H Hle; [discriminate|].
  destruct fuel' as [|fuel']; [lia|].
  cbn [turn_loop] in *.
  destruct (play_turn tc g) as [[g'|]|e]; [|exact H..].
  destruct (can_cast tc (g_board g')) as [[|]|e]; [exact H| |exact H].
  apply IH; [exact H | lia].
Qed.

Lemma simulate_keep_fuel (tc : card) (fuel fuel' : nat)
    (hand deck : list card) (r : res (list card * list card * nat)) :
  simulate_keep fuel tc hand deck = Some r -> fuel <= fuel' ->
  simulate_keep fuel' tc hand deck = Some r.
Proof.
  unfold simulate_keep. intros H Hle.
  destruct (mulligan_loop fuel tc 0 hand deck) as [rm|] eqn:Em;
    [|discriminate].
  rewrite (mulligan_loop_fuel _ _ _ _ _ _ _ Em Hle).
  destruct rm as [[[h d] k]|e]; [|exact H].
  cbn [loop_bind] in *.
  destruct (trim_loop fuel k [] h) as [rt|] eqn:Et; [|discriminate].
  rewrite (trim_loop_fuel _ _ _ _ _ _ Et Hle).
  exact H.
Qed.

Lemma simulate_fuel (fuel fuel' : nat) (mv on off n : Z) (w : World)
    (x : res trial * World) :
  simulate fuel mv on off n w = Some x -> fuel <= fuel' ->
  simulate fuel' mv on off n w = Some x.
Proof.
  unfold simulate. intros H Hle.
  destruct (simulate_deal mv on off n w) as [[[[tc hand] deck]|e] w'];
    [|exact H].
  destruct (simulate_keep fuel tc hand deck) as [rk|] eqn:Ek;
    [|discriminate].
  rewrite (simulate_keep_fuel _ _ _ _ _ _ Ek Hle).
  destruct rk as [[[h d] k]|e]; [|exact H].
  cbn [loop_bind] in *. unfold simulate_play in *.
  destruct (turn_loop fuel tc (mkGame h d [] 1)) as [rt|] eqn:Et;
    [|discriminate].
  rewrite (turn_loop_fuel _ _ _ _ _ Et Hle).
  exact H.
Qed.

(** ** A whole trial *)

Lemma board_counts_length (board : list card) :
  board_on_color board + board_off_color board = length board.
Proof.
  unfold board_on_color, board_off_color.
  induction board as [|c l IH]; [reflexivity|].
  rewrite !count_if_cons. cbn [length].
  destruct (dict_get_is_on_color c); cbn [negb]; lia.
Qed.

Lemma count_land_split (l : list card) :
  count_if is_land l
  = count_if is_on_color_land l + count_if is_off_color_land l.
Proof.
  induction l as [|c l IH]; [reflexivity|].
  rewrite !count_if_cons.
  destruct c as [? ? ? ? ?|? []|?]; cbn; lia.
Qed.

(** A cast turn is a turn whose cast check succeeds. *)
Lemma turn_loop_cast_state (fuel : nat) (tc : card) :
  forall g t,
    turn_loop fuel tc g = Some (Ok (Some t)) ->
    exists i gt b,
      t = g_turn g + i
      /\ turn_state i tc g = Some gt
      /\ can_cast tc (g_board gt) = Ok b /\ b = true.
Proof.
  induction fuel as [|fuel IH]; intros g t H; [discriminate|].
  cbn [turn_loop] in H.
  destruct (play_turn tc g) as [[g'|]|e] eqn:Ep; try discriminate.
  destruct (can_cast tc (g_board g')) as [[|]|e] eqn:Ec; try discriminate.
  - injection H as <-.
    pose proof (play_turn_inv _ _ _ Ep)
      as (_ & drawn & played & _ & _ & _ & _ & _ & _ & _ & Hturn).
    exists 0, g', true. split; [lia|].
    split; [unfold turn_state; cbn [turn_start]; now rewrite Ep|]. auto.
  - destruct (IH _ _ H) as (i & gt & b & Ht & Hs & Hc & Hb).
    pose proof (play_turn_inv _ _ _ Ep)
      as (_ & drawn & played & _ & _ & _ & _ & _ & _ & _ & Hturn).
    exists (S i), gt, b. cbn [next_turn g_turn] in Ht.
    split; [lia|].
    split; [now rewrite (turn_state_shift _ _ _ i Ep)|]. auto.
Qed.

(** The lands of the cards that are dealt: as many as the deck was asked
    to hold. *)
Lemma simulate_deal_lands (mv on off n : Z) (w w' : World) (tc : card)
    (hand deck : list card) :
  simulate_deal mv on off n w = (Ok (tc, hand, deck), w') ->
  tc = TargetCard (next_uuid w) mv on off (mv - on - off)
  /\ count_if is_on_color_land (hand ++ deck) = Z.to_nat n
  /\ count_if is_off_color_land (hand ++ deck) = Z.to_nat (LAND_COUNT - n)
  /\ next_uuid w' = 40 + next_uuid w.
Proof.
  unfold simulate_deal.
  destruct (mv <? 1)%Z; [discriminate|].
  destruct (on <? 0)%Z; [discriminate|].
  destruct (off <? 0)%Z; [discriminate|].
  destruct (n <? 1)%Z; [discriminate|].
  destruct (n >? LAND_COUNT)%Z; [discriminate|].
  cbv zeta.
  destruct (mv - on - off <? 0)%Z; [discriminate|].
  destruct (negb _); [discriminate|].
  unfold bind at 1.
  destruct (get_target_card mv on off (mv - on - off) w) as [[c|ex] w1] eqn:Ht;
    [|discriminate].
  apply get_target_card_inv in Ht as (-> & -> & _).
  unfold bind at 1.
  destruct (get_deck _ n _) as [[full|ex] w2] eqn:Hd; [|discriminate].
  apply get_deck_ok_inv in Hd as (_ & _ & _ & Hon & Hoff & _ & _ & Hu).
  unfold bind, lift, ret.
  destruct (draw_n full 6) as [[a b]|ex] eqn:E; [|discriminate].
  apply draw_n_inv in E as [-> ->].
  intros [= <- <- <- <-].
  split; [reflexivity|].
  cbn [next_uuid] in Hu.
  rewrite <- (take_drop (Z.to_nat 6) full) in Hon, Hoff.
  rewrite !count_if_app in *. rewrite !count_if_cons.
  cbn [is_on_color_land is_off_color_land].
  change (count_if is_on_color_land []) with 0.
  change (count_if is_off_color_land []) with 0.
  repeat split; lia.
Qed.

Lemma turn_state_shape (tc : card) (g : game) (i : nat) (gs : game) :
  g_turn g = 1 -> g_board g = [] ->
  turn_state i tc g = Some gs ->
  g_turn gs = 1 + i
  /\ g_hand gs ++ g_deck gs ++ g_board gs ≡ₚ g_hand g ++ g_deck g
  /\ length (g_board gs) <= i + 1
  /\ Forall (fun c => is_land c = true) (g_board gs).
Proof.
  intros Ht Hb H. unfold turn_state in H.
  destruct (turn_start i tc g) as [g1|] eqn:Es; [|discriminate].
  destruct (play_turn tc g1) as [[g2|]|e] eqn:Ep; try discriminate.
  injection H as <-.
  destruct (turn_start_shape _ _ _ Ht _ Es)
    as (T1 & _ & P1 & played1 & B1 & L1 & F1).
  apply play_turn_inv in Ep as (_ & drawn & played & Hp).
  pose proof (turn_played_conserves _ _ _ _ Hp) as Hc.
  destruct Hp as (_ & _ & _ & _ & Hb2 & Hl & Hf & Hturn).
  rewrite Hb, app_nil_r in P1. rewrite Hb, app_nil_l in B1.
  split; [lia|]. split; [now rewrite Hc|].
  rewrite Hb2, B1. split; [rewrite length_app; lia|].
  apply Forall_app. auto.
Qed.

Lemma count_if_le_perm_app (p : card -> bool) (a b c all : list card) :
  a ++ b ++ c ≡ₚ all -> count_if p c <= count_if p all.
Proof.
  intros H. rewrite <- (count_if_perm p _ _ H), !count_if_app. lia.
Qed.

(** A trial on a valid input, step by step. *)
Lemma simulate_run (mv on off n : Z) (w : World) (fuel : nat) :
  valid_input mv on off n -> 38 <= fuel ->
  exists w' k ct,
    simulate fuel mv on off n w
    = Some (make_result
              (TargetCard (next_uuid w) mv on off (mv - on - off)) ct k, w')
    /\ next_uuid w' = 40 + next_uuid w
    /\ k <= 3
    /\ match ct with
       | Some t => (mv <= Z.of_nat t)%Z /\ t <= 34 + k /\ (mv <= LAND_COUNT)%Z
       | None => True
       end.
Proof.
  intros Hv Hfuel.
  destruct (simulate_deal_ok _ _ _ _ w Hv)
    as (rest & deck & w' & Hd & Hlr & Hld & Hnr & Hnd).
  set (tc := TargetCard (next_uuid w) mv on off (mv - on - off)) in *.
  destruct (simulate_deal_lands _ _ _ _ _ _ _ _ _ Hd)
    as (_ & Con & Coff & Hu).
  destruct (simulate_keep_spec tc rest deck fuel ltac:(lia) eq_refl
              Hlr Hnr Hld Hnd)
    as (hm & dm & k & tr & h & Hm & _ & Hk & Ht & _ & _ & Hs & _ & Hlh & _ & Hll).
  pose proof (mulligan_loop_exit _ _ _ _ _ _ _ _ Hm)
    as (_ & _ & _ & _ & _ & _ & Pm).
  destruct (trim_loop_priority _ _ _ _ _ Ht (trim_priority_nil hm))
    as (tr' & h' & [= <- <-] & Pt & _).
  rewrite app_nil_r in Pt.
  assert (Pall : h ++ dm ++ tr ≡ₚ (rest ++ [tc]) ++ deck).
  { rewrite <- Pm, Pt, <- !app_assoc.
    apply Permutation_app_head. apply Permutation_app_comm. }
  set (g0 := mkGame h (dm ++ tr) [] 1).
  assert (Hleft : turns_left g0 = 34 + k)
    by (unfold turns_left, g0; cbn [g_deck g_turn]; lia).
  destruct (turn_loop_total (next_uuid w) mv on off (mv - on - off)
              fuel g0 ltac:(lia))
    as (ct & i & Hi & Hl & Hct).
  fold tc in Hl, Hct.
  exists w', k, ct. split.
  { unfold simulate. rewrite Hd, Hs. cbn [loop_bind].
    unfold simulate_play. fold g0. rewrite Hl. reflexivity. }
  split; [exact Hu|]. split; [exact Hk|].
  destruct ct as [t|]; [|exact I].
  destruct Hct as [-> Hlt].
  destruct (turn_loop_cast_state _ _ _ _ Hl) as (j & gt & b & Hj & Hst & Hc & ->).
  destruct (can_cast_spec (next_uuid w) mv on off (mv - on - off) (g_board gt))
    as (b & Hc' & Hb).
  fold tc in Hc'. rewrite Hc in Hc'. injection Hc' as <-.
  destruct Hb as [Hb _]. specialize (Hb eq_refl).
  destruct Hb as (_ & _ & Hmv).
  rewrite board_counts_length in Hmv.
  destruct (turn_state_shape tc g0 j gt eq_refl eq_refl Hst)
    as (_ & Pg & Hlen & Hlands).
  unfold g0 in Pg, Hj |- *.
  cbn [g_hand g_deck g_turn g_board] in Pg, Hj |- *.
  split; [lia|]. split; [lia|].
  assert (Hle : length (g_board gt)
                <= count_if is_land ((rest ++ [tc]) ++ deck)).
  { rewrite <- (count_if_all is_land _ Hlands).
    eapply count_if_le_perm_app. rewrite Pg. exact Pall. }
  rewrite count_land_split, Con, Coff in Hle.
  destruct Hv as (? & ? & ? & ? & ?). unfold LAND_COUNT in *. lia.
Qed.

Lemma np_int16_inv (x y : Z) :
  np_int16 x = Ok y -> y = x /\ (-32768 <= x <= 32767)%Z.
Proof.
  unfold np_int16.
  destruct (Z.leb_spec (-32768) x); [|discriminate].
  destruct (Z.leb_spec x 32767); [|discriminate].
  cbn. intros [= <-]. lia.
Qed.

Lemma np_int16_ok (x : Z) :
  (-32768 <= x <= 32767)%Z -> np_int16 x = Ok x.
Proof.
  intros [H1 H2]. unfold np_int16.
  destruct (Z.leb_spec (-32768) x); [|lia].
  destruct (Z.leb_spec x 32767); [|lia]. reflexivity.
Qed.

Lemma make_result_inv (id : nat) (mv on off g : Z) (ct : option nat)
    (k : nat) (r : trial) :
  make_result (TargetCard id mv on off g) ct k = Ok r ->
  r = mkTrial ct mv on off g k.
Proof.
  unfold make_result.
  cbn [get_mana_value get_on_color_pips get_off_color_pips get_generic
       res_bind].
  destruct (np_int16 mv) as [a|] eqn:E1; [|discriminate].
  destruct (np_int16 on) as [b|] eqn:E2; [|discriminate].
  destruct (np_int16 off) as [c|] eqn:E3; [|discriminate].
  destruct (np_int16 g) as [d|] eqn:E4; [|discriminate].
  cbn [res_bind].
  apply np_int16_inv in E1 as [-> _], E2 as [-> _], E3 as [-> _], E4 as [-> _].
  now intros [= <-].
Qed.

(** What a returned result is made of. *)
Lemma simulate_ok_inv (fuel : nat) (mv on off n : Z) (w w' : World)
    (r : trial) :
  simulate fuel mv on off n w = Some (Ok r, w') ->
  valid_input mv on off n
  /\ next_uuid w' = 40 + next_uuid w
  /\ exists ct k,
       r = mkTrial ct mv on off (mv - on - off) k
       /\ k <= 3
       /\ match ct with
          | Some t =>
              (mv <= Z.of_nat t)%Z /\ t <= 34 + k /\ (mv <= LAND_COUNT)%Z
          | None => True
          end.
Proof.
  intros H.
  assert (Hv : valid_input mv on off n).
  { unfold simulate in H.
    destruct (simulate_deal _ _ _ _ w) as [[x|e] w1] eqn:Hd;
      [|discriminate].
    eapply simulate_deal_valid. exact Hd. }
  split; [exact Hv|].
  apply (simulate_fuel fuel (Nat.max fuel 38)) in H; [|lia].
  destruct (simulate_run _ _ _ _ w (Nat.max fuel 38) Hv ltac:(lia))
    as (w2 & k & ct & Hs & Hu & Hk & Hct).
  rewrite Hs in H. injection H as Hr <-.
  apply make_result_inv in Hr.
  split; [exact Hu|]. exists ct, k. auto.
Qed.

(** X8: every result that [simulate] returns comes from a valid input and
    reports that input: the mana value, the two pip counts and the generic
    part [mana_value - on - off].  Its mulligan count is at most 3.  When a
    cast turn is reported, it is at least the mana value (one land per
    turn) and at most [34 + mulligan_count] (the turn of the last draw),
    and the mana value is at most 17, the number of lands in the deck: a
    card that costs more is never cast.  A trial takes 40 identifiers. *)
Theorem simulate_result (fuel : nat) (mana_value on_color_pips off_color_pips
    on_color_land_count : Z) (w w' : World) (r : trial) :
  simulate fuel mana_value on_color_pips off_color_pips on_color_land_count w
  = Some (Ok r, w') ->
  valid_input mana_value on_color_pips off_color_pips on_color_land_count
  /\ t_mana_value r = mana_value
  /\ t_on_color_pips r = on_color_pips
  /\ t_off_color_pips r = off_color_pips
  /\ t_generic r = (mana_value - on_color_pips - off_color_pips)%Z
  /\ mulligan_count r <= 3
  /\ match cast_turn r with
     | Some t =>
         (mana_value <= Z.of_nat t)%Z /\ t <= 34 + mulligan_count r
         /\ (mana_value <= 17)%Z
     | None => True
     end
  /\ next_uuid w' = 40 + next_uuid w.
Proof.
  intros H.
  destruct (simulate_ok_inv _ _ _ _ _ _ _ _ H)
    as (Hv & Hu & ct & k & -> & Hk & Hct).
  cbn [t_mana_value t_on_color_pips t_off_color_pips t_generic
       mulligan_count cast_turn].
  unfold LAND_COUNT in Hct.
  split; [exact Hv|]. do 4 (split; [reflexivity|]).
  split; [exact Hk|]. split; [|exact Hu].
  destruct ct as [t|]; [exact Hct | exact I].
Qed.

Lemma simulate_result_witness :
  exists r w',
    simulate 38 3 2 1 8 w1 = Some (Ok r, w')
    /\ valid_input 3 2 1 8
    /\ t_mana_value r = 3%Z
    /\ t_on_color_pips r = 2%Z
    /\ t_off_color_pips r = 1%Z
    /\ t_generic r = (3 - 2 - 1)%Z
    /\ mulligan_count r <= 3
    /\ match cast_turn r with
       | Some t =>
           (3 <= Z.of_nat t)%Z /\ t <= 34 + mulligan_count r /\ (3 <= 17)%Z
       | None => True
       end
    /\ next_uuid w' = 40 + next_uuid w1.
Proof.
  eexists _, _. split; [vm_compute; reflexivity|].
  apply (simulate_result 38 3 2 1 8 w1).
  vm_compute; reflexivity.
Defined.

Lemma get_deck_infeasible (id : nat) (mv on off g n : Z) (w : World) :
  (n < on \/ LAND_COUNT - n < off)%Z ->
  exists msg,
    get_deck (TargetCard id mv on off g) n w = (Raise (ValueError msg), w).
Proof.
  intros Hbad.
  cbv beta iota delta
    [get_deck bind lift get_on_color_pips get_off_color_pips].
  destruct (Z.ltb_spec n on); [eexists; reflexivity|].
  destruct (Z.ltb_spec (LAND_COUNT - n) off); [eexists; reflexivity|].
  lia.
Qed.

(** An input that is not valid is stopped by one of the checks, before
    any deck is shuffled. *)
Lemma simulate_deal_invalid (mana_value on_color_pips off_color_pips
    on_color_land_count : Z) (w : World) :
  ~ valid_input mana_value on_color_pips off_color_pips on_color_land_count ->
  exists msg w',
    simulate_deal mana_value on_color_pips off_color_pips
      on_color_land_count w = (Raise (ValueError msg), w')
    /\ rng w' = rng w
    /\ next_uuid w <= next_uuid w' <= S (next_uuid w).
Proof.
  intros Hbad. unfold simulate_deal.
  destruct (Z.ltb_spec mana_value 1);
    [eexists _, _; split; [reflexivity | split; [reflexivity | lia]]|].
  destruct (Z.ltb_spec on_color_pips 0);
    [eexists _, _; split; [reflexivity | split; [reflexivity | lia]]|].
  destruct (Z.ltb_spec off_color_pips 0);
    [eexists _, _; split; [reflexivity | split; [reflexivity | lia]]|].
  destruct (Z.ltb_spec on_color_land_count 1);
    [eexists _, _; split; [reflexivity | split; [reflexivity | lia]]|].
  destruct (Z.gtb_spec on_color_land_count LAND_COUNT);
    [eexists _, _; split; [reflexivity | split; [reflexivity | lia]]|].
  cbv zeta.
  destruct (Z.ltb_spec (mana_value - on_color_pips - off_color_pips) 0);
    [eexists _, _; split; [reflexivity | split; [reflexivity | lia]]|].
  destruct (Z.eqb_spec
              (mana_value - on_color_pips - off_color_pips + on_color_pips
               + off_color_pips) mana_value); [|lia].
  cbn [negb]. unfold bind at 1.
  pose proof (get_target_card_inv mana_value on_color_pips off_color_pips
                (mana_value - on_color_pips - off_color_pips) w) as Hinv.
  destruct (get_target_card mana_value on_color_pips off_color_pips
              (mana_value - on_color_pips - off_color_pips) w)
    as [[tc|ex] w1] eqn:Ht.
  - destruct (Hinv w1 tc eq_refl) as (-> & -> & Hmv & Hon & Hoff & _).
    unfold bind at 1.
    destruct (get_deck_infeasible (next_uuid w) mana_value on_color_pips
                off_color_pips
                (mana_value - on_color_pips - off_color_pips)
                on_color_land_count
                (mkWorld (S (next_uuid w)) (rng w))) as (msg & ->).
    + unfold valid_input in Hbad. lia.
    + eexists _, _. split; [reflexivity|]. cbn [rng next_uuid].
      split; [reflexivity | lia].
  - clear Hinv. unfold get_target_card in Ht.
    destruct (mana_value <? 1)%Z;
      [injection Ht as <- <-; eexists _, _; split;
       [reflexivity | split; [reflexivity | lia]]|].
    destruct (on_color_pips <? 1)%Z;
      [injection Ht as <- <-; eexists _, _; split;
       [reflexivity | split; [reflexivity | lia]]|].
    destruct (off_color_pips <? 0)%Z;
      [injection Ht as <- <-; eexists _, _; split;
       [reflexivity | split; [reflexivity | lia]]|].
    destruct (_ <? 0)%Z;
      [injection Ht as <- <-; eexists _, _; split;
       [reflexivity | split; [reflexivity | lia]]|].
    destruct (negb _);
      [injection Ht as <- <-; eexists _, _; split;
       [reflexivity | split; [reflexivity | lia]]|].
    discriminate Ht.
Qed.


(** X9: on an input that is not valid (on-color pips below 1, off-color
    pips below 0, pips exceeding the mana value, or a land count that cannot
    pay the on-color or the off-color pips) [simulate] raises a
    [ValueError], with any fuel; no deck is shuffled, and at most the
    identifier of the target card is consumed. *)
Theorem simulate_rejects_invalid (fuel : nat) (mana_value on_color_pips
    off_color_pips on_color_land_count : Z) (w : World) :
  ~ valid_input mana_value on_color_pips off_color_pips on_color_land_count ->
  exists msg w',
    simulate fuel mana_value on_color_pips off_color_pips
      on_color_land_count w = Some (Raise (ValueError msg), w')
    /\ rng w' = rng w
    /\ next_uuid w <= next_uuid w' <= S (next_uuid w).
Proof.
  intros Hbad.
  destruct (simulate_deal_invalid _ _ _ _ w Hbad) as (msg & w' & Hd & Hr & Hu).
  exists msg, w'. unfold simulate. rewrite Hd.
  split; [reflexivity|]. split; assumption.
Qed.

Lemma simulate_rejects_invalid_witness :
  ~ valid_input 3 2 1 1
  /\ exists msg w',
       simulate 0 3 2 1 1 w1 = Some (Raise (ValueError msg), w')
       /\ rng w' = rng w1
       /\ next_uuid w1 <= next_uuid w' <= S (next_uuid w1).
Proof.
  assert (H : ~ valid_input 3 2 1 1)
    by (unfold valid_input, LAND_COUNT; lia).
  split; [exact H|].
  exact (simulate_rejects_invalid 0 3 2 1 1 w1 H).
Defined.

(** X10: on a valid input whose mana value fits [int16], [simulate] with
    fuel for 38 passes returns a result and raises nothing: no size check
    fails and no loop raises. *)
Theorem simulate_accepts_valid (fuel : nat) (mana_value on_color_pips
    off_color_pips on_color_land_count : Z) (w : World) :
  valid_input mana_value on_color_pips off_color_pips on_color_land_count ->
  (mana_value <= 32767)%Z -> 38 <= fuel ->
  exists cast_turn k w',
    simulate fuel mana_value on_color_pips off_color_pips
      on_color_land_count w
    = Some (Ok (mkTrial cast_turn mana_value on_color_pips off_color_pips
                  (mana_value - on_color_pips - off_color_pips) k), w').
Proof.
  intros Hv Hmv Hfuel.
  destruct (simulate_run _ _ _ _ w fuel Hv Hfuel)
    as (w' & k & ct & Hs & _).
  exists ct, k, w'. rewrite Hs. f_equal. f_equal.
  destruct Hv as (? & ? & ? & ? & ?).
  unfold make_result.
  cbn [get_mana_value get_on_color_pips get_off_color_pips get_generic
       res_bind].
  rewrite !np_int16_ok by lia. reflexivity.
Qed.

Lemma simulate_accepts_valid_witness :
  valid_input 3 2 1 8 /\ (3 <= 32767)%Z /\ 38 <= 38
  /\ exists cast_turn k w',
       simulate 38 3 2 1 8 w1
       = Some (Ok (mkTrial cast_turn 3 2 1 (3 - 2 - 1) k), w').
Proof.
  assert (H1 : valid_input 3 2 1 8) by (unfold valid_input, LAND_COUNT; lia).
  assert (H2 : (3 <= 32767)%Z) by lia.
  assert (H3 : 38 <= 38) by lia.
  split; [exact H1|]. split; [exact H2|]. split; [exact H3|].
  exact (simulate_accepts_valid 38 3 2 1 8 w1 H1 H2 H3).
Defined.

(** ** More on the trial orchestrator *)

Module OrchestratorMore.

Import QArith_base.
Import Orchestrator.
Import OrchestratorNotions.
Local Open Scope nat_scope.

(** X11: [run_simulations] raises a [ValueError], before any trial and with
    the world untouched, exactly for the arguments of [bad_arguments]; note
    that, unlike [simulate], it already rejects [on_color_pips = 0] itself,
    and that it requires at least one simulation. *)
Theorem run_simulations_validation (fuel : nat) (mana_value on_color_pips
    off_color_pips on_color_land_count num_simulations : Z) (w : World) :
  match run_simulations fuel mana_value on_color_pips off_color_pips
          on_color_land_count num_simulations w with
  | Some (Raise e, w') =>
      bad_arguments mana_value on_color_pips off_color_pips
        on_color_land_count num_simulations
      /\ w' = w /\ exists msg, e = ValueError msg
  | Some (Ok _, _) | None =>
      ~ bad_arguments mana_value on_color_pips off_color_pips
          on_color_land_count num_simulations
  end.
Proof.
  unfold run_simulations, bad_arguments.
  destruct (Z.ltb_spec mana_value 1);
    [split; [lia | split; [reflexivity | eexists; reflexivity]]|].
  destruct (Z.ltb_spec on_color_pips 1);
    [split; [lia | split; [reflexivity | eexists; reflexivity]]|].
  destruct (Z.ltb_spec off_color_pips 0);
    [split; [lia | split; [reflexivity | eexists; reflexivity]]|].
  destruct (Z.ltb_spec on_color_land_count 1);
    [split; [lia | split; [reflexivity | eexists; reflexivity]]|].
  destruct (Z.gtb_spec on_color_land_count LAND_COUNT);
    [split; [lia | split; [reflexivity | eexists; reflexivity]]|].
  destruct (Z.ltb_spec num_simulations 1);
    [split; [lia | split; [reflexivity | eexists; reflexivity]]|].
  destruct (Z.gtb_spec (on_color_pips + off_color_pips) mana_value);
    [split; [lia | split; [reflexivity | eexists; reflexivity]]|].
  destruct (run_workers _ _ _ _ _ _ w) as [[futs w']|]; lia.
Qed.

(** Past the validation, [run_simulations] is its workers and the
    summary. *)
Lemma run_simulations_good (fuel : nat) (mv on off n num : Z) (w : World) :
  ~ bad_arguments mv on off n num ->
  run_simulations fuel mv on off n num w
  = match run_workers fuel mv on off n (Z.to_nat num) w with
    | None => None
    | Some (fut_results, w') =>
        Some (Ok (summarize mv on off n num (collect fut_results)), w')
    end.
Proof.
  unfold bad_arguments, run_simulations. intros Hgood.
  destruct (Z.ltb_spec mv 1); [lia|].
  destruct (Z.ltb_spec on 1); [lia|].
  destruct (Z.ltb_spec off 0); [lia|].
  destruct (Z.ltb_spec n 1); [lia|].
  destruct (Z.gtb_spec n LAND_COUNT); [lia|].
  destruct (Z.ltb_spec num 1); [lia|].
  destruct (Z.gtb_spec (on + off) mv); [lia|].
  reflexivity.
Qed.

Lemma run_simulations_inv (fuel : nat) (mv on off n num : Z) (w w' : World)
    (result : option aggregate) :
  run_simulations fuel mv on off n num w = Some (Ok result, w') ->
  ~ bad_arguments mv on off n num
  /\ exists fut_results,
       run_workers fuel mv on off n (Z.to_nat num) w = Some (fut_results, w')
       /\ result = summarize mv on off n num (collect fut_results).
Proof.
  unfold run_simulations, bad_arguments.
  destruct (Z.ltb_spec mv 1); [discriminate|].
  destruct (Z.ltb_spec on 1); [discriminate|].
  destruct (Z.ltb_spec off 0); [discriminate|].
  destruct (Z.ltb_spec n 1); [discriminate|].
  destruct (Z.gtb_spec n LAND_COUNT); [discriminate|].
  destruct (Z.ltb_spec num 1); [discriminate|].
  destruct (Z.gtb_spec (on + off) mv); [discriminate|].
  destruct (run_workers _ _ _ _ _ _ w) as [[futs w2]|]; [|discriminate].
  intros [= <- <-]. split; [lia|]. eauto.
Qed.

(** Whether a trial is kept depends on the arguments only. *)
Lemma worker_invalid (fuel : nat) (mv on off n : Z) (w : World) :
  ~ valid_input mv on off n ->
  exists w', worker fuel mv on off n w = Some (None, w')
             /\ rng w' = rng w.
Proof.
  intros Hbad.
  destruct (simulate_deal_invalid _ _ _ _ w Hbad) as (msg & w' & Hd & Hr & _).
  exists w'. unfold worker, simulate. rewrite Hd. auto.
Qed.

Lemma worker_valid (fuel : nat) (mv on off n : Z) (w : World) :
  valid_input mv on off n -> 38 <= fuel ->
  exists x w', worker fuel mv on off n w = Some (x, w').
Proof.
  intros Hv Hfuel.
  destruct (simulate_run _ _ _ _ w fuel Hv Hfuel) as (w' & k & ct & Hs & _).
  unfold worker. rewrite Hs.
  destruct (make_result _ ct k); eauto.
Qed.

Lemma worker_kept_iff (fuel : nat) (mv on off n : Z) (w w' : World)
    (x : option trial) :
  worker fuel mv on off n w = Some (x, w') ->
  (x <> None <-> valid_input mv on off n /\ (mv <= 32767)%Z).
Proof.
  unfold worker. intros H.
  destruct (simulate fuel mv on off n w) as [[[r|e] w2]|] eqn:Hs;
    [| |discriminate]; injection H as <- <-.
  - split; [intros _|discriminate].
    destruct (simulate_ok_inv _ _ _ _ _ _ _ _ Hs) as (Hv & _).
    split; [exact Hv|].
    apply (simulate_fuel fuel (Nat.max fuel 38)) in Hs; [|lia].
    destruct (simulate_run _ _ _ _ w (Nat.max fuel 38) Hv ltac:(lia))
      as (w3 & k & ct & Hs' & _).
    rewrite Hs' in Hs. injection Hs as Hr _.
    unfold make_result in Hr.
    cbn [get_mana_value res_bind] in Hr.
    destruct (np_int16 mv) as [a|] eqn:E; [|discriminate].
    apply np_int16_inv in E. lia.
  - split; [intros Hx; now contradiction Hx|].
    intros [Hv Hmv]. exfalso.
    apply (simulate_fuel fuel (Nat.max fuel 38)) in Hs; [|lia].
    destruct (simulate_run _ _ _ _ w (Nat.max fuel 38) Hv ltac:(lia))
      as (w3 & k & ct & Hs' & _).
    rewrite Hs' in Hs. injection Hs as Hr _.
    destruct Hv as (? & ? & ? & ? & ?).
    unfold make_result in Hr.
    cbn [get_mana_value get_on_color_pips get_off_color_pips get_generic
         res_bind] in Hr.
    rewrite !np_int16_ok in Hr by lia. discriminate.
Qed.

Lemma run_workers_kept (fuel : nat) (mv on off n : Z) (k : nat) :
  forall w futs w',
    run_workers fuel mv on off n k w = Some (futs, w') ->
    Forall (fun x => x <> None
                     <-> valid_input mv on off n /\ (mv <= 32767)%Z) futs.
Proof.
  induction k as [|k IH]; intros w futs w' H; cbn [run_workers] in H.
  - injection H as <- <-. constructor.
  - destruct (worker fuel mv on off n w) as [[x w1]|] eqn:Ew; [|discriminate].
    destruct (run_workers fuel mv on off n k w1) as [[rs w2]|] eqn:E;
      [|discriminate].
    injection H as <- <-. constructor.
    + eapply worker_kept_iff. exact Ew.
    + eapply IH. exact E.
Qed.

Lemma collect_all_none (futs : list (option trial)) :
  Forall (fun x => x = None) futs -> collect futs = [].
Proof.
  induction 1 as [|x l -> _ IH]; [reflexivity|]. exact IH.
Qed.

Lemma collect_all_some (futs : list (option trial)) :
  Forall (fun x => x <> None) futs -> length (collect futs) = length futs.
Proof.
  induction 1 as [|x l Hx _ IH]; [reflexivity|].
  destruct x as [r|]; [|now contradiction Hx].
  cbn [collect length]. now rewrite IH.
Qed.

(** X12: the discard of failed trials is all or nothing.  Whenever
    [run_simulations] returns, either every one of the [num_simulations]
    trials was discarded and the result is [None], or none was and the
    aggregate is built from all of them: a trial fails on its arguments,
    never on the cards it is dealt. *)
Theorem discard_is_all_or_nothing (fuel : nat) (mana_value on_color_pips
    off_color_pips on_color_land_count num_simulations : Z) (w w' : World)
    (result : option aggregate) :
  run_simulations fuel mana_value on_color_pips off_color_pips
    on_color_land_count num_simulations w = Some (Ok result, w') ->
  exists fut_results,
    run_workers fuel mana_value on_color_pips off_color_pips
      on_color_land_count (Z.to_nat num_simulations) w
    = Some (fut_results, w')
    /\ Z.of_nat (length fut_results) = num_simulations
    /\ ((collect fut_results = [] /\ result = None)
        \/ (length (collect fut_results) = length fut_results
            /\ exists agg, result = Some agg)).
Proof.
  intros H.
  destruct (run_simulations_inv _ _ _ _ _ _ _ _ _ H)
    as (Hgood & futs & Hw & ->).
  exists futs. split; [exact Hw|].
  pose proof (OrchestratorFacts.run_workers_length _ _ _ _ _ _ _ _ _ Hw)
    as Hlen.
  split; [unfold bad_arguments in Hgood; lia|].
  pose proof (run_workers_kept _ _ _ _ _ _ _ _ _ Hw) as Hk.
  assert (Hdec : (valid_input mana_value on_color_pips off_color_pips
                    on_color_land_count /\ (mana_value <= 32767)%Z)
                 \/ ~ (valid_input mana_value on_color_pips off_color_pips
                         on_color_land_count /\ (mana_value <= 32767)%Z))
    by (unfold valid_input; lia).
  destruct Hdec as [Hyes|Hno].
  - right.
    assert (Hall : Forall (fun x => x <> None) futs).
    { eapply Forall_impl; [exact Hk|]. intros x Hx. now apply Hx. }
    pose proof (collect_all_some _ Hall) as Hc.
    split; [exact Hc|].
    unfold summarize.
    destruct (Nat.ltb_spec 0 (length (collect futs))) as [_|Hz]; [eauto|].
    unfold bad_arguments in Hgood. lia.
  - left.
    assert (Hall : Forall (fun x => x = None) futs).
    { eapply Forall_impl; [exact Hk|]. intros x Hx.
      destruct x as [r|]; [|reflexivity].
      exfalso. apply Hno, Hx. discriminate. }
    rewrite (collect_all_none _ Hall). auto.
Qed.

Lemma discard_is_all_or_nothing_witness :
  exists result w',
    run_simulations 40 3 2 1 1 3 w1 = Some (Ok result, w')
    /\ exists fut_results,
         run_workers 40 3 2 1 1 (Z.to_nat 3) w1 = Some (fut_results, w')
         /\ Z.of_nat (length fut_results) = 3%Z
         /\ ((collect fut_results = [] /\ result = None)
             \/ (length (collect fut_results) = length fut_results
                 /\ exists agg, result = Some agg)).
Proof.
  eexists _, _. split; [vm_compute; reflexivity|].
  apply (discard_is_all_or_nothing 40 3 2 1 1 3 w1).
  vm_compute; reflexivity.
Defined.

Lemma run_workers_invalid (fuel : nat) (mv on off n : Z) (k : nat) :
  ~ valid_input mv on off n ->
  forall w, exists futs w',
    run_workers fuel mv on off n k w = Some (futs, w')
    /\ Forall (fun x => x = None) futs
    /\ rng w' = rng w.
Proof.
  intros Hbad. induction k as [|k IH]; intros w; cbn [run_workers].
  - exists [], w. auto.
  - destruct (worker_invalid fuel _ _ _ _ w Hbad) as (w1 & -> & Hr).
    destruct (IH w1) as (futs & w' & -> & Hall & Hr').
    exists (None :: futs), w'.
    split; [reflexivity|]. split; [constructor; auto | congruence].
Qed.

Lemma run_workers_valid (fuel : nat) (mv on off n : Z) (k : nat) :
  valid_input mv on off n -> 38 <= fuel ->
  forall w, exists futs w',
    run_workers fuel mv on off n k w = Some (futs, w').
Proof.
  intros Hv Hfuel. induction k as [|k IH]; intros w; cbn [run_workers].
  - eauto.
  - destruct (worker_valid fuel _ _ _ _ w Hv Hfuel) as (x & w1 & ->).
    destruct (IH w1) as (futs & w' & ->). eauto.
Qed.

(** X13: a combination that passes the validation of [run_simulations] but
    whose land count cannot pay the pips (fewer on-color lands than on-color
    pips, or fewer off-color lands than off-color pips) is not an error:
    every trial raises and is discarded, no deck is ever shuffled, and the
    result is [None], with any fuel. *)
Theorem infeasible_combination_is_absent (fuel : nat) (mana_value
    on_color_pips off_color_pips on_color_land_count num_simulations : Z)
    (w : World) :
  ~ bad_arguments mana_value on_color_pips off_color_pips
      on_color_land_count num_simulations ->
  (on_color_land_count < on_color_pips
   \/ 17 - on_color_land_count < off_color_pips)%Z ->
  exists w',
    run_simulations fuel mana_value on_color_pips off_color_pips
      on_color_land_count num_simulations w = Some (Ok None, w')
    /\ rng w' = rng w.
Proof.
  intros Hgood Hinf.
  assert (Hbad : ~ valid_input mana_value on_color_pips off_color_pips
                     on_color_land_count)
    by (unfold valid_input, LAND_COUNT; lia).
  rewrite (run_simulations_good _ _ _ _ _ _ _ Hgood).
  destruct (run_workers_invalid fuel _ _ _ _ (Z.to_nat num_simulations) Hbad w)
    as (futs & w' & -> & Hall & Hr).
  exists w'. rewrite (collect_all_none _ Hall). auto.
Qed.

Lemma infeasible_combination_is_absent_witness :
  ~ bad_arguments 3 2 1 1 5
  /\ (1 < 2 \/ 17 - 1 < 1)%Z
  /\ exists w',
       run_simulations 0 3 2 1 1 5 w1 = Some (Ok None, w')
       /\ rng w' = rng w1.
Proof.
  assert (H1 : ~ bad_arguments 3 2 1 1 5)
    by (unfold bad_arguments, LAND_COUNT; lia).
  assert (H2 : (1 < 2 \/ 17 - 1 < 1)%Z) by lia.
  split; [exact H1|]. split; [exact H2|].
  exact (infeasible_combination_is_absent 0 3 2 1 1 5 w1 H1 H2).
Defined.

(** X14: for a valid input whose mana value fits [int16] and at least one
    simulation, [run_simulations] with fuel for 38 passes per loop returns
    an aggregate: it echoes the arguments, reports [17 - on_color_land_count]
    off-color lands and [num_simulations] iterations, and is built from all
    the trials, none discarded. *)
Theorem valid_combination_is_aggregated (fuel : nat) (mana_value on_color_pips
    off_color_pips on_color_land_count num_simulations : Z) (w : World) :
  valid_input mana_value on_color_pips off_color_pips on_color_land_count ->
  (mana_value <= 32767)%Z -> (1 <= num_simulations)%Z -> 38 <= fuel ->
  exists agg w' fut_results,
    run_simulations fuel mana_value on_color_pips off_color_pips
      on_color_land_count num_simulations w = Some (Ok (Some agg), w')
    /\ run_workers fuel mana_value on_color_pips off_color_pips
         on_color_land_count (Z.to_nat num_simulations) w
       = Some (fut_results, w')
    /\ Z.of_nat (length (collect fut_results)) = num_simulations
    /\ a_mana_value agg = mana_value
    /\ a_on_color_pips agg = on_color_pips
    /\ a_off_color_pips agg = off_color_pips
    /\ a_on_color_land_count agg = on_color_land_count
    /\ a_off_color_land_count agg = (17 - on_color_land_count)%Z
    /\ iterations agg = num_simulations.
Proof.
  intros Hv Hmv Hnum Hfuel.
  assert (Hgood : ~ bad_arguments mana_value on_color_pips off_color_pips
                      on_color_land_count num_simulations)
    by (unfold bad_arguments, valid_input, LAND_COUNT in *; lia).
  destruct (run_workers_valid fuel _ _ _ _ (Z.to_nat num_simulations)
              Hv Hfuel w) as (futs & w' & Hw).
  pose proof (OrchestratorFacts.run_workers_length _ _ _ _ _ _ _ _ _ Hw)
    as Hlen.
  assert (Hall : Forall (fun x => x <> None) futs).
  { eapply Forall_impl; [exact (run_workers_kept _ _ _ _ _ _ _ _ _ Hw)|].
    intros x Hx. apply Hx. auto. }
  pose proof (collect_all_some _ Hall) as Hc.
  rewrite (run_simulations_good _ _ _ _ _ _ _ Hgood), Hw.
  unfold summarize.
  destruct (Nat.ltb_spec 0 (length (collect futs))) as [_|Hz]; [|lia].
  eexists _, w', futs. split; [reflexivity|]. split; [reflexivity|].
  cbn [a_mana_value a_on_color_pips a_off_color_pips a_on_color_land_count
       a_off_color_land_count iterations].
  split; [lia|]. repeat split; reflexivity.
Qed.

Lemma valid_combination_is_aggregated_witness :
  valid_input 3 2 1 8 /\ (3 <= 32767)%Z /\ (1 <= 3)%Z /\ 38 <= 38
  /\ exists agg w' fut_results,
       run_simulations 38 3 2 1 8 3 w1 = Some (Ok (Some agg), w')
       /\ run_workers 38 3 2 1 8 (Z.to_nat 3) w1 = Some (fut_results, w')
       /\ Z.of_nat (length (collect fut_results)) = 3%Z
       /\ a_mana_value agg = 3%Z
       /\ a_on_color_pips agg = 2%Z
       /\ a_off_color_pips agg = 1%Z
       /\ a_on_color_land_count agg = 8%Z
       /\ a_off_color_land_count agg = (17 - 8)%Z
       /\ iterations agg = 3%Z.
Proof.
  assert (H1 : valid_input 3 2 1 8) by (unfold valid_input, LAND_COUNT; lia).
  assert (H2 : (3 <= 32767)%Z) by lia.
  assert (H3 : (1 <= 3)%Z) by lia.
  assert (H4 : 38 <= 38) by lia.
  repeat (split; [assumption|]).
  exact (valid_combination_is_aggregated 38 3 2 1 8 3 w1 H1 H2 H3 H4).
Defined.

End OrchestratorMore.

(** ** The averages as numbers *)

Module OrchestratorBounds.

Import QArith_base.
Import Lqa.
Import Orchestrator.
Import OrchestratorNotions.
Local Open Scope nat_scope.

Lemma inject_nat_succ (k : nat) :
  (inject_Z (Z.of_nat (S k)) == inject_Z (Z.of_nat k) + 1)%Q.
Proof.
  rewrite Nat2Z.inj_succ. unfold Z.succ. rewrite inject_Z_plus. reflexivity.
Qed.

Lemma Qsum_bounds (a b : Q) (l : list Q) :
  Forall (fun x => (a <= x /\ x <= b)%Q) l ->
  (inject_Z (Z.of_nat (length l)) * a <= Qsum l
   /\ Qsum l <= inject_Z (Z.of_nat (length l)) * b)%Q.
Proof.
  induction 1 as [|x l [Hx1 Hx2] _ [IH1 IH2]].
  - cbn [length Qsum fold_right].
    change (inject_Z (Z.of_nat 0)) with 0%Q. change (inject_Z 0) with 0%Q.
    lra.
  - cbn [length Qsum fold_right]. fold (Qsum l).
    rewrite inject_nat_succ.
    set (k := inject_Z (Z.of_nat (length l))) in *.
    split; nra.
Qed.

(** The mean of numbers between [a] and [b] is between [a] and [b]. *)
Lemma mean_over_bounds (f : trial -> Q) (rs : list trial) (a b q : Q) :
  mean_over f rs = Some q ->
  Forall (fun r => (a <= f r /\ f r <= b)%Q) rs ->
  (a <= q /\ q <= b)%Q.
Proof.
  intros Hm Hall. unfold mean_over in Hm.
  destruct rs as [|r rs]; [discriminate|].
  injection Hm as <-.
  assert (Hall' : Forall (fun x => (a <= x /\ x <= b)%Q) (map f (r :: rs))).
  { apply Forall_map. exact Hall. }
  destruct (Qsum_bounds a b _ Hall') as [H1 H2].
  rewrite length_map in H1, H2.
  assert (Hpos : (0 < inject_Z (Z.of_nat (length (r :: rs))))%Q).
  { change 0%Q with (inject_Z 0). rewrite <- Zlt_Qlt. cbn [length]. lia. }
  change (f r + Qsum (map f rs))%Q with (Qsum (map f (r :: rs))).
  change (S (length rs)) with (length (r :: rs)).
  split.
  - apply Qle_shift_div_l; [exact Hpos|]. lra.
  - apply Qle_shift_div_r; [exact Hpos|]. lra.
Qed.

(** The bounds that every kept trial meets. *)
Lemma run_workers_bounds (fuel : nat) (mv on off n : Z) (k : nat) :
  forall w futs w',
    run_workers fuel mv on off n k w = Some (futs, w') ->
    Forall (fun r =>
              mulligan_count r <= 3
              /\ match cast_turn r with
                 | Some t => (mv <= Z.of_nat t)%Z /\ t <= 37
                 | None => True
                 end) (collect futs).
Proof.
  induction k as [|k IH]; intros w futs w' H; cbn [run_workers] in H.
  - injection H as <- <-. constructor.
  - unfold worker in H.
    destruct (simulate fuel mv on off n w) as [[[r|e] w1]|] eqn:Hs;
      [| |discriminate];
      (destruct (run_workers fuel mv on off n k w1) as [[rs w2]|] eqn:E;
       [|discriminate]);
      injection H as <- <-; cbn [collect];
      [|eapply IH; exact E].
    constructor; [|eapply IH; exact E].
    destruct (simulate_ok_inv _ _ _ _ _ _ _ _ Hs)
      as (_ & _ & ct & j & -> & Hj & Hct).
    cbn [mulligan_count cast_turn]. split; [exact Hj|].
    destruct ct as [t|]; [|exact I]. lia.
Qed.

(** X15: the averages of an aggregate are within the range of what a trial
    can report: the average mulligan count is a number between 0 and 3, and
    the average cast turn, when at least one trial cast the card, is
    between the mana value and 37. *)
Theorem averages_are_bounded (fuel : nat) (mana_value on_color_pips
    off_color_pips on_color_land_count num_simulations : Z) (w w' : World)
    (agg : aggregate) :
  run_simulations fuel mana_value on_color_pips off_color_pips
    on_color_land_count num_simulations w = Some (Ok (Some agg), w') ->
  (exists q, average_mulligan_count agg = Some q /\ (0 <= q /\ q <= 3)%Q)
  /\ match average_cast_turn agg with
     | Some q => (inject_Z mana_value <= q /\ q <= 37)%Q
     | None => True
     end.
Proof.
  intros H.
  destruct (OrchestratorMore.run_simulations_inv _ _ _ _ _ _ _ _ _ H)
    as (_ & futs & Hw & Hs).
  symmetry in Hs.
  destruct (OrchestratorFacts.summarize_means _ _ _ _ _ _ _ Hs) as [Hc Hm].
  pose proof (run_workers_bounds _ _ _ _ _ _ _ _ _ Hw) as Hb.
  assert (Hne : collect futs <> []).
  { unfold summarize in Hs. destruct (collect futs); [discriminate|].
    discriminate. }
  split.
  - destruct (mean_over (fun r => float_of_nat (mulligan_count r))
                (collect futs)) as [q|] eqn:Eq.
    + exists q. split; [exact Hm|].
      eapply mean_over_bounds; [exact Eq|].
      eapply Forall_impl; [exact Hb|].
      intros r [Hk _]. cbv beta. unfold float_of_nat.
      change 0%Q with (inject_Z 0). change 3%Q with (inject_Z 3).
      rewrite <- !Zle_Qle. lia.
    + exfalso. unfold mean_over in Eq.
      destruct (collect futs); [now apply Hne | discriminate].
  - rewrite Hc.
    destruct (mean_over turn_of (List.filter was_cast (collect futs)))
      as [q|] eqn:Eq; [|exact I].
    eapply mean_over_bounds; [exact Eq|].
    apply List.Forall_forall. intros r Hr.
    apply List.filter_In in Hr as [Hin Hcast].
    rewrite List.Forall_forall in Hb. destruct (Hb r Hin) as [_ Ht].
    unfold was_cast in Hcast. unfold turn_of.
    destruct (cast_turn r) as [t|]; [|discriminate].
    unfold float_of_nat. change 37%Q with (inject_Z 37).
    rewrite <- !Zle_Qle. lia.
Qed.

Lemma averages_are_bounded_witness :
  exists agg w',
    run_simulations 40 3 2 1 8 3 w1 = Some (Ok (Some agg), w')
    /\ (exists q,
          average_mulligan_count agg = Some q /\ (0 <= q /\ q <= 3)%Q)
    /\ match average_cast_turn agg with
       | Some q => (inject_Z 3 <= q /\ q <= 37)%Q
       | None => True
       end.
Proof.
  eexists _, _. split; [vm_compute; reflexivity|].
  eapply (averages_are_bounded 40 3 2 1 8 3 w1).
  vm_compute; reflexivity.
Defined.

(** *** Order of completion *)

Lemma Qsum_perm (l l' : list Q) : l ≡ₚ l' -> (Qsum l == Qsum l')%Q.
Proof.
  induction 1 as [|x l l' _ IH|x y l|l1 l2 l3 _ IH1 _ IH2].
  - reflexivity.
  - cbn [Qsum fold_right]. fold (Qsum l). fold (Qsum l').
    rewrite IH. reflexivity.
  - cbn [Qsum fold_right]. fold (Qsum l). lra.
  - now rewrite IH1.
Qed.

Lemma collect_perm (futs futs' : list (option trial)) :
  futs ≡ₚ futs' -> collect futs ≡ₚ collect futs'.
Proof.
  induction 1 as [|x l l' _ IH|x y l|l1 l2 l3 _ IH1 _ IH2].
  - reflexivity.
  - destruct x; cbn [collect]; [now constructor | exact IH].
  - destruct x, y; cbn [collect]; try reflexivity. apply Permutation_swap.
  - now rewrite IH1.
Qed.

Lemma dropna_perm (col col' : list (option Q)) :
  col ≡ₚ col' -> dropna col ≡ₚ dropna col'.
Proof.
  induction 1 as [|x l l' _ IH|x y l|l1 l2 l3 _ IH1 _ IH2].
  - reflexivity.
  - destruct x; cbn [dropna]; [now constructor | exact IH].
  - destruct x, y; cbn [dropna]; try reflexivity. apply Permutation_swap.
  - now rewrite IH1.
Qed.

Lemma series_mean_perm (col col' : list (option Q)) :
  col ≡ₚ col' -> same_mean (series_mean col) (series_mean col').
Proof.
  intros Hp. apply dropna_perm in Hp. unfold series_mean.
  destruct (dropna col) as [|x p] eqn:E.
  - apply Permutation_nil in Hp. rewrite Hp. exact I.
  - destruct (dropna col') as [|y p'] eqn:E'.
    + symmetry in Hp. apply Permutation_nil in Hp. discriminate.
    + cbn [same_mean].
      rewrite (Qsum_perm _ _ Hp), (Permutation_length Hp). reflexivity.
Qed.

(** X16: the order in which the futures complete does not matter: two
    orders of the same worker results give either no aggregate both times,
    or two aggregates with the same fields and the same two averages. *)
Theorem completion_order_is_irrelevant (mana_value on_color_pips
    off_color_pips on_color_land_count num_simulations : Z)
    (fut_results fut_results' : list (option trial)) :
  fut_results ≡ₚ fut_results' ->
  match summarize mana_value on_color_pips off_color_pips
          on_color_land_count num_simulations (collect fut_results),
        summarize mana_value on_color_pips off_color_pips
          on_color_land_count num_simulations (collect fut_results')
  with
  | Some a, Some a' =>
      a_mana_value a = a_mana_value a'
      /\ a_on_color_pips a = a_on_color_pips a'
      /\ a_off_color_pips a = a_off_color_pips a'
      /\ a_on_color_land_count a = a_on_color_land_count a'
      /\ a_off_color_land_count a = a_off_color_land_count a'
      /\ iterations a = iterations a'
      /\ same_mean (average_cast_turn a) (average_cast_turn a')
      /\ same_mean (average_mulligan_count a) (average_mulligan_count a')
  | None, None => True
  | _, _ => False
  end.
Proof.
  intros Hp. apply collect_perm in Hp.
  unfold summarize. rewrite (Permutation_length Hp).
  destruct (0 <? length (collect fut_results')); [|exact I].
  cbn [a_mana_value a_on_color_pips a_off_color_pips a_on_color_land_count
       a_off_color_land_count iterations average_cast_turn
       average_mulligan_count].
  repeat (split; [reflexivity|]).
  split; apply series_mean_perm;
    unfold column_cast_turn, column_mulligan_count;
    now apply Permutation_map.
Qed.

Lemma completion_order_is_irrelevant_witness :
  [Some (mkTrial (Some 4) 3 2 1 0 1); None; Some (mkTrial None 3 2 1 0 0)]
  ≡ₚ [None; Some (mkTrial None 3 2 1 0 0); Some (mkTrial (Some 4) 3 2 1 0 1)]
  /\ match summarize 3 2 1 8 3
             (collect [Some (mkTrial (Some 4) 3 2 1 0 1); None;
                       Some (mkTrial None 3 2 1 0 0)]),
           summarize 3 2 1 8 3
             (collect [None; Some (mkTrial None 3 2 1 0 0);
                       Some (mkTrial (Some 4) 3 2 1 0 1)])
     with
     | Some a, Some a' =>
         a_mana_value a = a_mana_value a'
         /\ a_on_color_pips a = a_on_color_pips a'
         /\ a_off_color_pips a = a_off_color_pips a'
         /\ a_on_color_land_count a = a_on_color_land_count a'
         /\ a_off_color_land_count a = a_off_color_land_count a'
         /\ iterations a = iterations a'
         /\ same_mean (average_cast_turn a) (average_cast_turn a')
         /\ same_mean (average_mulligan_count a) (average_mulligan_count a')
     | None, None => True
     | _, _ => False
     end.
Proof.
  assert (H : [Some (mkTrial (Some 4) 3 2 1 0 1); None;
               Some (mkTrial None 3 2 1 0 0)]
              ≡ₚ [None; Some (mkTrial None 3 2 1 0 0);
                  Some (mkTrial (Some 4) 3 2 1 0 1)]).
  { etransitivity; [apply Permutation_swap|].
    constructor. apply Permutation_swap. }
  split; [exact H|].
  exact (completion_order_is_irrelevant 3 2 1 8 3 _ _ H).
Defined.

End OrchestratorBounds.

(** ** The parameter sweep *)

Module SweepFacts.

Import Orchestrator.
Import OrchestratorNotions.
Import Sweep.
Import SweepNotions.

Lemma range_spec (a b x : Z) : In x (range a b) <-> (a <= x < b)%Z.
Proof.
  unfold range. rewrite List.in_map_iff. split.
  - intros (i & <- & Hi). apply List.in_seq in Hi. lia.
  - intros Hx. exists (Z.to_nat (x - a)). split; [lia|].
    apply List.in_seq. lia.
Qed.

Lemma range_empty (a b : Z) : (b <= a)%Z -> range a b = [].
Proof.
  intros H. unfold range. replace (Z.to_nat (b - a)) with 0 by lia.
  reflexivity.
Qed.

Lemma range_cons (a b : Z) :
  (a < b)%Z -> range a b = a :: range (a + 1) b.
Proof.
  intros H. unfold range.
  replace (Z.to_nat (b - a)) with (S (Z.to_nat (b - (a + 1)))) by lia.
  cbn [seq map]. f_equal; [lia|].
  rewrite <- List.seq_shift, List.map_map.
  apply List.map_ext. intros i. lia.
Qed.

(** An invariant of the collected rows is kept by a loop whose body keeps
    it. *)
Lemma for_each_inv {A : Type} (P : list aggregate -> Prop) (Q : A -> Prop)
    (body : A -> list aggregate -> World
            -> option (res (list aggregate) * World)) :
  (forall x acc w acc' w',
     Q x -> P acc -> body x acc w = Some (Ok acc', w') -> P acc') ->
  forall l acc w acc' w',
    Forall Q l -> P acc ->
    for_each l body acc w = Some (Ok acc', w') -> P acc'.
Proof.
  intros Hbody l. induction l as [|x l IH]; intros acc w acc' w' HQ HP H.
  - cbn in H. now injection H as <- <-.
  - cbn [for_each] in H. inversion HQ as [|? ? Hx Hl]; subst.
    destruct (body x acc w) as [[[acc1|e] w1]|] eqn:E; try discriminate.
    eapply IH; [exact Hl | | exact H].
    eapply Hbody; eauto.
Qed.

(** A loop whose body always returns rows returns rows. *)
Lemma for_each_total {A : Type} (Q : A -> Prop)
    (body : A -> list aggregate -> World
            -> option (res (list aggregate) * World)) :
  (forall x acc w, Q x -> exists acc' w', body x acc w = Some (Ok acc', w')) ->
  forall l acc w,
    Forall Q l ->
    exists acc' w', for_each l body acc w = Some (Ok acc', w').
Proof.
  intros Hbody l. induction l as [|x l IH]; intros acc w HQ.
  - cbn. eauto.
  - cbn [for_each]. inversion HQ as [|? ? Hx Hl]; subst.
    destruct (Hbody x acc w Hx) as (acc1 & w1 & ->).
    apply IH. exact Hl.
Qed.

Lemma Forall_range (a b : Z) :
  Forall (fun x => (a <= x < b)%Z) (range a b).
Proof. apply List.Forall_forall. intros x. apply range_spec. Qed.

(** An aggregate comes from a feasible combination and echoes it. *)
Lemma run_simulations_some (fuel : nat) (mv on off n num : Z) (w w' : World)
    (agg : aggregate) :
  run_simulations fuel mv on off n num w = Some (Ok (Some agg), w') ->
  valid_input mv on off n
  /\ ~ bad_arguments mv on off n num
  /\ agg = mkAggregate mv on off n (LAND_COUNT - n) num
             (average_cast_turn agg) (average_mulligan_count agg).
Proof.
  intros H.
  destruct (OrchestratorMore.run_simulations_inv _ _ _ _ _ _ _ _ _ H)
    as (Hgood & futs & Hw & Hs).
  pose proof (OrchestratorMore.run_workers_kept _ _ _ _ _ _ _ _ _ Hw) as Hk.
  split; [|split; [exact Hgood|]].
  - unfold summarize in Hs.
    destruct (collect futs) as [|r rs] eqn:Ec; [discriminate|].
    assert (Hin : In (Some r) futs).
    { clear -Ec. revert r rs Ec.
      induction futs as [|[x|] l IH]; intros r rs Ec; cbn [collect] in Ec.
      - discriminate.
      - injection Ec as -> _. now left.
      - right. eapply IH. exact Ec. }
    rewrite List.Forall_forall in Hk.
    apply (Hk _ Hin). discriminate.
  - unfold summarize in Hs.
    destruct (0 <? length (collect futs)); [|discriminate].
    injection Hs as ->. reflexivity.
Qed.

Lemma row_ok_of_run (fuel : nat) (it min max : Z) (gold : bool)
    (mv on off n : Z) (w w' : World) (agg : aggregate) :
  run_simulations fuel mv on off n it w = Some (Ok (Some agg), w') ->
  (min <= mv <= max)%Z -> (gold = false -> off = 0%Z) ->
  row_ok it min max gold agg.
Proof.
  intros H Hmv Hoff.
  destruct (run_simulations_some _ _ _ _ _ _ _ _ _ H) as (Hv & Hgood & ->).
  unfold row_ok, valid_input, bad_arguments, LAND_COUNT in *.
  cbn [a_mana_value a_on_color_pips a_off_color_pips a_on_color_land_count
       a_off_color_land_count iterations].
  split; [lia | exact Hoff].
Qed.

Lemma append_result_ok (P : aggregate -> Prop) (acc : list aggregate)
    (result : option aggregate) :
  Forall P acc -> (forall a, result = Some a -> P a) ->
  Forall P (append_result acc result).
Proof.
  intros Hacc Hr. destruct result as [a|]; cbn [append_result]; [|exact Hacc].
  apply Forall_app. split; [exact Hacc|]. constructor; auto.
Qed.

(** X17: every row that the sweep collects describes a combination that
    can be played: a land count between 1 and 17, a mana value within the
    requested bounds, at least one on-color pip, pips within the mana value
    and payable by the lands of their color; it reports [17 - n] off-color
    lands and the requested number of iterations; and without gold cards
    it has no off-color pip. *)
Theorem sweep_rows_are_feasible (fuel : nat) (iterations_per_simulation
    min_mana_value max_mana_value : Z) (include_gold_cards : bool)
    (w w' : World) (rows : list aggregate) :
  main fuel iterations_per_simulation min_mana_value max_mana_value
    include_gold_cards w = Some (Ok rows, w') ->
  Forall (row_ok iterations_per_simulation min_mana_value max_mana_value
            include_gold_cards) rows.
Proof.
  unfold main.
  set (P := Forall (row_ok iterations_per_simulation min_mana_value
                      max_mana_value include_gold_cards)).
  intros H.
  eapply (for_each_inv P (fun n => (1 <= n < LAND_COUNT + 1)%Z));
    [|apply Forall_range|constructor|exact H].
  clear H. intros n acc1 w1 acc1' w1' Hn Hacc1 H1.
  eapply (for_each_inv P
            (fun mv => (min_mana_value <= mv < max_mana_value + 1)%Z));
    [|apply Forall_range|exact Hacc1|exact H1].
  clear H1. intros mv acc2 w2 acc2' w2' Hmv Hacc2 H2.
  destruct include_gold_cards; cbn [negb] in H2.
  - eapply (for_each_inv P (fun on => (1 <= on < mv + 1)%Z));
      [|apply Forall_range|exact Hacc2|exact H2].
    clear H2. intros on acc3 w3 acc3' w3' Hon Hacc3 H3.
    eapply (for_each_inv P (fun off => (0 <= off < mv - on + 1)%Z));
      [|apply Forall_range|exact Hacc3|exact H3].
    clear H3. intros off acc4 w4 acc4' w4' Hoff Hacc4 H4.
    unfold sweep_gold in H4.
    destruct ((on =? 0)%Z && (off =? 0)%Z);
      [injection H4 as <- <-; exact Hacc4|].
    destruct (on + off >? mv)%Z;
      [injection H4 as <- <-; exact Hacc4|].
    destruct (run_simulations fuel mv on off n iterations_per_simulation w4)
      as [[[result|e] w5]|] eqn:Er; [| |discriminate];
      injection H4 as <- <-; [|exact Hacc4].
    apply append_result_ok; [exact Hacc4|].
    intros a ->. eapply row_ok_of_run; [exact Er | lia | discriminate].
  - eapply (for_each_inv P (fun on => (1 <= on < mv + 1)%Z));
      [|apply Forall_range|exact Hacc2|exact H2].
    clear H2. intros on acc3 w3 acc3' w3' Hon Hacc3 H3.
    unfold sweep_mono in H3.
    destruct (run_simulations fuel mv on 0 n iterations_per_simulation w3)
      as [[[result|e] w5]|] eqn:Er; try discriminate.
    injection H3 as <- <-.
    apply append_result_ok; [exact Hacc3|].
    intros a ->. eapply row_ok_of_run; [exact Er | lia | reflexivity].
Qed.

Lemma sweep_rows_are_feasible_witness :
  exists rows w',
    main 38 1 2 2 false w1 = Some (Ok rows, w')
    /\ Forall (row_ok 1 2 2 false) rows.
Proof.
  eexists _, _. split; [vm_compute; reflexivity|].
  eapply (sweep_rows_are_feasible 38 1 2 2 false w1).
  vm_compute; reflexivity.
Defined.

(** With fuel for 38 passes [run_simulations] always returns. *)
Lemma run_simulations_total (fuel : nat) (mv on off n num : Z) (w : World) :
  38 <= fuel ->
  exists x w', run_simulations fuel mv on off n num w = Some (x, w')
               /\ (~ bad_arguments mv on off n num ->
                   exists result, x = Ok result).
Proof.
  intros Hfuel.
  assert (Hdec : bad_arguments mv on off n num
                 \/ ~ bad_arguments mv on off n num)
    by (unfold bad_arguments, LAND_COUNT; lia).
  destruct Hdec as [Hbad|Hgood].
  - unfold run_simulations, bad_arguments, LAND_COUNT in *.
    destruct (Z.ltb_spec mv 1); [eexists _, _; split; [reflexivity|tauto]|].
    destruct (Z.ltb_spec on 1); [eexists _, _; split; [reflexivity|tauto]|].
    destruct (Z.ltb_spec off 0); [eexists _, _; split; [reflexivity|tauto]|].
    destruct (Z.ltb_spec n 1); [eexists _, _; split; [reflexivity|tauto]|].
    destruct (Z.gtb_spec n 17); [eexists _, _; split; [reflexivity|tauto]|].
    destruct (Z.ltb_spec num 1); [eexists _, _; split; [reflexivity|tauto]|].
    destruct (Z.gtb_spec (on + off) mv);
      [eexists _, _; split; [reflexivity|tauto]|].
    lia.
  - rewrite (OrchestratorMore.run_simulations_good _ _ _ _ _ _ _ Hgood).
    assert (Hv : valid_input mv on off n \/ ~ valid_input mv on off n)
      by (unfold valid_input, LAND_COUNT; lia).
    destruct Hv as [Hv|Hv].
    + destruct (OrchestratorMore.run_workers_valid fuel _ _ _ _
                  (Z.to_nat num) Hv Hfuel w) as (futs & w' & ->).
      eexists _, _. split; [reflexivity|]. eauto.
    + destruct (OrchestratorMore.run_workers_invalid fuel _ _ _ _
                  (Z.to_nat num) Hv w) as (futs & w' & -> & _).
      eexists _, _. split; [reflexivity|]. eauto.
Qed.

(** X18: with fuel for 38 passes per loop the sweep runs to its end and
    returns its rows, without raising, when gold cards are included,
    whatever the other arguments (every exception of [run_simulations] is
    caught there), and also without gold cards when at least one iteration
    is requested. *)
Theorem sweep_completes (fuel : nat) (iterations_per_simulation
    min_mana_value max_mana_value : Z) (include_gold_cards : bool)
    (w : World) :
  38 <= fuel ->
  include_gold_cards = true \/ (1 <= iterations_per_simulation)%Z ->
  exists rows w',
    main fuel iterations_per_simulation min_mana_value max_mana_value
      include_gold_cards w = Some (Ok rows, w').
Proof.
  intros Hfuel Hcase. unfold main.
  apply (for_each_total (fun n => (1 <= n < LAND_COUNT + 1)%Z));
    [|apply Forall_range].
  intros n acc1 w1 Hn.
  apply (for_each_total
           (fun mv => (min_mana_value <= mv < max_mana_value + 1)%Z));
    [|apply Forall_range].
  intros mv acc2 w2 Hmv.
  destruct include_gold_cards; cbn [negb].
  - apply (for_each_total (fun on => (1 <= on < mv + 1)%Z));
      [|apply Forall_range].
    intros on acc3 w3 Hon.
    apply (for_each_total (fun off => (0 <= off < mv - on + 1)%Z));
      [|apply Forall_range].
    intros off acc4 w4 Hoff. unfold sweep_gold.
    destruct ((on =? 0)%Z && (off =? 0)%Z); [eauto|].
    destruct (on + off >? mv)%Z; [eauto|].
    destruct (run_simulations_total fuel mv on off n
                iterations_per_simulation w4 Hfuel) as (x & w5 & -> & _).
    destruct x; eauto.
  - destruct Hcase as [?|Hit]; [discriminate|].
    apply (for_each_total (fun on => (1 <= on < mv + 1)%Z));
      [|apply Forall_range].
    intros on acc3 w3 Hon. unfold sweep_mono.
    destruct (run_simulations_total fuel mv on 0 n
                iterations_per_simulation w3 Hfuel) as (x & w5 & -> & Hok).
    destruct Hok as (result & ->); [|eauto].
    unfold bad_arguments, LAND_COUNT in *. lia.
Qed.

Lemma sweep_completes_witness :
  38 <= 38 /\ (true = true \/ (1 <= 0)%Z)
  /\ exists rows w', main 38 0 1 2 true w1 = Some (Ok rows, w').
Proof.
  assert (H1 : 38 <= 38) by lia.
  assert (H2 : true = true \/ (1 <= 0)%Z) by (left; reflexivity).
  split; [exact H1|]. split; [exact H2|].
  exact (sweep_completes 38 0 1 2 true w1 H1 H2).
Defined.

(** A loop raises at the first element whose body raises, when the body
    does nothing on the elements before it. *)
Lemma for_each_raises {A : Type}
    (body : A -> list aggregate -> World
            -> option (res (list aggregate) * World))
    (l1 l2 : list A) (x : A) (acc : list aggregate) (w : World) (e : exn) :
  (forall y, In y l1 -> body y acc w = Some (Ok acc, w)) ->
  body x acc w = Some (Raise e, w) ->
  for_each (l1 ++ x :: l2) body acc w = Some (Raise e, w).
Proof.
  intros H1 Hx. induction l1 as [|y l1 IH]; cbn [app for_each].
  - now rewrite Hx.
  - rewrite (H1 y) by now left. apply IH.
    intros z Hz. apply H1. now right.
Qed.

Lemma range_split (a b c : Z) :
  (a <= b <= c)%Z -> range a c = range a b ++ range b c.
Proof.
  intros H. unfold range.
  replace (Z.to_nat (c - a)) with (Z.to_nat (b - a) + Z.to_nat (c - b))
    by lia.
  rewrite List.seq_app, List.map_app. f_equal.
  assert (Hshift : forall len k,
            map (fun i => (a + Z.of_nat i)%Z) (seq (Z.to_nat (b - a) + k) len)
            = map (fun i => (b + Z.of_nat i)%Z) (seq k len)).
  { induction len as [|len IH]; intros k; [reflexivity|].
    cbn [seq map]. f_equal; [lia|].
    rewrite <- Nat.add_succ_r. apply IH. }
  rewrite Nat.add_0_l, <- (Nat.add_0_r (Z.to_nat (b - a))).
  apply Hshift.
Qed.

(** X19: without gold cards an exception of [run_simulations] is not
    caught.  When fewer than one iteration is requested and the sweep has a
    mana value to try ([min <= max] and [1 <= max]), the first call raises
    and [main] ends with that [ValueError], having produced no row and
    used nothing of the world. *)
Theorem sweep_without_gold_raises (fuel : nat) (iterations_per_simulation
    min_mana_value max_mana_value : Z) (w : World) :
  (iterations_per_simulation < 1)%Z ->
  (min_mana_value <= max_mana_value)%Z -> (1 <= max_mana_value)%Z ->
  main fuel iterations_per_simulation min_mana_value max_mana_value false w
  = Some (Raise (ValueError "Number of simulations must be at least 1."), w).
Proof.
  intros Hit Hmm Hmax. unfold main.
  rewrite (range_cons 1 (LAND_COUNT + 1)) by (unfold LAND_COUNT; lia).
  cbn [for_each negb].
  set (m0 := Z.max min_mana_value 1).
  rewrite (range_split min_mana_value m0 (max_mana_value + 1)) by lia.
  rewrite (range_cons m0 (max_mana_value + 1)) by lia.
  rewrite (for_each_raises _ _ _ m0 [] w
             (ValueError "Number of simulations must be at least 1."));
    [reflexivity| |].
  - intros mv Hmv. apply range_spec in Hmv.
    rewrite range_empty by lia. reflexivity.
  - rewrite (range_cons 1 (m0 + 1)) by lia.
    cbn [for_each]. unfold sweep_mono, run_simulations.
    destruct (Z.ltb_spec m0 1); [lia|].
    change (1 <? 1)%Z with false. change (0 <? 0)%Z with false.
    change (1 >? LAND_COUNT)%Z with false. cbv iota.
    destruct (Z.ltb_spec iterations_per_simulation 1); [|lia].
    reflexivity.
Qed.

Lemma sweep_without_gold_raises_witness :
  (0 < 1)%Z /\ (-2 <= 3)%Z /\ (1 <= 3)%Z
  /\ main 0 0 (-2) 3 false w1
     = Some (Raise (ValueError "Number of simulations must be at least 1."),
             w1).
Proof.
  assert (H1 : (0 < 1)%Z) by lia.
  assert (H2 : (-2 <= 3)%Z) by lia.
  assert (H3 : (1 <= 3)%Z) by lia.
  split; [exact H1|]. split; [exact H2|]. split; [exact H3|].
  exact (sweep_without_gold_raises 0 0 (-2) 3 w1 H1 H2 H3).
Defined.

End SweepFacts.

(** ** The kept hand *)

Lemma count_on_of_others (l : list card) :
  Forall (fun c => is_other_card c = true) l ->
  count_if is_on_color_land l = 0 /\ count_if is_off_color_land l = 0.
Proof.
  intros H. split; apply count_if_none; (eapply Forall_impl; [exact H|]);
    intros [| |]; cbn; congruence.
Qed.

Lemma count_on_of_offs (l : list card) :
  Forall (fun c => is_off_color_land c = true) l ->
  count_if is_on_color_land l = 0.
Proof.
  intros H. apply count_if_none. eapply Forall_impl; [exact H|].
  intros [| ? []|]; cbn; congruence.
Qed.

(** X5: trimming never takes away the land a hand was kept for.  From an
    opening hand of six library cards and the target card over the 33
    remaining cards, the hand kept after at most one mulligan still holds
    an on-color land after the trim step, and the hand kept after two
    mulligans still holds a land; and the kept hand and the library are
    together the cards that were dealt. *)
Theorem kept_hand_keeps_its_land (target_card : card)
    (drawn deck : list card) (fuel : nat) :
  4 <= fuel -> is_target_card target_card = true ->
  length drawn = 6 -> no_target drawn ->
  length deck = 33 -> no_target deck ->
  exists kept_hand library k,
    simulate_keep fuel target_card (drawn ++ [target_card]) deck
    = Some (Ok (kept_hand, library, k))
    /\ (k <= 1 -> 0 < count_if is_on_color_land kept_hand)
    /\ (k = 2 -> 0 < count_if is_land kept_hand)
    /\ kept_hand ++ library ≡ₚ (drawn ++ [target_card]) ++ deck.
Proof.
  intros Hfuel Htc Hlr Hnr Hld Hnd.
  destruct (simulate_keep_spec target_card drawn deck fuel
              Hfuel Htc Hlr Hnr Hld Hnd)
    as (hm & dm & k & tr & h & Hm & _ & Hk & Ht & _ & Hltr & Hs & Hh & Hlh & _).
  pose proof (mulligan_loop_exit _ _ _ _ _ _ _ _ Hm)
    as (_ & _ & _ & Hon & Hland & _ & Pm).
  destruct (trim_loop_priority _ _ _ _ _ Ht (trim_priority_nil hm))
    as (tr' & h' & [= <- <-] & Pt & Hprio & _).
  rewrite app_nil_r in Pt.
  destruct Hprio as (F & O & N & -> & HF & HO & HN & HnoF & HnoO).
  destruct (count_on_of_others _ HF) as [F1 F2].
  pose proof (count_on_of_offs _ HO) as O1.
  pose proof (card_kinds h) as Hkinds.
  destruct Hh as (_ & _ & Htarget).
  exists h, (dm ++ F ++ O ++ N), k. split; [exact Hs|].
  split; [|split].
  - intros Hk1. specialize (Hon Hk1).
    rewrite (count_if_perm _ _ _ Pt), !count_if_app in Hon.
    destruct N as [|c N].
    + change (count_if is_on_color_land []) with 0 in Hon. lia.
    + rewrite (existsb_false_count _ _ (HnoO ltac:(discriminate))) in Hkinds.
      rewrite (existsb_false_count _ _
                 (HnoF ltac:(intros E; apply app_eq_nil in E as [_ E];
                             discriminate))) in Hkinds.
      lia.
  - intros ->. specialize (Hland eq_refl).
    rewrite count_land_split.
    rewrite !(count_if_perm _ _ _ Pt), !count_if_app in Hland.
    destruct (O ++ N) as [|c ON] eqn:E.
    + apply app_eq_nil in E as [-> ->].
      change (count_if is_on_color_land []) with 0 in Hland.
      change (count_if is_off_color_land []) with 0 in Hland. lia.
    + rewrite (existsb_false_count _ _ (HnoF ltac:(discriminate))) in Hkinds.
      lia.
  - set (T := F ++ O ++ N) in *.
    rewrite <- Pm, Pt, <- (app_assoc h T dm).
    apply Permutation_app_head. apply Permutation_app_comm.
Qed.

Lemma kept_hand_keeps_its_land_witness :
  4 <= 4 /\ is_target_card sample_target = true
  /\ length sample_drawn = 6 /\ no_target sample_drawn
  /\ length sample_library = 33 /\ no_target sample_library
  /\ exists kept_hand library k,
       simulate_keep 4 sample_target (sample_drawn ++ [sample_target])
         sample_library
       = Some (Ok (kept_hand, library, k))
       /\ (k <= 1 -> 0 < count_if is_on_color_land kept_hand)
       /\ (k = 2 -> 0 < count_if is_land kept_hand)
       /\ kept_hand ++ library
          ≡ₚ (sample_drawn ++ [sample_target]) ++ sample_library.
Proof.
  assert (H1 : 4 <= 4) by lia.
  assert (H2 : is_target_card sample_target = true) by reflexivity.
  assert (H3 : length sample_drawn = 6) by reflexivity.
  assert (H4 : no_target sample_drawn) by (repeat constructor).
  assert (H5 : length sample_library = 33) by reflexivity.
  assert (H6 : no_target sample_library) by (repeat constructor).
  repeat (split; [assumption|]).
  exact (kept_hand_keeps_its_land sample_target sample_drawn
           sample_library 4 H1 H2 H3 H4 H5 H6).
Defined.
